(** * generar_credenciales.py: a shallow embedding and its properties

    The script builds one self-contained HTML file: it base64-encodes a
    photo, rasterises every page of four PDFs to base64 PNG images, and
    substitutes the results into an HTML template (one [str.replace] and
    four [re.sub] calls).

    Conventions of the embedding:
    - [bytes] (Python [bytes]) is [list byte];
    - [str] (Python [str]) is [list ascii]; HTML text is handled as the
      sequence of its UTF-8 code units, which is sound for the operations
      of the script because every literal and every pattern it uses is
      ASCII;
    - PyMuPDF is not part of the repository: the PDF parser and the page
      renderer are section variables;
    - the file system and the standard output are threaded explicitly. *)

From Stdlib Require Import Ascii String NArith ZArith Lia Bool Arith.
From Stdlib Require Import List Permutation.
From Stdlib.Strings Require Import Byte.
From Stdlib Require DecimalString.
Import ListNotations.

Set Implicit Arguments.

Definition str := list ascii.
Definition bytes := list byte.

(** String literals of the script are written with [lit]; the double quote
    character is [dq]. *)
Definition lit (s : string) : str := list_ascii_of_string s.
Definition dq : ascii := "034"%char.
Definition nl : ascii := "010"%char.

(** ** Elementary string operations (Python [str] methods) *)

(** [s.startswith(p)] *)
Fixpoint starts_with (p s : str) : bool :=
  match p, s with
  | [], _ => true
  | _ :: _, [] => false
  | a :: p', b :: s' => Ascii.eqb a b && starts_with p' s'
  end.

(** [p in s] *)
Fixpoint contains (p s : str) : bool :=
  starts_with p s ||
  match s with
  | [] => false
  | _ :: s' => contains p s'
  end.

(** [s.endswith(p)] *)
Definition ends_with (p s : str) : bool := starts_with (rev p) (rev s).

(** [sep.join(parts)] *)
Fixpoint join (sep : str) (parts : list str) : str :=
  match parts with
  | [] => []
  | [x] => x
  | x :: rest => x ++ sep ++ join sep rest
  end.

(** Decimal rendering of a natural number, as [f"{n}"] does. *)
Definition str_of_nat (n : nat) : str :=
  list_ascii_of_string (DecimalString.NilZero.string_of_uint (Nat.to_uint n)).

(** ** base64 (RFC 4648, [base64.b64encode]) *)

Module Base64.

Definition alphabet : str :=
  lit "ABCDEFGHIJKLMNOPQRSTUVWXYZabcdefghijklmnopqrstuvwxyz0123456789+/".

Definition pad : ascii := "="%char.

(** The character of a 6-bit value. *)
Definition char_of_sextet (n : N) : ascii :=
  nth (N.to_nat n) alphabet "A"%char.

(** The four 6-bit values of a 24-bit group, with the shifts and masks of
    the encoder. *)
Definition sextet1 (a : N) : N := N.shiftr a 2.
Definition sextet2 (a b : N) : N :=
  N.lor (N.shiftl (N.land a 3) 4) (N.shiftr b 4).
Definition sextet3 (b c : N) : N :=
  N.lor (N.shiftl (N.land b 15) 2) (N.shiftr c 6).
Definition sextet4 (c : N) : N := N.land c 63.

Fixpoint encode_N (bs : list N) : str :=
  match bs with
  | [] => []
  | [a] =>
      [char_of_sextet (sextet1 a); char_of_sextet (sextet2 a 0); pad; pad]
  | [a; b] =>
      [char_of_sextet (sextet1 a); char_of_sextet (sextet2 a b);
       char_of_sextet (sextet3 b 0); pad]
  | a :: b :: c :: rest =>
      char_of_sextet (sextet1 a) :: char_of_sextet (sextet2 a b) ::
      char_of_sextet (sextet3 b c) :: char_of_sextet (sextet4 c) ::
      encode_N rest
  end.

(** [base64.b64encode(data).decode('utf-8')]: the encoder's output is
    ASCII, so decoding it as UTF-8 is the identity on code units. *)
Definition b64encode (data : bytes) : str := encode_N (map Byte.to_N data).

(** Decoding, as RFC 4648 defines it (the inverse that
    [base64.b64decode] computes on canonical input). *)
Fixpoint index_of (c : ascii) (l : str) (i : N) : option N :=
  match l with
  | [] => None
  | x :: l' => if Ascii.eqb c x then Some i else index_of c l' (N.succ i)
  end.

Definition sextet_of_char (c : ascii) : option N := index_of c alphabet 0.

Definition octet1 (s1 s2 : N) : N := N.lor (N.shiftl s1 2) (N.shiftr s2 4).
Definition octet2 (s2 s3 : N) : N :=
  N.lor (N.shiftl (N.land s2 15) 4) (N.shiftr s3 2).
Definition octet3 (s3 s4 : N) : N := N.lor (N.shiftl (N.land s3 3) 6) s4.

Definition obind {A B} (o : option A) (f : A -> option B) : option B :=
  match o with
  | Some x => f x
  | None => None
  end.

Fixpoint b64decode (s : str) : option bytes :=
  match s with
  | [] => Some []
  | c1 :: c2 :: c3 :: c4 :: rest =>
      obind (sextet_of_char c1) (fun s1 =>
      obind (sextet_of_char c2) (fun s2 =>
      obind (Byte.of_N (octet1 s1 s2)) (fun o1 =>
      if Ascii.eqb c3 pad then
        if Ascii.eqb c4 pad
        then match rest with [] => Some [o1] | _ :: _ => None end
        else None
      else
        obind (sextet_of_char c3) (fun s3 =>
        obind (Byte.of_N (octet2 s2 s3)) (fun o2 =>
        if Ascii.eqb c4 pad
        then match rest with [] => Some [o1; o2] | _ :: _ => None end
        else
          obind (sextet_of_char c4) (fun s4 =>
          obind (Byte.of_N (octet3 s3 s4)) (fun o3 =>
          obind (b64decode rest) (fun tl => Some (o1 :: o2 :: o3 :: tl)))))))))
  | _ => None
  end.

End Base64.

(** ** [str.replace] *)

(** [replace_from old new skip s] scans [s] from left to right; [skip] is
    the number of characters of the current occurrence still to be dropped.
    [old] is not empty. *)
Fixpoint replace_from (old new : str) (skip : nat) (s : str) : str :=
  match s with
  | [] => []
  | c :: s' =>
      match skip with
      | S k => replace_from old new k s'
      | O =>
          if starts_with old s
          then new ++ replace_from old new (length old - 1) s'
          else c :: replace_from old new 0 s'
      end
  end.

(** [s.replace(old, new)]: every non-overlapping occurrence, leftmost
    first.  With an empty [old], Python inserts [new] before every
    character and at the end. *)
Definition str_replace (old new s : str) : str :=
  match old with
  | [] => new ++ flat_map (fun c => c :: new) s
  | _ :: _ => replace_from old new 0 s
  end.

(** [s.count(p)] for a non-empty [p]: non-overlapping occurrences. *)
Fixpoint count_from (p : str) (skip : nat) (s : str) : nat :=
  match s with
  | [] => 0
  | _ :: s' =>
      match skip with
      | S k => count_from p k s'
      | O =>
          if starts_with p s
          then S (count_from p (length p - 1) s')
          else count_from p 0 s'
      end
  end.

Definition str_count (p s : str) : nat := count_from p 0 s.

(** ** Regular expressions: the fragment of [re] the script uses *)

Module Re.

(** A set of characters: one character, a negated set [[^...]], or [.]
    under [re.DOTALL]. *)
Inductive cset :=
| CChar (c : ascii)
| CNotIn (l : list ascii)
| CAny.

Definition in_cset (cs : cset) (c : ascii) : bool :=
  match cs with
  | CChar a => Ascii.eqb a c
  | CNotIn l => negb (existsb (Ascii.eqb c) l)
  | CAny => true
  end.

(** A pattern is a sequence of single-character atoms, each possibly under
    a greedy [*] or a lazy [*?]. *)
Inductive item :=
| One (cs : cset)
| Star (cs : cset)
| LazyStar (cs : cset).

Definition regex := list item.

(** The backtracking matcher, anchored at the start of [s].  It returns the
    text left after the match the engine finds first: a greedy star tries
    the longest repetition first, a lazy one the shortest. *)
Fixpoint match_here (r : regex) (s : str) : option str :=
  match r with
  | [] => Some s
  | One cs :: k =>
      match s with
      | c :: s' => if in_cset cs c then match_here k s' else None
      | [] => None
      end
  | Star cs :: k =>
      (fix greedy (s : str) : option str :=
         match s with
         | c :: s' =>
             if in_cset cs c
             then match greedy s' with
                  | Some rest => Some rest
                  | None => match_here k s
                  end
             else match_here k s
         | [] => match_here k []
         end) s
  | LazyStar cs :: k =>
      (fix lazy (s : str) : option str :=
         match match_here k s with
         | Some rest => Some rest
         | None =>
             match s with
             | c :: s' => if in_cset cs c then lazy s' else None
             | [] => None
             end
         end) s
  end.

(** *** Pattern syntax *)

Inductive token :=
| TAtom (cs : cset)
| TStar
| TQuestion.

Inductive mode :=
| Normal
| Escaped
| SetStart
| SetBody (acc : list ascii).

Definition is_digit (c : ascii) : bool :=
  (48 <=? nat_of_ascii c) && (nat_of_ascii c <=? 57).

Definition is_alpha (c : ascii) : bool :=
  ((65 <=? nat_of_ascii c) && (nat_of_ascii c <=? 90)) ||
  ((97 <=? nat_of_ascii c) && (nat_of_ascii c <=? 122)).

Definition is_alnum (c : ascii) : bool := is_digit c || is_alpha c.

(** The characters [re.escape] protects (Python 3.7 and later):
    [()[]{}?*+-|^$\.&~# \t\n\r\v\f]. *)
Definition special_chars : list ascii :=
  lit "()[]{}?*+-|^$\.&~# " ++
  ["009"; "010"; "013"; "011"; "012"]%char.

Definition is_special (c : ascii) : bool := existsb (Ascii.eqb c) special_chars.

(** [re.escape(s)] *)
Fixpoint re_escape (s : str) : str :=
  match s with
  | [] => []
  | c :: s' =>
      if is_special c then "\"%char :: c :: re_escape s' else c :: re_escape s'
  end.

(** Characters with a meaning of their own in a pattern, outside a set. *)
Definition is_meta (c : ascii) : bool :=
  existsb (Ascii.eqb c) (lit "()[]{}?*+|^$\.").

Fixpoint tokenize (m : mode) (p : str) : option (list token) :=
  match p with
  | [] => match m with Normal => Some [] | _ => None end
  | c :: p' =>
      match m with
      | Normal =>
          if Ascii.eqb c "\" then tokenize Escaped p'
          else if Ascii.eqb c "[" then tokenize SetStart p'
          else if Ascii.eqb c "." then
            option_map (cons (TAtom CAny)) (tokenize Normal p')
          else if Ascii.eqb c "*" then
            option_map (cons TStar) (tokenize Normal p')
          else if Ascii.eqb c "?" then
            option_map (cons TQuestion) (tokenize Normal p')
          else if is_meta c then None
          else option_map (cons (TAtom (CChar c))) (tokenize Normal p')
      | Escaped =>
          if is_alnum c then None
          else option_map (cons (TAtom (CChar c))) (tokenize Normal p')
      | SetStart =>
          if Ascii.eqb c "^" then tokenize (SetBody []) p' else None
      | SetBody acc =>
          if Ascii.eqb c "]" then
            match acc with
            | [] => None
            | _ :: _ =>
                option_map (cons (TAtom (CNotIn (rev acc))))
                           (tokenize Normal p')
            end
          else if Ascii.eqb c "\" || Ascii.eqb c "-" || Ascii.eqb c "["
          then None
          else tokenize (SetBody (c :: acc)) p'
      end
  end.

Fixpoint postfix (ts : list token) : option regex :=
  match ts with
  | [] => Some []
  | TAtom cs :: TStar :: TQuestion :: rest =>
      option_map (cons (LazyStar cs)) (postfix rest)
  | TAtom cs :: TStar :: rest => option_map (cons (Star cs)) (postfix rest)
  | TAtom cs :: rest => option_map (cons (One cs)) (postfix rest)
  | TStar :: _ => None
  | TQuestion :: _ => None
  end.

(** [re.compile(pattern, re.DOTALL)], on the supported syntax; [None]
    stands for a pattern outside it. *)
Definition compile (pattern : str) : option regex :=
  match tokenize Normal pattern with
  | Some ts => postfix ts
  | None => None
  end.

(** *** Substitution *)

(** [sub_from r repl skip s]: the scan of [re.sub].  At a position where
    the pattern matches a non-empty text, [repl] is emitted and the scan
    resumes after the match.  An empty match emits [repl] and copies the
    next character. *)
Fixpoint sub_from (r : regex) (repl : str) (skip : nat) (s : str) : str :=
  match s with
  | [] =>
      match skip, match_here r [] with
      | O, Some _ => repl
      | _, _ => []
      end
  | c :: s' =>
      match skip with
      | S k => sub_from r repl k s'
      | O =>
          match match_here r s with
          | Some rest =>
              match length s - length rest with
              | O => repl ++ c :: sub_from r repl 0 s'
              | S k => repl ++ sub_from r repl k s'
              end
          | None => c :: sub_from r repl 0 s'
          end
      end
  end.

(** The number of matches [re.sub] replaces ([len(re.findall(...))] for a
    pattern that matches no empty text). *)
Fixpoint count_matches (r : regex) (skip : nat) (s : str) : nat :=
  match s with
  | [] => 0
  | _ :: s' =>
      match skip with
      | S k => count_matches r k s'
      | O =>
          match match_here r s with
          | Some rest =>
              S (count_matches r (length s - length rest - 1) s')
          | None => count_matches r 0 s'
          end
      end
  end.

(** [re.sub(pattern, repl, s, flags=re.DOTALL)].  [re.sub] reads backslash
    escapes in [repl]; a replacement with a backslash is outside the
    model, as is an unsupported pattern ([None]). *)
Definition re_sub (pattern repl s : str) : option str :=
  match compile pattern with
  | Some r =>
      if existsb (Ascii.eqb "\") repl then None
      else Some (sub_from r repl 0 s)
  | None => None
  end.

End Re.

(** ** The environment of the script *)

(** Uncaught exceptions.  [OSError] stands for what [open] and [write]
    raise on a path that is there: [IsADirectoryError], [PermissionError],
    no space left on the device. *)
Inductive exn :=
| FileNotFoundError (path : str)
| OSError (path : str)
| UnicodeDecodeError (path : str)
| FileDataError (path : str)
| IndexError
| KeyError (key : str)
| ReError (pattern : str).

(** Lines of the standard output.  Two messages print a file size as a
    floating-point number of KB or MB; they carry the size in bytes. *)
Inductive line :=
| Text (s : str)
| PhotoEncodedKB (size : nat)
| OutputSizeMB (size : nat).

(** The file system (relative to the directory of the script) and the
    standard output. *)
Record world := World {
  files : str -> option bytes;
  stdout : list line
}.

(** What a run does not change.  [hidden] gives the paths that exist but
    do not open for reading (a directory, a file without read permission),
    with the size [stat] reports for them; [read_only] the paths that do
    not open for writing (a directory, a file without write permission, a
    file in a directory that takes no new entry); [room] the number of
    bytes the device still takes, if it is bounded; [linesep] is
    [os.linesep]. *)
Record platform := Platform {
  hidden : str -> option nat;
  read_only : str -> bool;
  room : option nat;
  linesep : str
}.

(** A system with the line feed as line separator on which every file
    opens and the device has room. *)
Definition posix : platform :=
  Platform (fun _ => None) (fun _ => false) None [nl].

Definition str_eqb (a b : str) : bool :=
  if list_eq_dec ascii_dec a b then true else false.

Definition print (l : line) (w : world) : world :=
  World (files w) (stdout w ++ [l]).

Definition write_file (path : str) (data : bytes) (w : world) : world :=
  World (fun p => if str_eqb p path then Some data else files w p) (stdout w).

(** [os.path.exists(path)] *)
Definition path_exists (os : platform) (w : world) (path : str) : bool :=
  match files w path, hidden os path with
  | None, None => false
  | _, _ => true
  end.

(** The content [open(path, 'rb').read()] returns, if the file reads. *)
Definition reads (os : platform) (w : world) (path : str) : option bytes :=
  match hidden os path with
  | Some _ => None
  | None => files w path
  end.

(** A computation that may raise, over the world. *)
Definition M (A : Type) : Type := world -> (exn + A) * world.

Definition ret {A} (x : A) : M A := fun w => (inr x, w).
Definition raise {A} (e : exn) : M A := fun w => (inl e, w).
Definition bind {A B} (m : M A) (f : A -> M B) : M B :=
  fun w =>
    match m w with
    | (inl e, w') => (inl e, w')
    | (inr x, w') => f x w'
    end.
Definition say (l : line) : M unit := fun w => (inr tt, print l w).

Notation "x <- m ;; k" := (bind m (fun x => k))
  (at level 61, m at next level, right associativity).
Notation "m ;;; k" := (bind m (fun _ => k))
  (at level 61, right associativity).

(** [open(path, 'rb').read()] *)
Definition read_bytes (os : platform) (path : str) : M bytes :=
  fun w =>
    match hidden os path with
    | Some _ => (inl (OSError path), w)
    | None =>
        match files w path with
        | Some data => (inr data, w)
        | None => (inl (FileNotFoundError path), w)
        end
    end.

(** *** Text files *)

(** Well-formed UTF-8 (Unicode, table 3-7), on the values of the bytes. *)
Definition between (lo hi n : N) : bool := (N.leb lo n) && (N.leb n hi).

Fixpoint utf8_valid_N (l : list N) : bool :=
  match l with
  | [] => true
  | b0 :: l1 =>
      if N.leb b0 127 then utf8_valid_N l1
      else
        match l1 with
        | [] => false
        | b1 :: l2 =>
            if between 194 223 b0 then between 128 191 b1 && utf8_valid_N l2
            else
              match l2 with
              | [] => false
              | b2 :: l3 =>
                  if between 224 239 b0 then
                    (if N.eqb b0 224 then between 160 191 b1
                     else if N.eqb b0 237 then between 128 159 b1
                     else between 128 191 b1)
                    && between 128 191 b2 && utf8_valid_N l3
                  else
                    match l3 with
                    | [] => false
                    | b3 :: l4 =>
                        between 240 244 b0
                        && (if N.eqb b0 240 then between 144 191 b1
                            else if N.eqb b0 244 then between 128 143 b1
                            else between 128 191 b1)
                        && between 128 191 b2 && between 128 191 b3
                        && utf8_valid_N l4
                    end
              end
        end
  end.

Definition utf8_valid (data : bytes) : bool :=
  utf8_valid_N (map Byte.to_N data).

(** Universal newlines, as applied by [open(path, 'r')] when reading: a
    carriage return, alone or followed by a line feed, is read as one line
    feed. *)
Fixpoint universal_newlines (s : str) : str :=
  match s with
  | [] => []
  | c :: s' =>
      if Ascii.eqb c "013" then
        match s' with
        | d :: s'' =>
            if Ascii.eqb d nl then nl :: universal_newlines s''
            else nl :: universal_newlines s'
        | [] => [nl]
        end
      else c :: universal_newlines s'
  end.

(** [open(path, 'r', encoding='utf-8').read()] *)
Definition read_text (os : platform) (path : str) : M str :=
  data <- read_bytes os path ;;
  if utf8_valid data
  then ret (universal_newlines (map ascii_of_byte data))
  else raise (UnicodeDecodeError path).

(** The bytes a text is written as: every line feed becomes the line
    separator of the system (the file is opened without [newline=]), and
    the text is encoded. *)
Definition encode_text (os : platform) (text : str) : bytes :=
  map byte_of_ascii (str_replace [nl] (linesep os) text).

(** Whether the device takes [n] more bytes. *)
Definition fits (os : platform) (n : nat) : bool :=
  match room os with
  | Some k => n <=? k
  | None => true
  end.

(** The part of [data] the device takes. *)
Definition written (os : platform) (data : bytes) : bytes :=
  match room os with
  | Some k => firstn k data
  | None => data
  end.

(** [with open(path, 'w', encoding='utf-8') as f: f.write(text)].  On a
    path that does not open for writing, [open] raises and the file is as
    before.  Otherwise [open] empties the file, and the bytes are written
    as far as the device has room: when it has not, the call raises and
    the file is left with the part that was written. *)
Definition write_text (os : platform) (path : str) (text : str) : M unit :=
  fun w =>
    if read_only os path then (inl (OSError path), w)
    else
      let data := encode_text os text in
      (if fits os (length data) then inr tt else inl (OSError path),
       write_file path (written os data) w).

(** [os.path.getsize(path)]: the size is read from the entry of the file,
    whether or not the file opens. *)
Definition getsize (os : platform) (path : str) : M nat :=
  fun w =>
    match files w path, hidden os path with
    | Some data, _ => (inr (length data), w)
    | None, Some size => (inr size, w)
    | None, None => (inl (FileNotFoundError path), w)
    end.

(** ** [encode_file_b64] *)

Definition encode_file_b64 (os : platform) (path : str) : M str :=
  data <- read_bytes os path ;; ret (Base64.b64encode data).

(** [sys.exit(code)] *)
Inductive stop :=
| Raised (e : exn)
| SystemExit (code : nat).

(** ** Template assembly (the third step of [main]) *)

(** A Python dictionary with string keys, as an association list. *)
Definition dict := list (str * str).

Fixpoint dict_get (d : dict) (k : str) : option str :=
  match d with
  | [] => None
  | (k', v) :: d' => if str_eqb k' k then Some v else dict_get d' k
  end.

Fixpoint dict_set (d : dict) (k v : str) : dict :=
  match d with
  | [] => [(k, v)]
  | (k', v') :: d' =>
      if str_eqb k' k then (k, v) :: d' else (k', v') :: dict_set d' k v
  end.

(** [s] between double quotes. *)
Definition quoted (s : str) : str := dq :: s ++ [dq].

(** The [<img>] tag of page [i] (counted from 0) of a PDF. *)
Definition img_tag (i : nat) (img_b64 : str) : str :=
  lit "<img src=" ++ quoted (lit "data:image/png;base64," ++ img_b64) ++
  lit " alt=" ++ quoted (lit "Pagina " ++ str_of_nat (i + 1)) ++
  lit " style=" ++
  quoted (lit "width:100%;display:block;margin:0;padding:0;") ++ lit ">".

(** The loop over [enumerate(images_b64)], from index [i]. *)
Fixpoint img_tags (i : nat) (images_b64 : list str) : list str :=
  match images_b64 with
  | [] => []
  | img_b64 :: rest => img_tag i img_b64 :: img_tags (S i) rest
  end.

(** The HTML fragment of one PDF: ['\n'.join(img_tags)]. *)
Definition pdf_section (images_b64 : list str) : str :=
  join [nl] (img_tags 0 images_b64).

(** The text replaced by the photo, and what replaces it. *)
Definition photo_src (photo_file : str) : str := lit "src=" ++ quoted photo_file.

Definition photo_data_uri (photo_b64 : str) : str :=
  lit "src=" ++ quoted (lit "data:image/jpeg;base64," ++ photo_b64).

(** The pattern of the [<object>] placeholder of a PDF. *)
Definition object_pattern (pdf_name : str) : str :=
  lit "<object[^>]*data=" ++ [dq] ++ Re.re_escape pdf_name ++ [dq] ++
  lit "[^>]*>.*?</object>".

(** One iteration of the loop over [pdf_files]. *)
Definition substitute_object (pdf_sections : dict) (pdf_name html : str)
  : exn + str :=
  match dict_get pdf_sections pdf_name with
  | None => inl (KeyError pdf_name)
  | Some section =>
      match Re.re_sub (object_pattern pdf_name) section html with
      | None => inl (ReError (object_pattern pdf_name))
      | Some html' => inr html'
      end
  end.

Fixpoint substitute_objects (pdf_sections : dict) (pdf_files : list str)
  (html : str) : exn + str :=
  match pdf_files with
  | [] => inr html
  | pdf_name :: rest =>
      match substitute_object pdf_sections pdf_name html with
      | inl e => inl e
      | inr html' => substitute_objects pdf_sections rest html'
      end
  end.

Definition replace_photo (photo_file photo_b64 html : str) : str :=
  str_replace (photo_src photo_file) (photo_data_uri photo_b64) html.

Definition assemble (photo_file : str) (pdf_files : list str)
  (photo_b64 : str) (pdf_sections : dict) (html : str) : exn + str :=
  substitute_objects pdf_sections pdf_files
    (replace_photo photo_file photo_b64 html).

(** ** The PDF rasteriser and [main] *)

(** The file names [main] works on. *)
Record config := Config {
  photo_file : str;
  html_template : str;
  pdf_files : list str;
  rotate_map : list (str * bool);
  output_file : str
}.

Fixpoint rotate_get (m : list (str * bool)) (k : str) (default : bool) : bool :=
  match m with
  | [] => default
  | (k', v) :: m' => if str_eqb k' k then v else rotate_get m' k default
  end.

(** The constants of the script. *)
Definition script_config : config :=
  Config (lit "26.jpg.jpeg") (lit "credenciales.html")
    [lit "T1.pdf"; lit "tp1.pdf"; lit "T2.pdf"; lit "tp2.pdf"]
    [(lit "T2.pdf", true)]
    (lit "index.html").

(** The files [main] requires, and those of them a world lacks. *)
Definition required (cfg : config) : list str :=
  [photo_file cfg; html_template cfg] ++ pdf_files cfg.

Definition missing (os : platform) (cfg : config) (w : world) : list str :=
  filter (fun f => negb (path_exists os w f)) (required cfg).

Section Fitz.

Variable os : platform.

(** PyMuPDF: what a page holds besides its rotation, the parser behind
    [fitz.open] and the renderer behind
    [page.get_pixmap(matrix=fitz.Matrix(dpi / 72, dpi / 72)).tobytes("png")]. *)
Variable page_content : Type.

Record page := Page {
  rotation : Z;
  content : page_content
}.

Definition document := list page.

Variable parse_pdf : bytes -> option document.
Variable get_pixmap_png : Z -> page -> bytes.

(** [page.set_rotation(r)] *)
Definition set_rotation (p : page) (r : Z) : page := Page r (content p).

(** The rotation step of the loop: [page.set_rotation((page.rotation + 90) % 360)]. *)
Definition rotate_cw_page (p : page) : page :=
  set_rotation p ((rotation p + 90) mod 360).

(** The image the loop produces for a page. *)
Definition page_image (dpi : Z) (rotate_cw : bool) (p : page) : str :=
  Base64.b64encode
    (get_pixmap_png dpi (if rotate_cw then rotate_cw_page p else p)).

(** The document after page [i] has been changed to [p]. *)
Fixpoint set_page (doc : document) (i : nat) (p : page) : document :=
  match doc, i with
  | [], _ => []
  | _ :: rest, O => p :: rest
  | q :: rest, S j => q :: set_page rest j p
  end.

(** [fitz.open(path)]: a path that is there but does not read (a
    directory, say) is no document. *)
Definition fitz_open (path : str) : M document :=
  fun w =>
    match hidden os path with
    | Some _ => (inl (FileDataError path), w)
    | None =>
        match files w path with
        | None => (inl (FileNotFoundError path), w)
        | Some data =>
            match parse_pdf data with
            | Some doc => (inr doc, w)
            | None => (inl (FileDataError path), w)
            end
        end
    end.

(** The body of [for i in range(total)], over the indices still to do. *)
Fixpoint page_loop (dpi : Z) (rotate_cw : bool) (total : nat)
  (indices : list nat) (doc : document) (images : list str)
  : M (document * list str) :=
  match indices with
  | [] => ret (doc, images)
  | i :: rest =>
      match nth_error doc i with
      | None => raise IndexError
      | Some page0 =>
          let page := if rotate_cw then rotate_cw_page page0 else page0 in
          let doc' := if rotate_cw then set_page doc i page else doc in
          let b64 := Base64.b64encode (get_pixmap_png dpi page) in
          say (Text (lit "    Pagina " ++ str_of_nat (i + 1) ++ lit "/" ++
                     str_of_nat total ++ lit " convertida")) ;;;
          page_loop dpi rotate_cw total rest doc' (images ++ [b64])
      end
  end.

Definition pdf_to_images_b64 (path : str) (dpi : Z) (rotate_cw : bool)
  : M (list str) :=
  doc <- fitz_open path ;;
  let total := length doc in
  r <- page_loop dpi rotate_cw total (seq 0 total) doc [] ;;
  ret (snd r).

(** The loop of [main] over [pdf_files] that fills [pdf_sections]. *)
Fixpoint convert_pdfs (cfg : config) (names : list str) (pdf_sections : dict)
  : M dict :=
  match names with
  | [] => ret pdf_sections
  | pdf_name :: rest =>
      say (Text (lit "  Procesando " ++ pdf_name ++ lit "...")) ;;;
      let rotate := rotate_get (rotate_map cfg) pdf_name false in
      images_b64 <- pdf_to_images_b64 pdf_name 200 rotate ;;
      convert_pdfs cfg rest
        (dict_set pdf_sections pdf_name (pdf_section images_b64))
  end.

Fixpoint print_missing (missing : list str) : M unit :=
  match missing with
  | [] => ret tt
  | f :: rest => say (Text (lit "    - " ++ f)) ;;; print_missing rest
  end.

Definition lift {A} (r : exn + A) : M A :=
  match r with
  | inl e => raise e
  | inr x => ret x
  end.

(** A run of [main] either finishes, or stops by [sys.exit] or by an
    uncaught exception. *)
Definition main_with (cfg : config) (w : world) : (stop + unit) * world :=
  match missing os cfg w with
  | _ :: _ =>
      let r :=
        (say (Text (lit "ERROR: No se encontraron los siguientes archivos:")) ;;;
         print_missing (missing os cfg w)) w in
      (inl (SystemExit 1), snd r)
  | [] =>
      let body : M unit :=
        say (Text (lit "[1/3] Procesando foto de perfil...")) ;;;
        photo_b64 <- encode_file_b64 os (photo_file cfg) ;;
        size <- getsize os (photo_file cfg) ;;
        say (PhotoEncodedKB size) ;;;
        say (Text (lit "[2/3] Convirtiendo PDFs a imagenes...")) ;;;
        pdf_sections <- convert_pdfs cfg (pdf_files cfg) [] ;;
        say (Text (lit "[3/3] Generando HTML autocontenido...")) ;;;
        html <- read_text os (html_template cfg) ;;
        html' <- lift (assemble (photo_file cfg) (pdf_files cfg) photo_b64
                         pdf_sections html) ;;
        write_text os (output_file cfg) html' ;;;
        size' <- getsize os (output_file cfg) ;;
        say (Text []) ;;;
        say (Text (repeat "="%char 50)) ;;;
        say (Text (lit "  Archivo generado: " ++ output_file cfg)) ;;;
        say (OutputSizeMB size') ;;;
        say (Text (repeat "="%char 50)) ;;;
        say (Text []) ;;;
        say (Text (lit "Puedes abrir el archivo en cualquier navegador.")) ;;;
        say (Text (lit "Es completamente autocontenido (un solo archivo HTML)."))
      in
      match body w with
      | (inl e, w') => (inl (Raised e), w')
      | (inr tt, w') => (inr tt, w')
      end
  end.

Definition main : world -> (stop + unit) * world := main_with script_config.

(** The module as a script: the guarded [import fitz], then [main()]. *)
Definition run_script (fitz_installed : bool) (w : world)
  : (stop + unit) * world :=
  if fitz_installed then main w
  else
    let r :=
      (say (Text (repeat "="%char 60)) ;;;
       say (Text (lit "ERROR: PyMuPDF no esta instalado.")) ;;;
       say (Text (lit "Instalalo con:")) ;;;
       say (Text (lit "    pip install PyMuPDF")) ;;;
       say (Text (repeat "="%char 60))) w in
    (inl (SystemExit 1), snd r).

(** The exit status of the process. *)
Definition exit_status (r : stop + unit) : nat :=
  match r with
  | inr _ => 0
  | inl (SystemExit code) => code
  | inl (Raised _) => 1
  end.

End Fitz.

(** ** The placeholder pattern, compiled and read directly *)

Definition lits (l : str) : Re.regex := map (fun c => Re.One (Re.CChar c)) l.

Definition not_gt : Re.cset := Re.CNotIn [">"%char].

(** The attribute the pattern looks for: [data="<pdf_name>"]. *)
Definition data_attr (pdf_name : str) : str := lit "data=" ++ quoted pdf_name.

Definition open_tag : str := lit "<object".
Definition close_tag : str := lit "</object>".

(** The pattern of [object_pattern], as the parser reads it. *)
Definition object_regex (pdf_name : str) : Re.regex :=
  lits open_tag ++ Re.Star not_gt :: lits (data_attr pdf_name) ++
  Re.Star not_gt :: Re.One (Re.CChar ">") :: Re.LazyStar Re.CAny ::
  lits close_tag.

(** The text after the first [>]. *)
Fixpoint after_gt (s : str) : option str :=
  match s with
  | [] => None
  | c :: s' => if Ascii.eqb c ">" then Some s' else after_gt s'
  end.

(** [d] starts at a position that no [>] precedes. *)
Fixpoint attr_before_gt (d s : str) : bool :=
  match s with
  | [] => starts_with d []
  | c :: s' =>
      if Ascii.eqb c ">" then starts_with d s
      else starts_with d s || attr_before_gt d s'
  end.

(** The text after the first occurrence of [p]. *)
Fixpoint after_first (p s : str) : option str :=
  match s with
  | [] => if starts_with p [] then Some [] else None
  | _ :: s' =>
      if starts_with p s then Some (skipn (length p) s) else after_first p s'
  end.

(** A placeholder of [pdf_name] at the start of [s]: [<object], then a
    [data] attribute before the first [>], then the text up to the first
    [</object>].  The result is the text after the placeholder. *)
Definition object_match (pdf_name : str) (s : str) : option str :=
  if starts_with open_tag s then
    let s1 := skipn (length open_tag) s in
    if attr_before_gt (data_attr pdf_name) s1 then
      match after_gt s1 with
      | Some t => after_first close_tag t
      | None => None
      end
    else None
  else None.

(** The tokens of [object_pattern]. *)
Definition atom (c : ascii) : Re.token := Re.TAtom (Re.CChar c).

Definition object_tokens (name : str) : list Re.token :=
  map atom open_tag ++
  Re.TAtom not_gt :: Re.TStar ::
  map atom (lit "data=" ++ dq :: name) ++
  Re.TAtom (Re.CChar dq) :: Re.TAtom not_gt :: Re.TStar :: atom ">" ::
  Re.TAtom Re.CAny :: Re.TStar :: Re.TQuestion :: map atom close_tag.

(** No [>] in [s]. *)
Definition no_gt (s : str) : bool := negb (existsb (Ascii.eqb ">") s).

(** ** Vocabulary of the properties *)

Import Re.

(** [re.search(r, s) is not None] *)
Fixpoint search (r : regex) (s : str) : bool :=
  match match_here r s with
  | Some _ => true
  | None =>
      match s with
      | [] => false
      | _ :: s' => search r s'
      end
  end.



Definition is_placeholder (pdf_name : str) (m : str) : Prop :=
  exists h b,
    m = open_tag ++ h ++ ">"%char :: b ++ close_tag /\
    no_gt h = true /\
    contains (data_attr pdf_name) h = true /\
    contains close_tag b = false.

(** The characters of base64 text, and those of the fragment of a PDF. *)
Definition is_b64 (c : ascii) : bool :=
  existsb (Ascii.eqb c) (Base64.alphabet ++ [Base64.pad]).

Definition fragment_char (c : ascii) : bool :=
  is_b64 c || is_digit c ||
  existsb (Ascii.eqb c)
    (lit "<img src=data:image/png;base64, alt=Pagina style=" ++
     lit "width:100%;display:block;margin:0;padding:0;>" ++ [dq; nl]).

(** The fragment [main] builds for a PDF whose pages render to the PNG
    files [pages pdf_name], and the dictionary [pdf_sections] it fills. *)
Definition fragment_for (pages : str -> list bytes) (pdf_name : str) : str :=
  pdf_section (map Base64.b64encode (pages pdf_name)).

Definition sections_for (pages : str -> list bytes) (names : list str) : dict :=
  fold_left (fun d n => dict_set d n (fragment_for pages n)) names [].


(** A property of the numbers below a bound, checked by enumeration. *)
Definition all_below (n : nat) (P : N -> bool) : bool :=
  forallb P (map N.of_nat (seq 0 n)).

(** The attribute that replaces the photo reference, around a payload. *)
Definition data_src (payload : str) : str := lit "src=" ++ quoted payload.

(** No double quote in [s]. *)
Definition no_dq (s : str) : bool := negb (existsb (Ascii.eqb dq) s).

(** [gaps] interleaved with the matched texts [ms]: the text a scan has
    cut into kept parts and matches. *)
Fixpoint weave (gaps ms : list str) : str :=
  match gaps, ms with
  | g :: gaps', m :: ms' => g ++ m ++ weave gaps' ms'
  | g :: _, [] => g
  | [], _ => []
  end.

(** A file name without [>], [<], double quote or space. *)
Definition plain_name (n : str) : bool :=
  forallb (fun c => negb (existsb (Ascii.eqb c) [">"; "<"; dq; " "]%char)) n.

(** Every [<] of [s] is followed by an [i]. *)
Fixpoint lt_then_i (s : str) : bool :=
  match s with
  | [] => true
  | c :: s' =>
      (if Ascii.eqb c "<"
       then match s' with
            | d :: _ => Ascii.eqb d "i"
            | [] => false
            end
       else true) && lt_then_i s'
  end.

(** No [<] in [s]. *)
Definition no_lt (s : str) : bool := negb (existsb (Ascii.eqb "<") s).

(** An [<img>] tag without its closing [>]. *)
Definition tag_head (i : nat) (img_b64 : str) : str :=
  lit "<img src=" ++ quoted (lit "data:image/png;base64," ++ img_b64) ++
  lit " alt=" ++ quoted (lit "Pagina " ++ str_of_nat (i + 1)) ++
  lit " style=" ++
  quoted (lit "width:100%;display:block;margin:0;padding:0;").











(** The PNG files of the pages of a PDF, as [main] renders them: at 200
    DPI, rotated when [rotate_map] says so. *)
Definition rendered_pages {page_content : Type} (os : platform)
  (parse_pdf : bytes -> option (document page_content))
  (get_pixmap_png : Z -> page page_content -> bytes)
  (cfg : config) (w : world) (pdf_name : str) : list bytes :=
  match reads os w pdf_name with
  | Some data =>
      match parse_pdf data with
      | Some doc =>
          map (fun p =>
                 get_pixmap_png 200%Z
                   (if rotate_get (rotate_map cfg) pdf_name false
                    then rotate_cw_page p else p))
              doc
      | None => []
      end
  | None => []
  end.

(** ** Vocabulary of a run of the script *)

(** The progress line of page [i] (counted from 0) of a PDF of [total]
    pages, and the lines of a whole PDF. *)
Definition page_line (total i : nat) : line :=
  Text (lit "    Pagina " ++ str_of_nat (i + 1) ++ lit "/" ++
        str_of_nat total ++ lit " convertida").

Definition page_lines (total : nat) : list line :=
  map (page_line total) (seq 0 total).

(** What [fitz.open] raises on a file of a world, if anything, and the
    first PDF of a list, in order, on which it raises. *)
Definition open_error {page_content : Type} (os : platform)
  (parse_pdf : bytes -> option (document page_content))
  (w : world) (path : str) : option exn :=
  match hidden os path with
  | Some _ => Some (FileDataError path)
  | None =>
      match files w path with
      | None => Some (FileNotFoundError path)
      | Some data =>
          match parse_pdf data with
          | Some _ => None
          | None => Some (FileDataError path)
          end
      end
  end.

Fixpoint first_error {page_content : Type} (os : platform)
  (parse_pdf : bytes -> option (document page_content))
  (w : world) (names : list str) : option exn :=
  match names with
  | [] => None
  | n :: rest =>
      match open_error os parse_pdf w n with
      | Some e => Some e
      | None => first_error os parse_pdf w rest
      end
  end.

(** The number of pages of a PDF of a world, and the lines [main] prints
    while it converts that PDF. *)
Definition page_count {page_content : Type} (os : platform)
  (parse_pdf : bytes -> option (document page_content))
  (w : world) (path : str) : nat :=
  match reads os w path with
  | Some data =>
      match parse_pdf data with
      | Some doc => length doc
      | None => 0
      end
  | None => 0
  end.

Definition pdf_lines {page_content : Type} (os : platform)
  (parse_pdf : bytes -> option (document page_content))
  (w : world) (pdf_name : str) : list line :=
  Text (lit "  Procesando " ++ pdf_name ++ lit "...") ::
  page_lines (page_count os parse_pdf w pdf_name).

(** The lines [main] prints before it reads the template, for a photo of
    [photo_size] bytes, and the lines of a complete run, for an output of
    [out_size] bytes. *)
Definition progress_lines {page_content : Type} (os : platform)
  (parse_pdf : bytes -> option (document page_content))
  (cfg : config) (w : world) (photo_size : nat) : list line :=
  [Text (lit "[1/3] Procesando foto de perfil...");
   PhotoEncodedKB photo_size;
   Text (lit "[2/3] Convirtiendo PDFs a imagenes...")] ++
  flat_map (pdf_lines os parse_pdf w) (pdf_files cfg) ++
  [Text (lit "[3/3] Generando HTML autocontenido...")].

Definition success_lines {page_content : Type} (os : platform)
  (parse_pdf : bytes -> option (document page_content))
  (cfg : config) (w : world) (photo_size out_size : nat) : list line :=
  [Text (lit "[1/3] Procesando foto de perfil...");
   PhotoEncodedKB photo_size;
   Text (lit "[2/3] Convirtiendo PDFs a imagenes...")] ++
  flat_map (pdf_lines os parse_pdf w) (pdf_files cfg) ++
  [Text (lit "[3/3] Generando HTML autocontenido...");
   Text [];
   Text (repeat "="%char 50);
   Text (lit "  Archivo generado: " ++ output_file cfg);
   OutputSizeMB out_size;
   Text (repeat "="%char 50);
   Text [];
   Text (lit "Puedes abrir el archivo en cualquier navegador.");
   Text (lit "Es completamente autocontenido (un solo archivo HTML).")].

(** What a run of [main] does before it writes: it stops, or it gets to
    the write with the size of the photo and the assembled text. *)
Definition prepare {page_content : Type} (os : platform)
  (parse_pdf : bytes -> option (document page_content))
  (get_pixmap_png : Z -> page page_content -> bytes)
  (cfg : config) (w : world) : stop + nat * str :=
  match missing os cfg w with
  | _ :: _ => inl (SystemExit 1)
  | [] =>
      match reads os w (photo_file cfg) with
      | None => inl (Raised (OSError (photo_file cfg)))
      | Some photo =>
          match first_error os parse_pdf w (pdf_files cfg) with
          | Some e => inl (Raised e)
          | None =>
              match reads os w (html_template cfg) with
              | None => inl (Raised (OSError (html_template cfg)))
              | Some tdata =>
                  if utf8_valid tdata then
                    match
                      assemble (photo_file cfg) (pdf_files cfg)
                        (Base64.b64encode photo)
                        (sections_for
                           (rendered_pages os parse_pdf get_pixmap_png cfg w)
                           (pdf_files cfg))
                        (universal_newlines (map ascii_of_byte tdata))
                    with
                    | inl e => inl (Raised e)
                    | inr out => inr (length photo, out)
                    end
                  else inl (Raised (UnicodeDecodeError (html_template cfg)))
              end
          end
      end
  end.

(** * Properties *)

Unset Implicit Arguments.

(** ** base64 *)

Module Base64Facts.
Import Base64.

Lemma all_below_spec n P :
  all_below n P = true -> forall x, (x < N.of_nat n)%N -> P x = true.
Proof.
  unfold all_below. intros H x Hx.
  rewrite forallb_forall in H. apply H.
  apply in_map_iff. exists (N.to_nat x). split.
  - apply N2Nat.id.
  - apply in_seq. lia.
Qed.

Lemma sextet_of_char_of_sextet i :
  (i < 64)%N ->
  sextet_of_char (char_of_sextet i) = Some i /\ char_of_sextet i <> pad.
Proof.
  intros Hi.
  assert (H : all_below 64 (fun i =>
            match sextet_of_char (char_of_sextet i) with
            | Some j => N.eqb i j
            | None => false
            end && negb (Ascii.eqb (char_of_sextet i) pad)) = true)
    by (vm_compute; reflexivity).
  pose proof (all_below_spec _ _ H i Hi) as Hc. cbv beta in Hc.
  apply andb_true_iff in Hc. destruct Hc as [H1 H2].
  split.
  - destruct (sextet_of_char (char_of_sextet i)) as [j|]; [|discriminate].
    apply N.eqb_eq in H1. congruence.
  - intros E. rewrite E, Ascii.eqb_refl in H2. discriminate.
Qed.

Lemma sextets_below a b :
  (a < 256)%N -> (b < 256)%N ->
  (sextet1 a < 64 /\ sextet2 a b < 64 /\ sextet3 a b < 64 /\ sextet4 a < 64)%N.
Proof.
  intros Ha Hb.
  assert (H : all_below 256 (fun a => all_below 256 (fun b =>
            N.ltb (sextet1 a) 64 && N.ltb (sextet2 a b) 64 &&
            N.ltb (sextet3 a b) 64 && N.ltb (sextet4 a) 64)) = true)
    by (vm_compute; reflexivity).
  pose proof (all_below_spec _ _ (all_below_spec _ _ H a Ha) b Hb) as Hc.
  cbv beta in Hc.
  repeat (apply andb_true_iff in Hc; destruct Hc as [Hc ?]).
  repeat split; apply N.ltb_lt; assumption.
Qed.

Lemma octet1_sextets a b :
  (a < 256)%N -> (b < 256)%N -> octet1 (sextet1 a) (sextet2 a b) = a.
Proof.
  intros Ha Hb.
  assert (H : all_below 256 (fun a => all_below 256 (fun b =>
            N.eqb (octet1 (sextet1 a) (sextet2 a b)) a)) = true)
    by (vm_compute; reflexivity).
  apply N.eqb_eq.
  exact (all_below_spec _ _ (all_below_spec _ _ H a Ha) b Hb).
Qed.

(** The second octet takes the low four bits of the second sextet and the
    high four of the third; neither depends on the neighbouring bytes. *)
Lemma sextet2_low a b :
  (a < 256)%N -> (b < 256)%N -> N.land (sextet2 a b) 15 = N.shiftr b 4.
Proof.
  intros Ha Hb.
  assert (H : all_below 256 (fun a => all_below 256 (fun b =>
            N.eqb (N.land (sextet2 a b) 15) (N.shiftr b 4))) = true)
    by (vm_compute; reflexivity).
  apply N.eqb_eq.
  exact (all_below_spec _ _ (all_below_spec _ _ H a Ha) b Hb).
Qed.

Lemma sextet3_high b c :
  (b < 256)%N -> (c < 256)%N ->
  N.shiftr (sextet3 b c) 2 = N.land b 15 /\
  N.land (sextet3 b c) 3 = N.shiftr c 6.
Proof.
  intros Hb Hc.
  assert (H : all_below 256 (fun b => all_below 256 (fun c =>
            N.eqb (N.shiftr (sextet3 b c) 2) (N.land b 15) &&
            N.eqb (N.land (sextet3 b c) 3) (N.shiftr c 6))) = true)
    by (vm_compute; reflexivity).
  pose proof (all_below_spec _ _ (all_below_spec _ _ H b Hb) c Hc) as E.
  cbv beta in E. apply andb_true_iff in E. destruct E as [E1 E2].
  split; apply N.eqb_eq; assumption.
Qed.

Lemma octet_halves b :
  (b < 256)%N ->
  N.lor (N.shiftl (N.shiftr b 4) 4) (N.land b 15) = b /\
  N.lor (N.shiftl (N.shiftr b 6) 6) (N.land b 63) = b.
Proof.
  intros Hb.
  assert (H : all_below 256 (fun b =>
            N.eqb (N.lor (N.shiftl (N.shiftr b 4) 4) (N.land b 15)) b &&
            N.eqb (N.lor (N.shiftl (N.shiftr b 6) 6) (N.land b 63)) b) = true)
    by (vm_compute; reflexivity).
  pose proof (all_below_spec _ _ H b Hb) as E.
  cbv beta in E. apply andb_true_iff in E. destruct E as [E1 E2].
  split; apply N.eqb_eq; assumption.
Qed.

Lemma octet2_sextets a b c :
  (a < 256)%N -> (b < 256)%N -> (c < 256)%N ->
  octet2 (sextet2 a b) (sextet3 b c) = b.
Proof.
  intros Ha Hb Hc. unfold octet2.
  rewrite (sextet2_low a b Ha Hb).
  rewrite (proj1 (sextet3_high b c Hb Hc)).
  apply (octet_halves b Hb).
Qed.

Lemma octet3_sextets b c :
  (b < 256)%N -> (c < 256)%N -> octet3 (sextet3 b c) (sextet4 c) = c.
Proof.
  intros Hb Hc. unfold octet3, sextet4.
  rewrite (proj2 (sextet3_high b c Hb Hc)).
  apply (octet_halves c Hc).
Qed.

Lemma b64decode_unfold c1 c2 c3 c4 rest :
  b64decode (c1 :: c2 :: c3 :: c4 :: rest) =
  obind (sextet_of_char c1) (fun s1 =>
  obind (sextet_of_char c2) (fun s2 =>
  obind (Byte.of_N (octet1 s1 s2)) (fun o1 =>
  if Ascii.eqb c3 pad then
    if Ascii.eqb c4 pad
    then match rest with [] => Some [o1] | _ :: _ => None end
    else None
  else
    obind (sextet_of_char c3) (fun s3 =>
    obind (Byte.of_N (octet2 s2 s3)) (fun o2 =>
    if Ascii.eqb c4 pad
    then match rest with [] => Some [o1; o2] | _ :: _ => None end
    else
      obind (sextet_of_char c4) (fun s4 =>
      obind (Byte.of_N (octet3 s3 s4)) (fun o3 =>
      obind (b64decode rest) (fun tl => Some (o1 :: o2 :: o3 :: tl))))))))).
Proof. reflexivity. Qed.

Lemma to_N_below (x : byte) : (Byte.to_N x < 256)%N.
Proof. pose proof (Byte.to_N_bounded x). lia. Qed.

Lemma char_not_pad i : (i < 64)%N -> Ascii.eqb (char_of_sextet i) pad = false.
Proof.
  intros Hi. apply Ascii.eqb_neq. apply (sextet_of_char_of_sextet i Hi).
Qed.

(** Induction on a list of bytes, three at a time. *)
Lemma list_ind3 {A} (P : list A -> Prop) :
  P [] -> (forall a, P [a]) -> (forall a b, P [a; b]) ->
  (forall a b c rest, P rest -> P (a :: b :: c :: rest)) ->
  forall l, P l.
Proof.
  intros H0 H1 H2 H3.
  fix IH 1.
  intros [|a [|b [|c rest]]];
    [apply H0 | apply H1 | apply H2 | apply H3; apply IH].
Qed.

Lemma b64decode_b64encode (data : bytes) :
  b64decode (b64encode data) = Some data.
Proof.
  unfold b64encode. induction data as [|a|a b|a b c rest IH] using list_ind3.
  - reflexivity.
  - cbn [map encode_N]. rewrite b64decode_unfold.
    pose proof (sextets_below (to_N a) 0 (to_N_below a) eq_refl) as (S1 & S2 & _).
    rewrite (proj1 (sextet_of_char_of_sextet _ S1)).
    rewrite (proj1 (sextet_of_char_of_sextet _ S2)).
    cbn [obind].
    rewrite (octet1_sextets (to_N a) 0 (to_N_below a) eq_refl), Byte.of_to_N.
    reflexivity.
  - cbn [map encode_N]. rewrite b64decode_unfold.
    pose proof (sextets_below (to_N a) (to_N b) (to_N_below a) (to_N_below b))
      as (S1 & S2 & _).
    pose proof (sextets_below (to_N b) 0 (to_N_below b) eq_refl)
      as (_ & _ & S3 & _).
    rewrite (proj1 (sextet_of_char_of_sextet _ S1)).
    rewrite (proj1 (sextet_of_char_of_sextet _ S2)).
    rewrite (proj1 (sextet_of_char_of_sextet _ S3)).
    rewrite (char_not_pad _ S3).
    cbn [obind].
    rewrite (octet1_sextets _ _ (to_N_below a) (to_N_below b)), Byte.of_to_N.
    cbn [obind].
    rewrite (octet2_sextets (to_N a) (to_N b) 0 (to_N_below a) (to_N_below b) eq_refl),
      Byte.of_to_N.
    reflexivity.
  - cbn [map encode_N]. rewrite b64decode_unfold.
    pose proof (sextets_below (to_N a) (to_N b) (to_N_below a) (to_N_below b))
      as (S1 & S2 & _).
    pose proof (sextets_below (to_N b) (to_N c) (to_N_below b) (to_N_below c))
      as (_ & _ & S3 & _).
    pose proof (sextets_below (to_N c) 0 (to_N_below c) eq_refl)
      as (_ & _ & _ & S4).
    rewrite (proj1 (sextet_of_char_of_sextet _ S1)).
    rewrite (proj1 (sextet_of_char_of_sextet _ S2)).
    rewrite (proj1 (sextet_of_char_of_sextet _ S3)).
    rewrite (proj1 (sextet_of_char_of_sextet _ S4)).
    rewrite (char_not_pad _ S3), (char_not_pad _ S4).
    cbn [obind].
    rewrite (octet1_sextets _ _ (to_N_below a) (to_N_below b)), Byte.of_to_N.
    cbn [obind].
    rewrite (octet2_sextets _ _ _ (to_N_below a) (to_N_below b) (to_N_below c)),
      Byte.of_to_N.
    cbn [obind].
    rewrite (octet3_sextets _ _ (to_N_below b) (to_N_below c)), Byte.of_to_N.
    cbn [obind]. rewrite IH. reflexivity.
Qed.

End Base64Facts.

(** ** Strings *)

Module StrFacts.

Lemma starts_with_app p s : starts_with p (p ++ s) = true.
Proof.
  induction p as [|a p IH]; cbn; [reflexivity|].
  rewrite Ascii.eqb_refl. exact IH.
Qed.

Lemma starts_with_split p s :
  starts_with p s = true -> s = p ++ skipn (length p) s.
Proof.
  revert s. induction p as [|a p IH]; intros [|b s] H; cbn in *;
    try reflexivity; try discriminate.
  apply andb_true_iff in H. destruct H as [Hab H].
  apply Ascii.eqb_eq in Hab. subst b. f_equal. apply IH. exact H.
Qed.

Lemma starts_with_iff p s :
  starts_with p s = true <-> exists t, s = p ++ t.
Proof.
  split.
  - intros H. eexists. apply starts_with_split. exact H.
  - intros [t ->]. apply starts_with_app.
Qed.

Lemma starts_with_nil_r p : starts_with p [] = true -> p = [].
Proof. destruct p; [reflexivity | discriminate]. Qed.

Lemma starts_with_length p s :
  starts_with p s = true -> length p <= length s.
Proof.
  intros H. rewrite (starts_with_split p s H), length_app. lia.
Qed.

Lemma contains_iff p s :
  contains p s = true <-> exists a b, s = a ++ p ++ b.
Proof.
  split.
  - induction s as [|c s IH]; cbn; intros H.
    + rewrite orb_false_r in H. apply starts_with_nil_r in H. subst p.
      exists [], []. reflexivity.
    + apply orb_true_iff in H. destruct H as [H|H].
      * apply starts_with_iff in H. destruct H as [t Ht].
        exists [], t. exact Ht.
      * destruct (IH H) as (a & b & ->). exists (c :: a), b. reflexivity.
  - intros (a & b & ->). induction a as [|c a IH].
    + cbn [app]. destruct (p ++ b) eqn:E; cbn [contains];
        rewrite <- E, starts_with_app; reflexivity.
    + cbn [app contains]. rewrite IH. apply orb_true_r.
Qed.

Lemma contains_app_r p a s : contains p s = true -> contains p (a ++ s) = true.
Proof.
  intros H. apply contains_iff in H. destruct H as (x & y & ->).
  apply contains_iff. exists (a ++ x), y. rewrite app_assoc. reflexivity.
Qed.

Lemma contains_app_l p s b : contains p s = true -> contains p (s ++ b) = true.
Proof.
  intros H. apply contains_iff in H. destruct H as (x & y & ->).
  apply contains_iff. exists x, (y ++ b). rewrite <- !app_assoc. reflexivity.
Qed.

(** *** [str.replace] *)

Lemma replace_from_skip old new k s :
  k <= length s ->
  replace_from old new k s = replace_from old new 0 (skipn k s).
Proof.
  revert s. induction k as [|k IH]; intros s Hk; [reflexivity|].
  destruct s as [|c s]; cbn in Hk; [lia|].
  cbn [replace_from skipn]. apply IH. lia.
Qed.

Lemma replace_from_hit old new t :
  old <> [] ->
  replace_from old new 0 (old ++ t) = new ++ replace_from old new 0 t.
Proof.
  intros Hold. destruct old as [|a old]; [congruence|].
  change ((a :: old) ++ t) with (a :: (old ++ t)).
  cbn [replace_from].
  change (a :: old ++ t) with ((a :: old) ++ t). rewrite starts_with_app.
  f_equal. rewrite replace_from_skip by (cbn [length]; rewrite length_app; lia).
  replace (length (a :: old) - 1) with (length old) by (cbn [length]; lia).
  rewrite skipn_app, skipn_all, Nat.sub_diag. reflexivity.
Qed.

Lemma replace_from_miss old new c s :
  starts_with old (c :: s) = false ->
  replace_from old new 0 (c :: s) = c :: replace_from old new 0 s.
Proof. intros H. cbn [replace_from]. rewrite H. reflexivity. Qed.

Lemma count_from_skip p k s :
  k <= length s -> count_from p k s = count_from p 0 (skipn k s).
Proof.
  revert s. induction k as [|k IH]; intros s Hk; [reflexivity|].
  destruct s as [|c s]; cbn in Hk; [lia|].
  cbn [count_from skipn]. apply IH. lia.
Qed.

Lemma count_from_hit p t :
  p <> [] -> count_from p 0 (p ++ t) = S (count_from p 0 t).
Proof.
  intros Hp. destruct p as [|a p]; [congruence|].
  change ((a :: p) ++ t) with (a :: (p ++ t)).
  cbn [count_from].
  change (a :: p ++ t) with ((a :: p) ++ t). rewrite starts_with_app.
  f_equal. rewrite count_from_skip by (cbn [length]; rewrite length_app; lia).
  replace (length (a :: p) - 1) with (length p) by (cbn [length]; lia).
  rewrite skipn_app, skipn_all, Nat.sub_diag. reflexivity.
Qed.

Lemma count_from_miss p c s :
  starts_with p (c :: s) = false ->
  count_from p 0 (c :: s) = count_from p 0 s.
Proof. intros H. cbn [count_from]. rewrite H. reflexivity. Qed.

(** Induction along a scan for [p]: either the text starts with an
    occurrence, which is stepped over, or one character is. *)
Lemma scan_ind (p : str) (P : str -> Prop) :
  p <> [] ->
  P [] ->
  (forall t, P t -> P (p ++ t)) ->
  (forall c s, starts_with p (c :: s) = false -> P s -> P (c :: s)) ->
  forall s, P s.
Proof.
  intros Hp Hnil Hhit Hmiss s.
  assert (H : forall n s, length s <= n -> P s).
  { clear s. induction n as [|n IH]; intros s Hn.
    - destruct s; [exact Hnil | cbn in Hn; lia].
    - destruct s as [|c s]; [exact Hnil|].
      destruct (starts_with p (c :: s)) eqn:E.
      + rewrite (starts_with_split _ _ E). apply Hhit. apply IH.
        rewrite length_skipn. destruct p; [congruence|].
        cbn [length] in *. lia.
      + apply Hmiss; [exact E|]. apply IH. cbn in Hn. lia. }
  apply (H (length s)). lia.
Qed.

End StrFacts.

(** ** The placeholder pattern *)

Module ReFacts.
Import Re StrFacts.

Lemma special_not_alnum c : is_special c = true -> is_alnum c = false.
Proof.
  destruct c as [[] [] [] [] [] [] [] []]; vm_compute; congruence.
Qed.

Lemma plain_char c :
  is_special c = false ->
  Ascii.eqb c "\" = false /\ Ascii.eqb c "[" = false /\
  Ascii.eqb c "." = false /\ Ascii.eqb c "*" = false /\
  Ascii.eqb c "?" = false /\ is_meta c = false.
Proof.
  destruct c as [[] [] [] [] [] [] [] []]; vm_compute; intuition congruence.
Qed.

Lemma tokenize_escape name tail :
  tokenize Normal (re_escape name ++ tail) =
  option_map (app (map atom name)) (tokenize Normal tail).
Proof.
  induction name as [|c name IH]; cbn [re_escape map app].
  - destruct (tokenize Normal tail); reflexivity.
  - destruct (is_special c) eqn:E.
    + cbn [app tokenize]. rewrite Ascii.eqb_refl.
      rewrite (special_not_alnum c E), IH.
      destruct (tokenize Normal tail); reflexivity.
    + destruct (plain_char c E) as (H1 & H2 & H3 & H4 & H5 & H6).
      cbn [app tokenize]. rewrite H1, H2, H3, H4, H5, H6, IH.
      destruct (tokenize Normal tail); reflexivity.
Qed.

Lemma postfix_atoms l x rest :
  postfix (map atom l ++ TAtom x :: rest) =
  option_map (app (lits l)) (postfix (TAtom x :: rest)).
Proof.
  induction l as [|c l IH].
  - cbn [map app lits]. destruct (postfix (TAtom x :: rest)); reflexivity.
  - cbn [map app lits].
    assert (E : postfix (atom c :: map atom l ++ TAtom x :: rest) =
                option_map (cons (One (CChar c)))
                  (postfix (map atom l ++ TAtom x :: rest))).
    { destruct l; reflexivity. }
    rewrite E, IH. destruct (postfix (TAtom x :: rest)); reflexivity.
Qed.

Lemma postfix_star cs l x rest :
  postfix (TAtom cs :: TStar :: map atom l ++ TAtom x :: rest) =
  option_map (cons (Star cs)) (postfix (map atom l ++ TAtom x :: rest)).
Proof. destruct l; reflexivity. Qed.

Lemma tokenize_object_pattern name :
  tokenize Normal (object_pattern name) = Some (object_tokens name).
Proof.
  unfold object_pattern.
  cbn -[re_escape].
  rewrite tokenize_escape.
  reflexivity.
Qed.

Lemma postfix_object_tokens name :
  postfix (object_tokens name) = Some (object_regex name).
Proof.
  unfold object_tokens.
  rewrite postfix_atoms, postfix_star, postfix_atoms.
  unfold object_regex, data_attr, quoted, lits, atom.
  cbn. rewrite map_app, <- app_assoc. reflexivity.
Qed.

Lemma compile_object_pattern name :
  compile (object_pattern name) = Some (object_regex name).
Proof.
  unfold compile. rewrite tokenize_object_pattern.
  apply postfix_object_tokens.
Qed.

(** *** The matcher on the placeholder pattern *)

Lemma match_one c k x s :
  match_here (One (CChar c) :: k) (x :: s) =
  if Ascii.eqb c x then match_here k s else None.
Proof. reflexivity. Qed.

Lemma match_lits l k s :
  match_here (lits l ++ k) s =
  if starts_with l s then match_here k (skipn (length l) s) else None.
Proof.
  revert s. induction l as [|a l IH]; intros s; [reflexivity|].
  destruct s as [|b s]; [reflexivity|].
  cbn [lits map app starts_with length skipn]. rewrite match_one.
  destruct (Ascii.eqb a b); [apply IH | reflexivity].
Qed.

Lemma match_lits_end l s :
  match_here (lits l) s =
  if starts_with l s then Some (skipn (length l) s) else None.
Proof.
  rewrite <- (app_nil_r (lits l)), match_lits. reflexivity.
Qed.

Lemma lazy_unfold cs k s :
  match_here (LazyStar cs :: k) s =
  match match_here k s with
  | Some rest => Some rest
  | None =>
      match s with
      | c :: s' =>
          if in_cset cs c then match_here (LazyStar cs :: k) s' else None
      | [] => None
      end
  end.
Proof. destruct s; reflexivity. Qed.

Lemma greedy_unfold cs k s :
  match_here (Star cs :: k) s =
  match s with
  | c :: s' =>
      if in_cset cs c
      then match match_here (Star cs :: k) s' with
           | Some rest => Some rest
           | None => match_here k s
           end
      else match_here k s
  | [] => match_here k []
  end.
Proof. destruct s; reflexivity. Qed.

Lemma match_lazy_until p s :
  match_here (LazyStar CAny :: lits p) s = after_first p s.
Proof.
  induction s as [|c s IH]; rewrite lazy_unfold, match_lits_end.
  - cbn [after_first]. destruct (starts_with p []) eqn:E; [|reflexivity].
    apply starts_with_nil_r in E. subst p. reflexivity.
  - cbn [after_first in_cset]. destruct (starts_with p (c :: s)); [reflexivity|].
    exact IH.
Qed.

Lemma in_not_gt c : in_cset not_gt c = negb (Ascii.eqb c ">").
Proof. cbn. rewrite orb_false_r. reflexivity. Qed.

Lemma match_to_gt k s :
  match_here (Star not_gt :: One (CChar ">") :: k) s =
  match after_gt s with
  | Some t => match_here k t
  | None => None
  end.
Proof.
  induction s as [|c s IH]; rewrite greedy_unfold; [reflexivity|].
  rewrite in_not_gt. cbn [after_gt].
  destruct (Ascii.eqb c ">") eqn:E; cbn [negb].
  - rewrite match_one, Ascii.eqb_sym, E. reflexivity.
  - rewrite IH. destruct (after_gt s) as [t|].
    + destruct (match_here k t); [reflexivity|].
      rewrite match_one, Ascii.eqb_sym, E. reflexivity.
    + rewrite match_one, Ascii.eqb_sym, E. reflexivity.
Qed.

Lemma after_gt_skip d s :
  no_gt d = true -> starts_with d s = true ->
  after_gt (skipn (length d) s) = after_gt s.
Proof.
  revert s. induction d as [|a d IH]; intros s Hd Hs; [reflexivity|].
  destruct s as [|b s]; [discriminate|].
  cbn [starts_with] in Hs. apply andb_true_iff in Hs. destruct Hs as [Hab Hs].
  apply Ascii.eqb_eq in Hab. subst b.
  unfold no_gt in Hd. cbn [existsb] in Hd. apply negb_true_iff in Hd.
  apply orb_false_iff in Hd. destruct Hd as [Ha Hd].
  cbn [length skipn after_gt]. rewrite Ascii.eqb_sym, Ha.
  apply IH; [|exact Hs]. unfold no_gt. rewrite Hd. reflexivity.
Qed.

Lemma match_head d k s :
  no_gt d = true -> d <> [] ->
  match_here (Star not_gt :: lits d ++ Star not_gt :: One (CChar ">") :: k) s =
  if attr_before_gt d s then
    match after_gt s with
    | Some t => match_here k t
    | None => None
    end
  else None.
Proof.
  intros Hd Hne.
  assert (Hcont : forall s,
    match_here (lits d ++ Star not_gt :: One (CChar ">") :: k) s =
    if starts_with d s then
      match after_gt s with Some t => match_here k t | None => None end
    else None).
  { intros u. rewrite match_lits. destruct (starts_with d u) eqn:E; [|reflexivity].
    rewrite match_to_gt, after_gt_skip by assumption. reflexivity. }
  assert (Hgt : forall u, starts_with d (">"%char :: u) = false).
  { intros u. destruct d as [|a d]; [congruence|]. cbn [starts_with].
    unfold no_gt in Hd. cbn [existsb] in Hd. apply negb_true_iff in Hd.
    apply orb_false_iff in Hd. destruct Hd as [Ha _]. rewrite Ascii.eqb_sym, Ha.
    reflexivity. }
  induction s as [|c s IH]; rewrite greedy_unfold.
  - rewrite Hcont. cbn [attr_before_gt after_gt].
    destruct (starts_with d []); reflexivity.
  - rewrite in_not_gt, Hcont. cbn [attr_before_gt after_gt].
    destruct (Ascii.eqb c ">") eqn:E; cbn [negb].
    + apply Ascii.eqb_eq in E. subst c. rewrite Hgt. reflexivity.
    + rewrite IH. destruct (attr_before_gt d s).
      * destruct (after_gt s) as [t|].
        -- destruct (match_here k t).
           ++ rewrite orb_true_r. reflexivity.
           ++ destruct (starts_with d (c :: s)); reflexivity.
        -- destruct (starts_with d (c :: s)); reflexivity.
      * rewrite orb_false_r. reflexivity.
Qed.

Lemma no_gt_data_attr name : no_gt name = true -> no_gt (data_attr name) = true.
Proof.
  unfold no_gt, data_attr, quoted. intros H. apply negb_true_iff in H.
  apply negb_true_iff.
  cbn [lit list_ascii_of_string app existsb]. rewrite existsb_app, H.
  reflexivity.
Qed.

Theorem match_object name s :
  no_gt name = true ->
  match_here (object_regex name) s = object_match name s.
Proof.
  intros Hname. unfold object_regex, object_match.
  rewrite match_lits. destruct (starts_with open_tag s); [|reflexivity].
  rewrite match_head.
  - cbv zeta. destruct (attr_before_gt _ _); [|reflexivity].
    destruct (after_gt _); [|reflexivity]. apply match_lazy_until.
  - apply no_gt_data_attr. exact Hname.
  - discriminate.
Qed.

End ReFacts.

(** ** Substitution and template assembly *)

Module AssemblyFacts.
Import Re StrFacts ReFacts.

Lemma match_here_suffix r : forall s rest,
  match_here r s = Some rest -> exists m, s = m ++ rest.
Proof.
  induction r as [|it k IH]; intros s rest H.
  - cbn in H. injection H as <-. exists []. reflexivity.
  - destruct it as [cs|cs|cs].
    + destruct s as [|c s]; [discriminate|]. cbn [match_here] in H.
      destruct (in_cset cs c); [|discriminate].
      destruct (IH _ _ H) as [m ->]. exists (c :: m). reflexivity.
    + revert H. induction s as [|c s IHs]; rewrite greedy_unfold; intros H.
      * apply IH. exact H.
      * destruct (in_cset cs c); [|apply IH; exact H].
        destruct (match_here (Star cs :: k) s) as [r0|] eqn:E.
        -- injection H as <-. destruct (IHs eq_refl) as [m ->].
           exists (c :: m). reflexivity.
        -- apply IH. exact H.
    + revert H. induction s as [|c s IHs]; rewrite lazy_unfold; intros H.
      * destruct (match_here k []) eqn:E; [|discriminate].
        injection H as <-. apply IH. exact E.
      * destruct (match_here k (c :: s)) eqn:E.
        -- injection H as <-. apply IH. exact E.
        -- destruct (in_cset cs c); [|discriminate].
           destruct (IHs H) as [m ->]. exists (c :: m). reflexivity.
Qed.

Lemma sub_from_skip r repl k s :
  k <= length s -> sub_from r repl k s = sub_from r repl 0 (skipn k s).
Proof.
  revert s. induction k as [|k IH]; intros s Hk; [reflexivity|].
  destruct s as [|c s]; cbn in Hk; [lia|].
  cbn [sub_from skipn]. apply IH. lia.
Qed.

Lemma sub_from_hit r repl m rest :
  m <> [] -> match_here r (m ++ rest) = Some rest ->
  sub_from r repl 0 (m ++ rest) = repl ++ sub_from r repl 0 rest.
Proof.
  intros Hm H. destruct m as [|c m]; [congruence|].
  change ((c :: m) ++ rest) with (c :: (m ++ rest)) in *.
  cbn [sub_from]. rewrite H.
  replace (length (c :: m ++ rest) - length rest) with (S (length m))
    by (cbn [length]; rewrite length_app; lia).
  rewrite sub_from_skip by (rewrite length_app; lia).
  rewrite skipn_app, skipn_all, Nat.sub_diag. reflexivity.
Qed.

Lemma sub_from_miss r repl c s :
  match_here r (c :: s) = None ->
  sub_from r repl 0 (c :: s) = c :: sub_from r repl 0 s.
Proof. intros H. cbn [sub_from]. rewrite H. reflexivity. Qed.

Lemma count_matches_skip r k s :
  k <= length s -> count_matches r k s = count_matches r 0 (skipn k s).
Proof.
  revert s. induction k as [|k IH]; intros s Hk; [reflexivity|].
  destruct s as [|c s]; cbn in Hk; [lia|].
  cbn [count_matches skipn]. apply IH. lia.
Qed.

Lemma count_matches_hit r m rest :
  m <> [] -> match_here r (m ++ rest) = Some rest ->
  count_matches r 0 (m ++ rest) = S (count_matches r 0 rest).
Proof.
  intros Hm H. destruct m as [|c m]; [congruence|].
  change ((c :: m) ++ rest) with (c :: (m ++ rest)) in *.
  cbn [count_matches]. rewrite H. f_equal.
  rewrite count_matches_skip by (cbn [length]; rewrite !length_app; lia).
  replace (length (c :: m ++ rest) - length rest - 1) with (length m)
    by (cbn [length]; rewrite length_app; lia).
  rewrite skipn_app, skipn_all, Nat.sub_diag. reflexivity.
Qed.

Lemma count_matches_miss r c s :
  match_here r (c :: s) = None ->
  count_matches r 0 (c :: s) = count_matches r 0 s.
Proof. intros H. cbn [count_matches]. rewrite H. reflexivity. Qed.

(** A pattern that starts with a character matches no empty text. *)
Lemma match_here_nonempty cs k s rest :
  match_here (One cs :: k) s = Some rest ->
  exists m, m <> [] /\ s = m ++ rest.
Proof.
  intros H. destruct s as [|c s]; [discriminate|].
  cbn [match_here] in H. destruct (in_cset cs c); [|discriminate].
  destruct (match_here_suffix _ _ _ H) as [m ->].
  exists (c :: m). split; [discriminate | reflexivity].
Qed.

(** Induction along the scan of [re.sub]. *)
Lemma sub_ind (cs : cset) (k : regex) (P : str -> Prop) :
  P [] ->
  (forall m rest,
     m <> [] -> match_here (One cs :: k) (m ++ rest) = Some rest ->
     P rest -> P (m ++ rest)) ->
  (forall c s, match_here (One cs :: k) (c :: s) = None -> P s -> P (c :: s)) ->
  forall s, P s.
Proof.
  intros Hnil Hhit Hmiss s.
  assert (H : forall n s, length s <= n -> P s).
  { clear s. induction n as [|n IH]; intros s Hn.
    - destruct s; [exact Hnil | cbn in Hn; lia].
    - destruct s as [|c s]; [exact Hnil|].
      destruct (match_here (One cs :: k) (c :: s)) as [rest|] eqn:E.
      + destruct (match_here_nonempty _ _ _ _ E) as (m & Hm & Hs).
        rewrite Hs in *. apply Hhit; auto. apply IH.
        destruct m; [congruence|]. cbn [length app] in Hn.
        rewrite length_app in Hn. lia.
      + apply Hmiss; [exact E|]. apply IH. cbn in Hn. lia. }
  apply (H (length s)). lia.
Qed.

Lemma no_gt_cons c s :
  no_gt (c :: s) = negb (Ascii.eqb c ">") && no_gt s.
Proof.
  unfold no_gt. cbn [existsb]. rewrite negb_orb, Ascii.eqb_sym. reflexivity.
Qed.

Lemma no_gt_app a b : no_gt (a ++ b) = no_gt a && no_gt b.
Proof. unfold no_gt. rewrite existsb_app, negb_orb. reflexivity. Qed.

Lemma after_gt_split s t :
  after_gt s = Some t -> exists h, s = h ++ ">"%char :: t /\ no_gt h = true.
Proof.
  induction s as [|c s IH]; cbn [after_gt]; [discriminate|].
  destruct (Ascii.eqb c ">") eqn:E; intros H.
  - injection H as <-. apply Ascii.eqb_eq in E. subst c.
    exists []. split; reflexivity.
  - destruct (IH H) as (h & -> & Hh). exists (c :: h). split; [reflexivity|].
    rewrite no_gt_cons, E, Hh. reflexivity.
Qed.

Lemma after_gt_app h t : no_gt h = true -> after_gt (h ++ ">"%char :: t) = Some t.
Proof.
  induction h as [|c h IH]; intros Hh; [reflexivity|].
  rewrite no_gt_cons in Hh. apply andb_true_iff in Hh. destruct Hh as [Hc Hh].
  apply negb_true_iff in Hc. cbn [app after_gt]. rewrite Hc. apply IH, Hh.
Qed.

Lemma starts_with_before_gt d u t :
  no_gt d = true -> starts_with d (u ++ ">"%char :: t) = starts_with d u.
Proof.
  revert u. induction d as [|a d IH]; intros u Hd; [reflexivity|].
  rewrite no_gt_cons in Hd. apply andb_true_iff in Hd. destruct Hd as [Ha Hd].
  apply negb_true_iff in Ha.
  destruct u as [|b u]; cbn [app starts_with].
  - rewrite Ha. reflexivity.
  - rewrite IH by exact Hd. reflexivity.
Qed.

Lemma attr_before_gt_app d h t :
  no_gt d = true -> no_gt h = true ->
  attr_before_gt d (h ++ ">"%char :: t) = contains d h.
Proof.
  intros Hd. induction h as [|c h IH]; intros Hh.
  - cbn [app attr_before_gt contains]. rewrite Ascii.eqb_refl, orb_false_r.
    apply (starts_with_before_gt d [] t Hd).
  - rewrite no_gt_cons in Hh. apply andb_true_iff in Hh. destruct Hh as [Hc Hh].
    apply negb_true_iff in Hc.
    change ((c :: h) ++ ">"%char :: t) with (c :: (h ++ ">"%char :: t)).
    cbn [attr_before_gt contains]. rewrite Hc, IH by exact Hh.
    change (c :: h ++ ">"%char :: t) with ((c :: h) ++ ">"%char :: t).
    rewrite starts_with_before_gt by exact Hd. reflexivity.
Qed.

Lemma after_first_split p s rest :
  after_first p s = Some rest -> exists b, s = b ++ p ++ rest.
Proof.
  induction s as [|c s IH]; cbn [after_first].
  - destruct (starts_with p []) eqn:E; [|discriminate].
    intros H. injection H as <-. apply starts_with_nil_r in E. subst p.
    exists []. reflexivity.
  - destruct (starts_with p (c :: s)) eqn:E; intros H.
    + injection H as <-. exists []. apply starts_with_split. exact E.
    + destruct (IH H) as [b ->]. exists (c :: b). reflexivity.
Qed.

Lemma starts_with_app_l p a x :
  starts_with p a = true -> starts_with p (a ++ x) = true.
Proof.
  intros H. apply starts_with_iff in H. destruct H as [t ->].
  rewrite <- app_assoc. apply starts_with_app.
Qed.

Lemma after_first_first p s rest :
  after_first p s = Some rest ->
  exists b, s = b ++ p ++ rest /\ (p <> [] -> contains p b = false).
Proof.
  induction s as [|c s IH]; cbn [after_first].
  - destruct (starts_with p []) eqn:E; [|discriminate].
    intros H. injection H as <-. apply starts_with_nil_r in E. subst p.
    exists []. split; [reflexivity|]. intros H. contradiction H. reflexivity.
  - destruct (starts_with p (c :: s)) eqn:E; intros H.
    + injection H as <-. exists []. split.
      * apply starts_with_split. exact E.
      * intros Hp. destruct p; [contradiction Hp; reflexivity | reflexivity].
    + destruct (IH H) as (b & -> & Hb). exists (c :: b).
      split; [reflexivity|]. intros Hp.
      destruct p as [|a p]; [contradiction Hp; reflexivity|].
      cbn [contains].
      destruct (starts_with (a :: p) (c :: b)) eqn:E'.
      * apply (starts_with_app_l _ _ ((a :: p) ++ rest)) in E'.
        cbn [app] in E, E'. congruence.
      * cbn [orb]. apply Hb. discriminate.
Qed.

Lemma object_match_block name h t :
  no_gt name = true -> no_gt h = true ->
  object_match name (open_tag ++ h ++ ">"%char :: t) =
  if contains (data_attr name) h then after_first close_tag t else None.
Proof.
  intros Hn Hh. unfold object_match. rewrite starts_with_app.
  cbv zeta. rewrite skipn_app, skipn_all, Nat.sub_diag. cbn [skipn app].
  rewrite attr_before_gt_app by (auto using no_gt_data_attr).
  rewrite after_gt_app by exact Hh. reflexivity.
Qed.

Lemma object_match_shape name s rest :
  no_gt name = true ->
  object_match name s = Some rest ->
  exists m, s = m ++ rest /\ m <> [] /\ is_placeholder name m.
Proof.
  intros Hn. unfold object_match.
  destruct (starts_with open_tag s) eqn:Eo; [|discriminate].
  cbv zeta. pose proof (starts_with_split _ _ Eo) as Hs.
  set (s1 := skipn (length open_tag) s) in *.
  destruct (attr_before_gt (data_attr name) s1) eqn:Ea; [|discriminate].
  destruct (after_gt s1) as [t|] eqn:Eg; [|discriminate].
  intros Hf.
  destruct (after_gt_split _ _ Eg) as (h & Hs1 & Hh).
  destruct (after_first_first _ _ _ Hf) as (b & Hb & Hfirst).
  rewrite Hs1 in Ea. rewrite attr_before_gt_app in Ea
    by (auto using no_gt_data_attr).
  exists (open_tag ++ h ++ ">"%char :: b ++ close_tag). split; [|split].
  - rewrite Hs, Hs1, Hb. rewrite <- !app_assoc. cbn [app].
    rewrite <- !app_assoc. reflexivity.
  - discriminate.
  - exists h, b. repeat split; auto. apply Hfirst. discriminate.
Qed.


Lemma object_regex_cons name :
  object_regex name = One (CChar "<") :: tl (object_regex name).
Proof. reflexivity. Qed.


Lemma is_b64_char_of_sextet n : is_b64 (Base64.char_of_sextet n) = true.
Proof.
  destruct (N.ltb n 64) eqn:E.
  - apply N.ltb_lt in E.
    assert (H : all_below 64 (fun n => is_b64 (Base64.char_of_sextet n)) = true)
      by (vm_compute; reflexivity).
    exact (Base64Facts.all_below_spec _ _ H n E).
  - apply N.ltb_ge in E. unfold Base64.char_of_sextet.
    rewrite nth_overflow; [reflexivity|].
    change (length Base64.alphabet) with 64. lia.
Qed.

Lemma b64encode_chars data : forallb is_b64 (Base64.b64encode data) = true.
Proof.
  unfold Base64.b64encode.
  induction data as [|a|a b|a b c rest IH] using Base64Facts.list_ind3;
    cbn [map Base64.encode_N forallb];
    rewrite ?is_b64_char_of_sextet, ?IH; reflexivity.
Qed.

Lemma digits_of_uint d :
  forallb is_digit
    (list_ascii_of_string (DecimalString.NilEmpty.string_of_uint d)) = true.
Proof. induction d; cbn [DecimalString.NilEmpty.string_of_uint list_ascii_of_string forallb]; auto. Qed.

Lemma str_of_nat_digits n : forallb is_digit (str_of_nat n) = true.
Proof.
  unfold str_of_nat, DecimalString.NilZero.string_of_uint.
  destruct (Nat.to_uint n); try reflexivity; apply digits_of_uint.
Qed.

Lemma forallb_weaken {A} (P Q : A -> bool) l :
  (forall x, P x = true -> Q x = true) ->
  forallb P l = true -> forallb Q l = true.
Proof.
  intros HPQ H. rewrite forallb_forall in *. auto.
Qed.

Lemma img_tag_chars i b :
  forallb is_b64 b = true -> forallb fragment_char (img_tag i b) = true.
Proof.
  intros Hb. unfold img_tag, quoted.
  repeat (rewrite forallb_app || cbn [forallb app]).
  rewrite (forallb_weaken is_b64 fragment_char b), 
          (forallb_weaken is_digit fragment_char (str_of_nat (i + 1))).
  - reflexivity.
  - intros x Hx. unfold fragment_char. rewrite Hx, orb_true_r. reflexivity.
  - apply str_of_nat_digits.
  - intros x Hx. unfold fragment_char. rewrite Hx. reflexivity.
  - exact Hb.
Qed.

Lemma str_eqb_eq a b : str_eqb a b = true <-> a = b.
Proof.
  unfold str_eqb. destruct (list_eq_dec ascii_dec a b); split; congruence.
Qed.

Lemma str_eqb_refl a : str_eqb a a = true.
Proof. apply str_eqb_eq. reflexivity. Qed.

Lemma str_eqb_neq a b : a <> b -> str_eqb a b = false.
Proof.
  intros H. destruct (str_eqb a b) eqn:E; [|reflexivity].
  apply str_eqb_eq in E. contradiction.
Qed.

Lemma dict_get_set_same d k v : dict_get (dict_set d k v) k = Some v.
Proof.
  induction d as [|[k' v'] d IH]; cbn [dict_set dict_get].
  - rewrite str_eqb_refl. reflexivity.
  - destruct (str_eqb k' k) eqn:E; cbn [dict_get].
    + rewrite str_eqb_refl. reflexivity.
    + rewrite E. exact IH.
Qed.

Lemma dict_get_set_other d k v k0 :
  k0 <> k -> dict_get (dict_set d k v) k0 = dict_get d k0.
Proof.
  intros Hk. induction d as [|[k' v'] d IH]; cbn [dict_set dict_get].
  - rewrite str_eqb_neq by congruence. reflexivity.
  - destruct (str_eqb k' k) eqn:E; cbn [dict_get].
    + apply str_eqb_eq in E. subst k'. rewrite !str_eqb_neq by congruence.
      reflexivity.
    + destruct (str_eqb k' k0); [reflexivity | exact IH].
Qed.

Lemma sections_for_get pages names n :
  In n names ->
  dict_get (sections_for pages names) n = Some (fragment_for pages n).
Proof.
  unfold sections_for. generalize (@nil (str * str)) as d0.
  assert (H : forall names d0,
    (In n names ->
     dict_get (fold_left (fun d n => dict_set d n (fragment_for pages n)) names d0) n
       = Some (fragment_for pages n)) /\
    (~ In n names ->
     dict_get (fold_left (fun d n => dict_set d n (fragment_for pages n)) names d0) n
       = dict_get d0 n)).
  { clear names. induction names as [|a l IH]; intros d0; cbn [fold_left In].
    - split; [tauto | reflexivity].
    - destruct (IH (dict_set d0 a (fragment_for pages a))) as [IH1 IH2].
      destruct (in_dec (list_eq_dec ascii_dec) n l) as [Hin|Hnin].
      + split; [intros _; apply IH1; exact Hin|].
        intros Hno. exfalso. apply Hno. right. exact Hin.
      + split.
        * intros [->|Hin]; [|tauto]. rewrite IH2 by exact Hnin.
          apply dict_get_set_same.
        * intros Hno. rewrite IH2 by exact Hnin.
          apply dict_get_set_other. intros ->. tauto. }
  intros d0 Hin. apply H. exact Hin.
Qed.

Lemma forallb_join P sep parts :
  forallb P sep = true ->
  Forall (fun p => forallb P p = true) parts ->
  forallb P (join sep parts) = true.
Proof.
  intros Hsep Hparts. induction Hparts as [|p l Hp Hl IH]; [reflexivity|].
  destruct l as [|q l]; [exact Hp|].
  change (join sep (p :: q :: l)) with (p ++ sep ++ join sep (q :: l)).
  rewrite !forallb_app, Hp, Hsep, IH. reflexivity.
Qed.

Lemma img_tags_chars i l :
  Forall (fun p => forallb fragment_char p = true)
         (img_tags i (map Base64.b64encode l)).
Proof.
  revert i. induction l as [|b l IH]; intros i; cbn [map img_tags]; constructor.
  - apply img_tag_chars, b64encode_chars.
  - apply IH.
Qed.

Lemma fragment_chars pages n : forallb fragment_char (fragment_for pages n) = true.
Proof.
  unfold fragment_for, pdf_section. apply forallb_join; [reflexivity|].
  apply img_tags_chars.
Qed.

Lemma fragment_char_plain c :
  fragment_char c = true -> Ascii.eqb "\" c = false.
Proof.
  destruct c as [[] [] [] [] [] [] [] []]; vm_compute; congruence.
Qed.

Lemma fragment_no_backslash pages n :
  existsb (Ascii.eqb "\") (fragment_for pages n) = false.
Proof.
  pose proof (fragment_chars pages n) as H.
  induction (fragment_for pages n) as [|c s IH]; [reflexivity|].
  cbn [forallb existsb] in *. apply andb_true_iff in H. destruct H as [Hc Hs].
  rewrite (fragment_char_plain c Hc), IH by exact Hs. reflexivity.
Qed.

Lemma substitute_object_eq pages names n html :
  In n names ->
  substitute_object (sections_for pages names) n html =
  inr (sub_from (object_regex n) (fragment_for pages n) 0 html).
Proof.
  intros Hin. unfold substitute_object, re_sub.
  rewrite (sections_for_get pages names n Hin), compile_object_pattern,
    fragment_no_backslash.
  reflexivity.
Qed.

Lemma replace_photo_eq pf b html :
  replace_photo pf b html =
  replace_from (photo_src pf) (photo_data_uri b) 0 html.
Proof. reflexivity. Qed.

Lemma photo_src_nonempty pf : photo_src pf <> [].
Proof. discriminate. Qed.


End AssemblyFacts.

Module SilentFacts.
Import Base64Facts StrFacts ReFacts AssemblyFacts.

Lemma replace_from_absent old new s :
  contains old s = false -> replace_from old new 0 s = s.
Proof.
  induction s as [|c s IH]; [reflexivity|].
  cbn [contains]. intros H. apply orb_false_iff in H. destruct H as [H1 H2].
  rewrite replace_from_miss by exact H1. rewrite IH by exact H2. reflexivity.
Qed.

Lemma sub_from_absent r repl s :
  search r s = false -> sub_from r repl 0 s = s.
Proof.
  induction s as [|c s IH]; cbn [search sub_from].
  - destruct (match_here r []); [discriminate | reflexivity].
  - destruct (match_here r (c :: s)); [discriminate|].
    intros H. rewrite IH by exact H. reflexivity.
Qed.

End SilentFacts.

Module GlobalFacts.
Import Base64Facts StrFacts ReFacts AssemblyFacts SilentFacts.

Lemma join_cons sep x y l :
  join sep (x :: y :: l) = x ++ sep ++ join sep (y :: l).
Proof. reflexivity. Qed.

(** [s.replace(old, new) == new.join(s.split(old))] *)
Lemma replace_from_join old new s :
  old <> [] ->
  exists gaps,
    length gaps = S (count_from old 0 s) /\
    s = join old gaps /\
    replace_from old new 0 s = join new gaps /\
    Forall (fun g => contains old g = false) gaps.
Proof.
  intros Hold. pattern s. apply (scan_ind old); [exact Hold | | |].
  - exists [[]]. repeat split. constructor; [|constructor].
    destruct old; [congruence | reflexivity].
  - intros t (gaps & Hlen & Ht & Hout & Hgaps).
    destruct gaps as [|g gaps]; [discriminate|].
    exists ([] :: g :: gaps). split; [|split; [|split]].
    + rewrite count_from_hit by exact Hold. cbn [length] in *. lia.
    + rewrite join_cons, <- Ht. reflexivity.
    + rewrite replace_from_hit by exact Hold. rewrite join_cons, <- Hout.
      reflexivity.
    + constructor; [|exact Hgaps]. destruct old; [congruence | reflexivity].
  - intros c u Hc (gaps & Hlen & Hu & Hout & Hgaps).
    destruct gaps as [|g gaps]; [discriminate|].
    exists ((c :: g) :: gaps). split; [|split; [|split]].
    + rewrite count_from_miss by exact Hc. exact Hlen.
    + rewrite Hu at 1. destruct gaps; reflexivity.
    + rewrite replace_from_miss by exact Hc. rewrite Hout.
      destruct gaps; reflexivity.
    + apply Forall_cons_iff in Hgaps. destruct Hgaps as [Hg Hl].
      constructor; [|exact Hl].
      cbn [contains]. rewrite Hg, orb_false_r.
      (* an occurrence at the head of [c :: g] would be one in [c :: u] *)
      destruct (starts_with old (c :: g)) eqn:E; [|reflexivity].
      apply starts_with_iff in E. destruct E as [t Et].
      rewrite <- Hc. symmetry. apply starts_with_iff.
      rewrite Hu. destruct gaps as [|g2 gaps].
      * exists t. exact Et.
      * rewrite join_cons. exists (t ++ old ++ join old (g2 :: gaps)).
        change (c :: g ++ old ++ join old (g2 :: gaps))
          with ((c :: g) ++ old ++ join old (g2 :: gaps)).
        rewrite Et, <- app_assoc. reflexivity.
Qed.

Lemma weave_cons g gaps m ms :
  weave (g :: gaps) (m :: ms) = g ++ m ++ weave gaps ms.
Proof. reflexivity. Qed.

Lemma sub_from_weave name frag s :
  no_gt name = true ->
  exists gaps ms,
    length ms = count_matches (object_regex name) 0 s /\
    length gaps = S (length ms) /\
    s = weave gaps ms /\
    Forall (is_placeholder name) ms /\
    sub_from (object_regex name) frag 0 s = join frag gaps.
Proof.
  intros Hn. pattern s.
  apply (sub_ind (CChar "<") (tl (object_regex name)));
    rewrite <- ?object_regex_cons.
  - exists [[]], []. repeat split. constructor.
  - intros m rest Hm Hmatch (gaps & ms & Hlen & Hgl & Hs & Hms & Hout).
    destruct gaps as [|g gaps]; [discriminate|].
    exists ([] :: g :: gaps), (m :: ms). split; [|split; [|split; [|split]]].
    + rewrite count_matches_hit by assumption. cbn [length]. lia.
    + cbn [length] in *. lia.
    + rewrite weave_cons, <- Hs. reflexivity.
    + constructor; [|exact Hms].
      rewrite match_object in Hmatch by exact Hn.
      destruct (object_match_shape _ _ _ Hn Hmatch) as (m' & E & _ & Hp).
      apply app_inv_tail in E. subst m'. exact Hp.
    + rewrite sub_from_hit by assumption. rewrite join_cons, <- Hout.
      reflexivity.
  - intros c u Hc (gaps & ms & Hlen & Hgl & Hs & Hms & Hout).
    destruct gaps as [|g gaps]; [discriminate|].
    exists ((c :: g) :: gaps), ms. split; [|split; [|split; [|split]]].
    + rewrite count_matches_miss by exact Hc. exact Hlen.
    + exact Hgl.
    + rewrite Hs at 1. destruct gaps, ms; reflexivity.
    + exact Hms.
    + rewrite sub_from_miss by exact Hc. rewrite Hout.
      destruct gaps; reflexivity.
Qed.

(** *** No photo reference is left *)

Lemma no_dq_cons c s : no_dq (c :: s) = negb (Ascii.eqb dq c) && no_dq s.
Proof. unfold no_dq. cbn [existsb]. rewrite negb_orb. reflexivity. Qed.

Lemma no_dq_app a b : no_dq (a ++ b) = no_dq a && no_dq b.
Proof. unfold no_dq. rewrite existsb_app, negb_orb. reflexivity. Qed.

(** Two texts that agree up to and including their first double quote
    agree before it. *)
Lemma first_quote_aligned a b l1 l2 :
  no_dq a = true -> no_dq b = true ->
  starts_with (a ++ dq :: l1) (b ++ dq :: l2) = true ->
  a = b /\ starts_with l1 l2 = true.
Proof.
  revert b. induction a as [|x a IH]; intros [|y b] Ha Hb H;
    cbn [app starts_with] in H.
  - rewrite Ascii.eqb_refl in H. auto.
  - rewrite no_dq_cons in Hb. apply andb_true_iff in Hb. destruct Hb as [Hy _].
    apply negb_true_iff in Hy. rewrite Hy in H. discriminate.
  - rewrite no_dq_cons in Ha. apply andb_true_iff in Ha. destruct Ha as [Hx _].
    apply negb_true_iff in Hx. rewrite Ascii.eqb_sym, Hx in H. discriminate.
  - rewrite no_dq_cons in Ha, Hb.
    apply andb_true_iff in Ha. destruct Ha as [_ Ha].
    apply andb_true_iff in Hb. destruct Hb as [_ Hb].
    apply andb_true_iff in H. destruct H as [Hxy H].
    apply Ascii.eqb_eq in Hxy. subst y.
    destruct (IH b Ha Hb H) as [-> Hl]. auto.
Qed.

Lemma ends_with_app p a : ends_with p (a ++ p) = true.
Proof.
  unfold ends_with. rewrite rev_app_distr. apply starts_with_app.
Qed.

Section PhotoClean.

Variables P D : str.
Hypothesis HP : no_dq P = true.
Hypothesis HD : no_dq D = true.
Hypothesis HPD : P <> D.
Hypothesis HPs : ends_with (lit "src=") P = false.
Hypothesis HDs : ends_with (lit "src=") D = false.

Lemma photo_src_eq : photo_src P = lit "src=" ++ dq :: P ++ [dq].
Proof. reflexivity. Qed.

Lemma data_src_app X :
  data_src D ++ X = lit "src=" ++ dq :: D ++ dq :: X.
Proof.
  unfold data_src, quoted. cbn [lit list_ascii_of_string app].
  rewrite <- app_assoc. reflexivity.
Qed.

(** No suffix of the photo reference starts the data URI. *)
Lemma suffix_not_in_new l0 l Y :
  photo_src P = l0 ++ l -> l <> [] ->
  starts_with l (data_src D ++ Y) = false.
Proof.
  intros Hsplit Hne. rewrite data_src_app. rewrite photo_src_eq in Hsplit.
  destruct (starts_with l _) eqn:E; [exfalso|reflexivity].
  destruct l0 as [|x0 [|x1 [|x2 [|x3 [|x4 l0]]]]];
    cbn [lit list_ascii_of_string app] in Hsplit, E.
  - subst l. cbn [starts_with] in E. rewrite !Ascii.eqb_refl in E.
    cbn [andb] in E.
    destruct (first_quote_aligned P D [] Y HP HD E) as [E' _]. contradiction.
  - injection Hsplit as _ <-. discriminate.
  - injection Hsplit as _ _ <-. discriminate.
  - injection Hsplit as _ _ _ <-. discriminate.
  - injection Hsplit as _ _ _ _ <-. cbn in E. discriminate.
  - injection Hsplit as _ _ _ _ _ Hl.
    destruct (exists_last Hne) as (l' & z & ->).
    rewrite app_assoc in Hl. apply app_inj_tail in Hl. destruct Hl as [HP' <-].
    assert (Hl' : no_dq l' = true).
    { rewrite HP', no_dq_app in HP. apply andb_true_iff in HP. tauto. }
    change ("s"%char :: "r"%char :: "c"%char :: "="%char :: dq :: D ++ dq :: Y)
      with (lit "src=" ++ dq :: D ++ dq :: Y) in E.
    destruct (first_quote_aligned l' (lit "src=") [] (D ++ dq :: Y) Hl' eq_refl E)
      as [-> _].
    rewrite HP', ends_with_app in HPs. discriminate.
Qed.

(** What the output starts with, the input started with. *)
Lemma replace_reflects_prefix l :
  (exists l0, photo_src P = l0 ++ l) -> l <> [] ->
  forall T,
    starts_with l (replace_from (photo_src P) (data_src D) 0 T) = true ->
            starts_with l T = true.
Proof.
  induction l as [|x l IH]; intros [l0 Hl0] Hne T; [congruence|].
  destruct T as [|c T]; [cbn; discriminate|].
  destruct (starts_with (photo_src P) (c :: T)) eqn:E.
  - rewrite (starts_with_split _ _ E).
    rewrite replace_from_hit by discriminate.
    rewrite (suffix_not_in_new l0 (x :: l) _ Hl0 Hne). discriminate.
  - rewrite replace_from_miss by exact E. cbn [starts_with].
    intros H. apply andb_true_iff in H. destruct H as [Hxc H].
    rewrite Hxc. cbn [andb].
    destruct l as [|y l]; [reflexivity|].
    apply IH; [|discriminate|exact H].
    exists (l0 ++ [x]). rewrite <- app_assoc. exact Hl0.
Qed.

Lemma contains_skips_payload X :
  forall D1 D0, D = D0 ++ D1 ->
    contains (photo_src P) (D1 ++ dq :: X) = contains (photo_src P) X.
Proof.
  induction D1 as [|c D1 IH]; intros D0 HD0.
  - reflexivity.
  - change ((c :: D1) ++ dq :: X) with (c :: (D1 ++ dq :: X)).
    cbn [contains]. rewrite (IH (D0 ++ [c])) by (rewrite <- app_assoc; exact HD0).
    destruct (starts_with (photo_src P) _) eqn:E; [exfalso|reflexivity].
    rewrite photo_src_eq in E.
    change (c :: D1 ++ dq :: X) with ((c :: D1) ++ dq :: X) in E.
    assert (Hc : no_dq (c :: D1) = true).
    { rewrite HD0, no_dq_app in HD. apply andb_true_iff in HD. tauto. }
    destruct (first_quote_aligned (lit "src=") (c :: D1) _ _ eq_refl Hc E)
      as [E' _].
    rewrite HD0, <- E', ends_with_app in HDs. discriminate.
Qed.

Lemma contains_skips_new X :
  contains (photo_src P) (data_src D ++ X) = contains (photo_src P) X.
Proof.
  pose proof (suffix_not_in_new [] (photo_src P) X eq_refl) as H0.
  rewrite data_src_app in *.
  cbn [lit list_ascii_of_string app] in *.
  cbn [contains]. rewrite H0 by discriminate.
  rewrite (contains_skips_payload X D [] eq_refl).
  reflexivity.
Qed.

Theorem replace_leaves_no_reference s :
  contains (photo_src P) (replace_from (photo_src P) (data_src D) 0 s) = false.
Proof.
  pattern s. apply (scan_ind (photo_src P)); [discriminate | | |].
  - reflexivity.
  - intros t IH. rewrite replace_from_hit by discriminate.
    rewrite contains_skips_new. exact IH.
  - intros c u Hc IH.
    destruct (starts_with (photo_src P)
                (replace_from (photo_src P) (data_src D) 0 (c :: u))) eqn:E.
    + apply (replace_reflects_prefix (photo_src P)) in E;
        [congruence | exists []; reflexivity | discriminate].
    + rewrite replace_from_miss in * by exact Hc.
      cbn [contains]. rewrite E, IH. reflexivity.
Qed.

End PhotoClean.

Lemma is_b64_not_special c :
  is_b64 c = true ->
  Ascii.eqb dq c = false /\ Ascii.eqb c "<" = false /\
  Ascii.eqb c ">" = false /\ Ascii.eqb c "." = false.
Proof.
  destruct c as [[] [] [] [] [] [] [] []]; vm_compute; intuition congruence.
Qed.

Lemma b64encode_no_dq data : no_dq (Base64.b64encode data) = true.
Proof.
  pose proof (b64encode_chars data) as H. unfold no_dq.
  induction (Base64.b64encode data) as [|c s IH]; [reflexivity|].
  cbn [forallb existsb] in *. apply andb_true_iff in H. destruct H as [Hc Hs].
  rewrite (proj1 (is_b64_not_special c Hc)). cbn [orb]. apply IH, Hs.
Qed.

Lemma ends_with_src_payload b :
  ends_with (lit "src=") (lit "data:image/jpeg;base64," ++ b) =
  ends_with (lit "src=") b.
Proof.
  unfold ends_with. rewrite rev_app_distr.
  destruct (rev b) as [|c0 [|c1 [|c2 [|c3 r]]]];
    cbn; rewrite ?andb_false_r; reflexivity.
Qed.

Lemma starts_with_data_neq pf b :
  starts_with (lit "data:") pf = false ->
  pf <> lit "data:image/jpeg;base64," ++ b.
Proof. intros H ->. discriminate. Qed.

Lemma replace_photo_clean pf photo html :
  no_dq pf = true ->
  ends_with (lit "src=") pf = false ->
  starts_with (lit "data:") pf = false ->
  ends_with (lit "src=") (Base64.b64encode photo) = false ->
  contains (photo_src pf)
    (replace_photo pf (Base64.b64encode photo) html) = false.
Proof.
  intros H1 H2 H3 H4. rewrite replace_photo_eq.
  apply (replace_leaves_no_reference pf
           (lit "data:image/jpeg;base64," ++ Base64.b64encode photo)).
  - exact H1.
  - rewrite no_dq_app, b64encode_no_dq. reflexivity.
  - apply starts_with_data_neq. exact H3.
  - exact H2.
  - rewrite ends_with_src_payload. exact H4.
Qed.

(** *** No placeholder is left *)

Lemma ends_with_iff p s : ends_with p s = true <-> exists a, s = a ++ p.
Proof.
  unfold ends_with. rewrite starts_with_iff. split.
  - intros [t Ht]. exists (rev t).
    rewrite <- (rev_involutive s), Ht, rev_app_distr, rev_involutive.
    reflexivity.
  - intros [a ->]. exists (rev a). apply rev_app_distr.
Qed.

Lemma ends_with_cons p c s : ends_with p s = true -> ends_with p (c :: s) = true.
Proof.
  rewrite !ends_with_iff. intros [a ->]. exists (c :: a). reflexivity.
Qed.

Lemma after_first_some p s : contains p s = true -> after_first p s <> None.
Proof.
  induction s as [|c s IH]; cbn [contains after_first].
  - rewrite orb_false_r. intros ->. discriminate.
  - destruct (starts_with p (c :: s)); [discriminate|]. exact IH.
Qed.

Lemma split_at_gt u :
  no_gt u = true \/
  exists h t, u = h ++ ">"%char :: t /\ no_gt h = true.
Proof.
  induction u as [|c u IH]; [left; reflexivity|].
  destruct (Ascii.eqb c ">") eqn:E.
  - apply Ascii.eqb_eq in E. subst c. right. exists [], u. split; reflexivity.
  - destruct IH as [IH|(h & t & -> & Hh)].
    + left. rewrite no_gt_cons, E, IH. reflexivity.
    + right. exists (c :: h), t. split; [reflexivity|].
      rewrite no_gt_cons, E, Hh. reflexivity.
Qed.

Lemma starts_with_stop x d u t :
  existsb (Ascii.eqb x) d = false ->
  starts_with d (u ++ x :: t) = starts_with d u.
Proof.
  revert u. induction d as [|a d IH]; intros u Hd; [reflexivity|].
  cbn [existsb] in Hd. apply orb_false_iff in Hd. destruct Hd as [Ha Hd].
  destruct u as [|b u]; cbn [app starts_with].
  - rewrite Ascii.eqb_sym, Ha. reflexivity.
  - rewrite IH by exact Hd. reflexivity.
Qed.

Lemma contains_across x d a b :
  existsb (Ascii.eqb x) d = false -> d <> [] ->
  contains d (a ++ x :: b) = true ->
  contains d a = true \/ contains d b = true.
Proof.
  intros Hd Hne. induction a as [|c a IH]; cbn [app contains].
  - pose proof (starts_with_stop x d [] b Hd) as E. cbn [app] in E.
    rewrite E. destruct d; [congruence|]. cbn [starts_with orb]. auto.
  - change (c :: a ++ x :: b) with ((c :: a) ++ x :: b).
    rewrite starts_with_stop by exact Hd.
    intros H. apply orb_true_iff in H. destruct H as [H|H].
    + left. rewrite H. reflexivity.
    + destruct (IH H) as [H'|H']; [left | right; exact H'].
      rewrite H'. apply orb_true_r.
Qed.

(** An occurrence of [data="n"] that starts in a segment without double
    quote ends the segment with [data=]. *)
Lemma attr_in_segment n seg rest :
  no_dq seg = true ->
  contains (data_attr n) (seg ++ dq :: rest) = true ->
  (ends_with (lit "data=") seg = true /\ starts_with (n ++ [dq]) rest = true)
  \/ contains (data_attr n) rest = true.
Proof.
  induction seg as [|c seg IH]; intros Hseg; cbn [app contains].
  - cbn [data_attr lit list_ascii_of_string app starts_with].
    rewrite (proj2 (Ascii.eqb_neq "d" dq)) by discriminate. cbn [andb orb].
    auto.
  - rewrite no_dq_cons in Hseg. apply andb_true_iff in Hseg.
    destruct Hseg as [Hc Hseg'].
    intros H. apply orb_true_iff in H. destruct H as [H|H].
    + left. change (c :: seg ++ dq :: rest) with ((c :: seg) ++ dq :: rest) in H.
      unfold data_attr, quoted in H.
      destruct (first_quote_aligned (lit "data=") (c :: seg) (n ++ [dq]) rest)
        as [E Hr]; [reflexivity | | exact H |].
      * rewrite no_dq_cons, Hc, Hseg'. reflexivity.
      * rewrite <- E. split; [reflexivity | exact Hr].
    + destruct (IH Hseg' H) as [[He Hr]|Hr]; [left | right; exact Hr].
      split; [apply ends_with_cons; exact He | exact Hr].
Qed.

Lemma no_dq_no_attr n s : no_dq s = true -> contains (data_attr n) s = false.
Proof.
  intros Hs. destruct (contains (data_attr n) s) eqn:E; [exfalso|reflexivity].
  apply contains_iff in E. destruct E as (a & b & ->).
  unfold data_attr, quoted in Hs.
  rewrite !no_dq_app in Hs. cbn in Hs. rewrite !andb_false_r in Hs.
  discriminate.
Qed.

Lemma forallb_excludes (P : ascii -> bool) x s :
  (forall c, P c = true -> Ascii.eqb x c = false) ->
  forallb P s = true -> existsb (Ascii.eqb x) s = false.
Proof.
  intros HP. induction s as [|c s IH]; [reflexivity|].
  cbn [forallb existsb]. intros H. apply andb_true_iff in H.
  destruct H as [Hc Hs]. rewrite (HP c Hc), IH by exact Hs. reflexivity.
Qed.

Lemma is_digit_not_special c :
  is_digit c = true ->
  Ascii.eqb dq c = false /\ Ascii.eqb "<" c = false /\ Ascii.eqb ">" c = false.
Proof.
  destruct c as [[] [] [] [] [] [] [] []]; vm_compute; intuition congruence.
Qed.

Lemma is_b64_not_angle c :
  is_b64 c = true ->
  Ascii.eqb dq c = false /\ Ascii.eqb "<" c = false /\ Ascii.eqb ">" c = false.
Proof.
  destruct c as [[] [] [] [] [] [] [] []]; vm_compute; intuition congruence.
Qed.

Lemma plain_name_spec n :
  plain_name n = true ->
  no_gt n = true /\ no_lt n = true /\ no_dq n = true /\
  existsb (Ascii.eqb " ") n = false.
Proof.
  intros H. unfold no_gt, no_lt, no_dq.
  assert (E : forall x, In x [">"; "<"; dq; " "]%char ->
                        existsb (Ascii.eqb x) n = false).
  { intros x Hx. apply (forallb_excludes _ x n) in H; [exact H|].
    intros c Hc. apply negb_true_iff in Hc.
    destruct (Ascii.eqb x c) eqn:Exc; [|reflexivity].
    apply Ascii.eqb_eq in Exc. subst c.
    assert (Hex : existsb (Ascii.eqb x) [">"; "<"; dq; " "]%char = true).
    { apply existsb_exists. exists x. split; [exact Hx | apply Ascii.eqb_refl]. }
    congruence. }
  rewrite !E by (cbn; tauto). tauto.
Qed.

Lemma img_tag_head i b : img_tag i b = tag_head i b ++ [">"%char].
Proof.
  unfold img_tag, tag_head. rewrite <- !app_assoc. reflexivity.
Qed.

Lemma tag_head_pieces i data (x : ascii) :
  (forall c, is_b64 c = true -> Ascii.eqb x c = false) ->
  (forall c, is_digit c = true -> Ascii.eqb x c = false) ->
  existsb (Ascii.eqb x)
    (lit "img src= alt=Pagina style=data:image/png;base64," ++
     lit "width:100%;display:block;margin:0;padding:0;" ++ [dq]) = false ->
  existsb (Ascii.eqb x) (tl (tag_head i (Base64.b64encode data))) = false.
Proof.
  intros Hb Hd Hl. unfold tag_head, quoted.
  cbn [lit list_ascii_of_string app tl].
  cbn [lit list_ascii_of_string app existsb] in Hl.
  repeat (apply orb_false_iff in Hl; destruct Hl as [? Hl]).
  repeat (rewrite existsb_app || cbn [existsb]).
  rewrite (forallb_excludes is_b64 x _ Hb (b64encode_chars data)).
  rewrite (forallb_excludes is_digit x _ Hd (str_of_nat_digits (i + 1))).
  repeat match goal with H : Ascii.eqb x _ = false |- _ => rewrite H; clear H end.
  reflexivity.
Qed.

Lemma tag_head_no_gt i data : no_gt (tag_head i (Base64.b64encode data)) = true.
Proof.
  pose proof (tag_head_pieces i data ">"
    (fun c H => proj2 (proj2 (is_b64_not_angle c H)))
    (fun c H => proj2 (proj2 (is_digit_not_special c H))) eq_refl) as H.
  unfold no_gt.
  change (tag_head i (Base64.b64encode data))
    with ("<"%char :: tl (tag_head i (Base64.b64encode data))).
  cbn [existsb]. rewrite H. reflexivity.
Qed.

Lemma tag_head_tail_no_lt i data :
  no_lt (tl (tag_head i (Base64.b64encode data))) = true.
Proof.
  unfold no_lt.
  rewrite (tag_head_pieces i data "<"
    (fun c H => proj1 (proj2 (is_b64_not_angle c H)))
    (fun c H => proj1 (proj2 (is_digit_not_special c H))) eq_refl).
  reflexivity.
Qed.

Lemma tag_head_tail_eq i b :
  tl (tag_head i b) =
  lit "img src=" ++ dq :: (lit "data:image/png;base64," ++ b) ++
  dq :: lit " alt=" ++ dq :: (lit "Pagina " ++ str_of_nat (i + 1)) ++
  dq :: lit " style=" ++ dq ::
  lit "width:100%;display:block;margin:0;padding:0;" ++ dq :: [].
Proof.
  unfold tag_head, quoted.
  cbn [lit list_ascii_of_string app tl].
  rewrite <- ?app_assoc. cbn [app]. rewrite <- ?app_assoc. reflexivity.
Qed.

Lemma starts_with_name_quote n seg rest :
  no_dq n = true -> no_dq seg = true ->
  existsb (Ascii.eqb " ") n = false ->
  existsb (Ascii.eqb " ") seg = true ->
  starts_with (n ++ [dq]) (seg ++ dq :: rest) = false.
Proof.
  intros Hn Hseg Hsp Hsp'.
  destruct (starts_with _ _) eqn:E; [exfalso|reflexivity].
  destruct (first_quote_aligned n seg [] rest Hn Hseg E) as [-> _].
  congruence.
Qed.

Lemma tag_head_no_attr n i data :
  plain_name n = true ->
  contains (data_attr n) (tl (tag_head i (Base64.b64encode data))) = false.
Proof.
  intros Hn. destruct (plain_name_spec n Hn) as (_ & _ & Hdq & Hsp).
  destruct (contains _ _) eqn:E; [exfalso|reflexivity].
  rewrite tag_head_tail_eq in E.
  apply attr_in_segment in E; [|reflexivity].
  destruct E as [[E _]|E]; [discriminate|].
  apply attr_in_segment in E;
    [|rewrite no_dq_app, b64encode_no_dq; reflexivity].
  destruct E as [[_ E]|E].
  { rewrite starts_with_name_quote in E by (assumption || reflexivity).
    discriminate. }
  apply attr_in_segment in E; [|reflexivity].
  destruct E as [[E _]|E]; [discriminate|].
  apply attr_in_segment in E.
  2:{ rewrite no_dq_app. cbn [andb].
      unfold no_dq.
      rewrite (forallb_excludes is_digit dq _
                 (fun c H => proj1 (is_digit_not_special c H))
                 (str_of_nat_digits (i + 1))).
      reflexivity. }
  destruct E as [[_ E]|E].
  { rewrite starts_with_name_quote in E by (assumption || reflexivity).
    discriminate. }
  apply attr_in_segment in E; [|reflexivity].
  destruct E as [[E _]|E]; [discriminate|].
  apply attr_in_segment in E; [|reflexivity].
  destruct E as [[E _]|E]; discriminate.
Qed.

Lemma data_attr_no_lt n :
  no_lt n = true -> existsb (Ascii.eqb "<") (data_attr n) = false.
Proof.
  unfold no_lt, data_attr, quoted. intros H. apply negb_true_iff in H.
  cbn [lit list_ascii_of_string app existsb]. rewrite existsb_app, H.
  reflexivity.
Qed.

(** The attribute cannot lie across the start of an inserted tag. *)
Lemma attr_before_tag n u i data :
  plain_name n = true ->
  contains (data_attr n) (u ++ tag_head i (Base64.b64encode data)) = true ->
  contains (data_attr n) u = true.
Proof.
  intros Hn H. destruct (plain_name_spec n Hn) as (_ & Hlt & _ & _).
  change (tag_head i (Base64.b64encode data))
    with ("<"%char :: tl (tag_head i (Base64.b64encode data))) in H.
  apply contains_across in H.
  - destruct H as [H|H]; [exact H|].
    rewrite tag_head_no_attr in H by exact Hn. discriminate.
  - apply data_attr_no_lt. exact Hlt.
  - discriminate.
Qed.

(** The fragment of a PDF with at least one page starts with a tag. *)
Lemma fragment_starts_with_tag pages n :
  pages n <> [] ->
  exists data rest,
    fragment_for pages n =
    tag_head 0 (Base64.b64encode data) ++ ">"%char :: rest.
Proof.
  unfold fragment_for, pdf_section. destruct (pages n) as [|p ps]; [congruence|].
  intros _. exists p. cbn [map img_tags].
  destruct (img_tags 1 (map Base64.b64encode ps)) as [|t ts] eqn:E.
  - exists []. cbn [join]. apply img_tag_head.
  - exists ([nl] ++ join [nl] (t :: ts)). rewrite join_cons, img_tag_head.
    rewrite <- app_assoc. reflexivity.
Qed.

Lemma open_tag_before_tag u Z :
  starts_with open_tag (u ++ "<"%char :: "i"%char :: Z) = true ->
  exists u', u = open_tag ++ u'.
Proof.
  intros H.
  destruct u as [|x0 [|x1 [|x2 [|x3 [|x4 [|x5 [|x6 u]]]]]]];
    cbn [open_tag lit list_ascii_of_string app starts_with] in H;
    repeat (apply andb_true_iff in H; destruct H as [? H]);
    repeat match goal with
           | E : Ascii.eqb _ _ = true |- _ => apply Ascii.eqb_eq in E
           end;
    try discriminate.
  subst. exists u. reflexivity.
Qed.

Lemma no_lt_cons c s : no_lt (c :: s) = negb (Ascii.eqb c "<") && no_lt s.
Proof.
  unfold no_lt. cbn [existsb]. rewrite negb_orb, Ascii.eqb_sym. reflexivity.
Qed.

Lemma lt_then_i_skip a rest :
  no_lt a = true -> lt_then_i (a ++ rest) = lt_then_i rest.
Proof.
  induction a as [|c a IH]; intros Ha; [reflexivity|].
  rewrite no_lt_cons in Ha. apply andb_true_iff in Ha. destruct Ha as [Hc Ha].
  apply negb_true_iff in Hc. cbn [app lt_then_i]. rewrite Hc. cbn [andb].
  apply IH, Ha.
Qed.

Lemma lt_then_i_tag i data rest :
  lt_then_i (img_tag i (Base64.b64encode data) ++ rest) = lt_then_i rest.
Proof.
  rewrite img_tag_head.
  change (tag_head i (Base64.b64encode data))
    with ("<"%char :: tl (tag_head i (Base64.b64encode data))).
  rewrite <- !app_assoc.
  change (("<"%char :: tl (tag_head i (Base64.b64encode data))) ++
          [">"%char] ++ rest)
    with ("<"%char :: tl (tag_head i (Base64.b64encode data)) ++
          [">"%char] ++ rest).
  cbn [lt_then_i]. rewrite Ascii.eqb_refl.
  rewrite lt_then_i_skip by apply tag_head_tail_no_lt.
  rewrite tag_head_tail_eq. reflexivity.
Qed.

Lemma lt_then_i_tags i l :
  lt_then_i (join [nl] (img_tags i (map Base64.b64encode l))) = true.
Proof.
  revert i. induction l as [|p l IH]; intros i; [reflexivity|].
  cbn [map img_tags].
  destruct (img_tags (S i) (map Base64.b64encode l)) as [|t ts] eqn:E.
  - cbn [join]. rewrite <- (app_nil_r (img_tag _ _)). apply lt_then_i_tag.
  - rewrite join_cons, lt_then_i_tag. cbn [app lt_then_i].
    rewrite <- E. apply IH.
Qed.

Lemma lt_then_i_fragment pages n : lt_then_i (fragment_for pages n) = true.
Proof. apply lt_then_i_tags. Qed.

Lemma object_match_needs_open n s :
  starts_with open_tag s = false -> object_match n s = None.
Proof. unfold object_match. intros ->. reflexivity. Qed.

Lemma lt_then_i_inert c s X :
  lt_then_i (c :: s) = true -> starts_with open_tag ((c :: s) ++ X) = false.
Proof.
  cbn [lt_then_i app open_tag lit list_ascii_of_string starts_with].
  intros H. apply andb_true_iff in H. destruct H as [H _].
  rewrite (Ascii.eqb_sym "<" c).
  destruct (Ascii.eqb c "<"); [|reflexivity].
  destruct s as [|d s]; [discriminate|]. cbn [app starts_with].
  apply Ascii.eqb_eq in H. subst d. reflexivity.
Qed.

Lemma search_skips_inert n F X :
  no_gt n = true -> lt_then_i F = true ->
  search (object_regex n) (F ++ X) = search (object_regex n) X.
Proof.
  intros Hn. induction F as [|c F IH]; intros HF; [reflexivity|].
  change ((c :: F) ++ X) with (c :: (F ++ X)).
  cbn [search]. change (c :: F ++ X) with ((c :: F) ++ X).
  rewrite match_object by exact Hn.
  rewrite object_match_needs_open by (apply lt_then_i_inert; exact HF).
  apply IH. cbn [lt_then_i] in HF. apply andb_true_iff in HF. tauto.
Qed.

Lemma contains_close_tag a rest : contains close_tag (a ++ close_tag ++ rest) = true.
Proof. apply contains_iff. exists a, rest. reflexivity. Qed.

(** A placeholder found after the substitution, at a position in kept
    text, was a placeholder before it. *)
Lemma match_transfer n pages :
  plain_name n = true -> pages n <> [] ->
  forall T u,
    object_match n
      (u ++ sub_from (object_regex n) (fragment_for pages n) 0 T) <> None ->
    object_match n (u ++ T) <> None.
Proof.
  intros Hn Hp. destruct (plain_name_spec n Hn) as (Hgt & _).
  destruct (fragment_starts_with_tag pages n Hp) as (data & Z & HF).
  intros T. pattern T.
  apply (sub_ind (CChar "<") (tl (object_regex n)));
    rewrite <- ?object_regex_cons.
  - intros u H. exact H.
  - intros m rest Hm Hmatch _ u H.
    rewrite sub_from_hit in H by assumption.
    rewrite match_object in Hmatch by exact Hgt.
    destruct (object_match_shape _ _ _ Hgt Hmatch)
      as (m' & E & _ & (hm & bm & Em & Hhm & Hcm)).
    apply app_inv_tail in E. subst m'.
    set (X := sub_from (object_regex n) (fragment_for pages n) 0 rest) in *.
    rewrite HF in H.
    assert (Hopen : exists u', u = open_tag ++ u').
    { destruct (starts_with open_tag
                  (u ++ (tag_head 0 (Base64.b64encode data) ++ ">"%char :: Z) ++ X))
        eqn:Eo.
      - rewrite <- app_assoc in Eo.
        apply (open_tag_before_tag u
                 (tl (tl (tag_head 0 (Base64.b64encode data))) ++
                  (">"%char :: Z) ++ X)).
        exact Eo.
      - rewrite object_match_needs_open in H by exact Eo. congruence. }
    destruct Hopen as [u' ->].
    destruct (split_at_gt u') as [Hu'|(h & t & -> & Hh)].
    + (* the opening tag runs into the inserted fragment *)
      replace ((open_tag ++ u') ++
               (tag_head 0 (Base64.b64encode data) ++ ">"%char :: Z) ++ X)
        with (open_tag ++ (u' ++ tag_head 0 (Base64.b64encode data)) ++
              ">"%char :: (Z ++ X)) in H
        by (rewrite <- !app_assoc; reflexivity).
      rewrite object_match_block in H;
        [|exact Hgt|rewrite no_gt_app, Hu', tag_head_no_gt; reflexivity].
      destruct (contains (data_attr n) (u' ++ tag_head 0 _)) eqn:Ec;
        [|congruence].
      apply attr_before_tag in Ec; [|exact Hn].
      rewrite Em.
      replace ((open_tag ++ u') ++
               (open_tag ++ hm ++ ">"%char :: bm ++ close_tag) ++ rest)
        with (open_tag ++ (u' ++ open_tag ++ hm) ++
              ">"%char :: (bm ++ close_tag ++ rest))
        by (rewrite <- !app_assoc; cbn [app]; rewrite <- !app_assoc; reflexivity).
      rewrite object_match_block;
        [|exact Hgt|rewrite !no_gt_app, Hu', Hhm; reflexivity].
      rewrite contains_app_l by exact Ec.
      apply after_first_some, contains_close_tag.
    + (* the opening tag is closed before the fragment *)
      replace ((open_tag ++ h ++ ">"%char :: t) ++
               (tag_head 0 (Base64.b64encode data) ++ ">"%char :: Z) ++ X)
        with (open_tag ++ h ++ ">"%char ::
              (t ++ (tag_head 0 (Base64.b64encode data) ++ ">"%char :: Z) ++ X))
        in H by (rewrite <- !app_assoc; reflexivity).
      rewrite object_match_block in H by assumption.
      replace ((open_tag ++ h ++ ">"%char :: t) ++ m ++ rest)
        with (open_tag ++ h ++ ">"%char :: (t ++ m ++ rest))
        by (rewrite <- !app_assoc; reflexivity).
      rewrite object_match_block by assumption.
      destruct (contains (data_attr n) h); [|congruence].
      rewrite Em.
      replace (t ++ (open_tag ++ hm ++ ">"%char :: bm ++ close_tag) ++ rest)
        with ((t ++ open_tag ++ hm ++ ">"%char :: bm) ++ close_tag ++ rest)
        by (rewrite <- !app_assoc; cbn [app]; rewrite <- !app_assoc; reflexivity).
      apply after_first_some, contains_close_tag.
  - intros c s Hc IH u H.
    rewrite sub_from_miss in H by exact Hc.
    replace (u ++ c :: s) with ((u ++ [c]) ++ s)
      by (rewrite <- app_assoc; reflexivity).
    apply IH. rewrite <- app_assoc. exact H.
Qed.

Theorem sub_leaves_no_placeholder n pages T :
  plain_name n = true -> pages n <> [] ->
  search (object_regex n)
    (sub_from (object_regex n) (fragment_for pages n) 0 T) = false.
Proof.
  intros Hn Hp. destruct (plain_name_spec n Hn) as (Hgt & _).
  pattern T.
  apply (sub_ind (CChar "<") (tl (object_regex n)));
    rewrite <- ?object_regex_cons.
  - reflexivity.
  - intros m rest Hm Hmatch IH. rewrite sub_from_hit by assumption.
    rewrite search_skips_inert by (exact Hgt || apply lt_then_i_fragment).
    exact IH.
  - intros c s Hc IH. rewrite sub_from_miss by exact Hc.
    cbn [search]. rewrite IH.
    destruct (match_here (object_regex n)
                (c :: sub_from (object_regex n) (fragment_for pages n) 0 s))
      eqn:E; [exfalso|reflexivity].
    rewrite match_object in E, Hc by exact Hgt.
    apply (match_transfer n pages Hn Hp s [c]); [|exact Hc].
    cbn [app]. rewrite E. discriminate.
Qed.

Lemma count_from_absent p s : contains p s = false -> count_from p 0 s = 0.
Proof.
  induction s as [|c s IH]; [reflexivity|].
  cbn [contains]. intros H. apply orb_false_iff in H. destruct H as [H1 H2].
  rewrite count_from_miss by exact H1. apply IH, H2.
Qed.

Lemma count_matches_absent r s : search r s = false -> count_matches r 0 s = 0.
Proof.
  induction s as [|c s IH]; [reflexivity|].
  cbn [search]. destruct (match_here r (c :: s)) eqn:E; [discriminate|].
  intros H. rewrite count_matches_miss by exact E. apply IH, H.
Qed.

End GlobalFacts.

Module PhotoFacts.
Import Base64Facts StrFacts ReFacts AssemblyFacts SilentFacts GlobalFacts.

Lemma substitute_objects_absent pages names html :
  forall todo,
    incl todo names ->
    (forall n, In n todo -> search (object_regex n) html = false) ->
    substitute_objects (sections_for pages names) todo html = inr html.
Proof.
  induction todo as [|n todo IH]; intros Hincl Hno; [reflexivity|].
  cbn [substitute_objects].
  rewrite substitute_object_eq by (apply Hincl; left; reflexivity).
  rewrite sub_from_absent by (apply Hno; left; reflexivity).
  apply IH.
  - intros x Hx. apply Hincl. right. exact Hx.
  - intros x Hx. apply Hno. right. exact Hx.
Qed.

Lemma starts_with_contains p s : starts_with p s = true -> contains p s = true.
Proof. intros H. destruct s; cbn [contains]; rewrite H; reflexivity. Qed.

Lemma match_needs_open_tag n s :
  starts_with open_tag s = false -> match_here (object_regex n) s = None.
Proof.
  intros H. unfold object_regex. rewrite match_lits, H. reflexivity.
Qed.

Lemma search_needs_open_tag n s :
  contains open_tag s = false -> search (object_regex n) s = false.
Proof.
  induction s as [|c s IH]; cbn [contains search]; intros H.
  - reflexivity.
  - apply orb_false_iff in H. destruct H as [H1 H2].
    rewrite match_needs_open_tag by exact H1. apply IH, H2.
Qed.

Lemma replace_from_inserts old new s :
  old <> [] ->
  contains old s = true -> contains new (replace_from old new 0 s) = true.
Proof.
  intros Hold. pattern s. apply (scan_ind old); [exact Hold | | |].
  - cbn. rewrite orb_false_r. intros H. apply starts_with_nil_r in H.
    congruence.
  - intros t _ _. rewrite replace_from_hit by exact Hold.
    apply starts_with_contains, starts_with_app.
  - intros c u Hc IH H. rewrite replace_from_miss by exact Hc.
    cbn [contains] in *. rewrite Hc in H. cbn [orb] in H.
    rewrite IH by exact H. apply orb_true_r.
Qed.

(** A text without the first character of [new] that starts the output
    started the input. *)
Lemma replace_reflects_start old x new l :
  old <> [] ->
  existsb (Ascii.eqb x) l = false ->
  forall T,
    starts_with l (replace_from old (x :: new) 0 T) = true ->
    starts_with l T = true.
Proof.
  intros Hold. induction l as [|y l IH]; intros Hl T; [reflexivity|].
  cbn [existsb] in Hl. apply orb_false_iff in Hl. destruct Hl as [Hy Hl].
  destruct T as [|c T]; [cbn; discriminate|].
  destruct (starts_with old (c :: T)) eqn:E.
  - rewrite (starts_with_split _ _ E), replace_from_hit by exact Hold.
    cbn [app starts_with]. rewrite Ascii.eqb_sym, Hy. discriminate.
  - rewrite replace_from_miss by exact E. cbn [starts_with].
    intros H. apply andb_true_iff in H. destruct H as [Hyc H].
    rewrite Hyc. cbn [andb]. apply IH; assumption.
Qed.

Lemma contains_skips_no_lt a X :
  no_lt a = true -> contains open_tag (a ++ X) = contains open_tag X.
Proof.
  induction a as [|c a IH]; intros Ha; [reflexivity|].
  rewrite no_lt_cons in Ha. apply andb_true_iff in Ha. destruct Ha as [Hc Ha].
  apply negb_true_iff in Hc.
  cbn [app contains open_tag lit list_ascii_of_string starts_with].
  rewrite (Ascii.eqb_sym "<" c), Hc. cbn [andb orb]. apply IH, Ha.
Qed.

Lemma photo_data_uri_no_lt photo :
  no_lt (photo_data_uri (Base64.b64encode photo)) = true.
Proof.
  unfold no_lt, photo_data_uri, quoted.
  cbn [lit list_ascii_of_string app existsb].
  rewrite !existsb_app.
  rewrite (forallb_excludes is_b64 "<" _
             (fun c H => proj1 (proj2 (is_b64_not_angle c H)))
             (b64encode_chars photo)).
  reflexivity.
Qed.

Lemma replace_photo_no_object pf photo s :
  contains open_tag s = false ->
  contains open_tag (replace_photo pf (Base64.b64encode photo) s) = false.
Proof.
  rewrite replace_photo_eq. pattern s.
  apply (scan_ind (photo_src pf)); [discriminate | | |].
  - reflexivity.
  - intros t IH H. rewrite replace_from_hit by discriminate.
    rewrite contains_skips_no_lt by apply photo_data_uri_no_lt.
    apply IH. destruct (contains open_tag t) eqn:E; [|reflexivity].
    rewrite contains_app_r in H by exact E. discriminate.
  - intros c u Hc IH H. cbn [contains] in H.
    apply orb_false_iff in H. destruct H as [H1 H2].
    rewrite replace_from_miss by exact Hc. cbn [contains].
    rewrite IH by exact H2. rewrite orb_false_r.
    destruct (starts_with open_tag (c :: replace_from _ _ 0 u)) eqn:E;
      [|reflexivity].
    rewrite <- replace_from_miss in E by exact Hc.
    apply (replace_reflects_start (photo_src pf) "s"
             (tl (photo_data_uri (Base64.b64encode photo))) open_tag) in E;
      [congruence | discriminate | reflexivity].
Qed.

End PhotoFacts.

Module ScenarioFacts.
Import Base64Facts StrFacts ReFacts AssemblyFacts SilentFacts GlobalFacts
  PhotoFacts.

Lemma replace_split_at x old new a b :
  old <> [] -> existsb (Ascii.eqb x) old = false ->
  replace_from old new 0 (a ++ x :: b) =
  replace_from old new 0 a ++ x :: replace_from old new 0 b.
Proof.
  intros Hold Hx. pattern a. apply (scan_ind old); [exact Hold | | |].
  - cbn [app replace_from]. apply replace_from_miss.
    pose proof (starts_with_stop x old [] b Hx) as E. cbn [app] in E.
    rewrite E. destruct old; [congruence | reflexivity].
  - intros t IH. rewrite <- !app_assoc, !replace_from_hit by exact Hold.
    rewrite IH, <- app_assoc. reflexivity.
  - intros c u Hc IH.
    change ((c :: u) ++ x :: b) with (c :: (u ++ x :: b)).
    rewrite !replace_from_miss; [rewrite IH; reflexivity | exact Hc |].
    change (c :: u ++ x :: b) with ((c :: u) ++ x :: b).
    rewrite starts_with_stop by exact Hx. exact Hc.
Qed.

(** Characters other than the first of [old] are copied. *)
Lemma replace_skip_prefix y old new a b :
  existsb (Ascii.eqb y) a = false ->
  replace_from (y :: old) new 0 (a ++ b) = a ++ replace_from (y :: old) new 0 b.
Proof.
  induction a as [|c a IH]; intros Ha; [reflexivity|].
  cbn [existsb] in Ha. apply orb_false_iff in Ha. destruct Ha as [Hc Ha].
  change ((c :: a) ++ b) with (c :: (a ++ b)).
  rewrite replace_from_miss by (cbn [starts_with]; rewrite Hc; reflexivity).
  rewrite IH by exact Ha. reflexivity.
Qed.

Lemma no_lt_app a b : no_lt (a ++ b) = no_lt a && no_lt b.
Proof. unfold no_lt. rewrite existsb_app, negb_orb. reflexivity. Qed.

Lemma replace_from_no_lt old new s :
  old <> [] -> no_lt new = true -> no_lt s = true ->
  no_lt (replace_from old new 0 s) = true.
Proof.
  intros Hold Hnew. pattern s. apply (scan_ind old); [exact Hold | | |].
  - reflexivity.
  - intros t IH H. rewrite no_lt_app in H. apply andb_true_iff in H.
    rewrite replace_from_hit by exact Hold.
    rewrite no_lt_app, Hnew, IH by tauto. reflexivity.
  - intros c u Hc IH H. rewrite replace_from_miss by exact Hc.
    rewrite no_lt_cons in *. apply andb_true_iff in H. destruct H as [H1 H2].
    rewrite H1, IH by exact H2. reflexivity.
Qed.

Lemma starts_with_no_lt p a X :
  no_lt (firstn 1 a) = true ->
  a <> [] ->
  starts_with ("<"%char :: p) (a ++ X) = false.
Proof.
  destruct a as [|c a]; [congruence|]. cbn [firstn]. rewrite no_lt_cons.
  intros H _. apply andb_true_iff in H. destruct H as [H _].
  apply negb_true_iff in H. cbn [app starts_with].
  rewrite Ascii.eqb_sym, H. reflexivity.
Qed.

Lemma sub_skip_no_lt n frag a X :
  no_lt a = true ->
  sub_from (object_regex n) frag 0 (a ++ X) =
  a ++ sub_from (object_regex n) frag 0 X.
Proof.
  induction a as [|c a IH]; intros Ha; [reflexivity|].
  rewrite no_lt_cons in Ha. apply andb_true_iff in Ha. destruct Ha as [Hc Ha].
  apply negb_true_iff in Hc.
  change ((c :: a) ++ X) with (c :: (a ++ X)).
  rewrite sub_from_miss.
  - rewrite IH by exact Ha. reflexivity.
  - apply match_needs_open_tag.
    cbn [open_tag lit list_ascii_of_string starts_with].
    rewrite Ascii.eqb_sym, Hc. reflexivity.
Qed.

Lemma sub_no_lt n frag a :
  no_lt a = true -> sub_from (object_regex n) frag 0 a = a.
Proof.
  intros Ha. rewrite <- (app_nil_r a) at 1.
  rewrite sub_skip_no_lt by exact Ha. cbn. apply app_nil_r.
Qed.

Lemma count_skip_no_lt p a X :
  no_lt a = true ->
  count_from ("<"%char :: p) 0 (a ++ X) = count_from ("<"%char :: p) 0 X.
Proof.
  induction a as [|c a IH]; intros Ha; [reflexivity|].
  rewrite no_lt_cons in Ha. apply andb_true_iff in Ha. destruct Ha as [Hc Ha].
  apply negb_true_iff in Hc.
  change ((c :: a) ++ X) with (c :: (a ++ X)).
  rewrite count_from_miss.
  - apply IH, Ha.
  - cbn [starts_with]. rewrite Ascii.eqb_sym, Hc. reflexivity.
Qed.

Lemma img_tag_tail_no_lt i data :
  no_lt (tl (img_tag i (Base64.b64encode data))) = true.
Proof.
  rewrite img_tag_head.
  change (tag_head i (Base64.b64encode data))
    with ("<"%char :: tl (tag_head i (Base64.b64encode data))).
  cbn [app tl]. rewrite no_lt_app, tag_head_tail_no_lt. reflexivity.
Qed.

Lemma img_tag_split i b : img_tag i b = lit "<img" ++ skipn 4 (img_tag i b).
Proof. reflexivity. Qed.

Lemma img_tag_rest_no_lt i data :
  no_lt (skipn 4 (img_tag i (Base64.b64encode data))) = true.
Proof.
  pose proof (img_tag_tail_no_lt i data) as H.
  rewrite img_tag_split in H. cbn [lit list_ascii_of_string app tl] in H.
  rewrite !no_lt_cons in H.
  repeat (apply andb_true_iff in H; destruct H as [_ H]).
  exact H.
Qed.

End ScenarioFacts.

Module OrderFacts.
Import Base64Facts StrFacts ReFacts AssemblyFacts SilentFacts GlobalFacts.
Import PhotoFacts ScenarioFacts.







(** The lazy part of the pattern stops at the closing tag of the
    placeholder when the content has none. *)
Lemma after_first_close b rest :
  contains close_tag b = false ->
  after_first close_tag (b ++ close_tag ++ rest) = Some rest.
Proof.
  induction b as [|c b IH]; intros Hb.
  - cbn [app]. destruct (close_tag ++ rest) eqn:E; [discriminate|].
    cbn [after_first]. rewrite <- E, starts_with_app.
    rewrite skipn_app, skipn_all, Nat.sub_diag. reflexivity.
  - cbn [contains] in Hb. apply orb_false_iff in Hb. destruct Hb as [H1 H2].
    change ((c :: b) ++ close_tag ++ rest) with (c :: (b ++ close_tag ++ rest)).
    cbn [after_first].
    change (c :: b ++ close_tag ++ rest)
      with ((c :: b) ++ "<"%char :: (lit "/object>" ++ rest)).
    assert (E : starts_with close_tag
                  ((c :: b) ++ "<"%char :: (lit "/object>" ++ rest)) = false).
    { change close_tag with ("<"%char :: lit "/object>") in *.
      cbn [app starts_with] in *.
      rewrite starts_with_stop by reflexivity. exact H1. }
    rewrite E. apply IH. exact H2.
Qed.









End OrderFacts.

Module FrameFacts.
Import Base64Facts StrFacts ReFacts AssemblyFacts SilentFacts GlobalFacts.
Import PhotoFacts ScenarioFacts OrderFacts.

(** *** Tags in a text that is followed by another character *)

Lemma starts_with_tag_stop x q c a X :
  existsb (Ascii.eqb x) q = false ->
  starts_with ("<"%char :: q) ((c :: a) ++ x :: X) =
  starts_with ("<"%char :: q) (c :: a).
Proof.
  intros Hq. cbn [app starts_with]. rewrite starts_with_stop by exact Hq.
  reflexivity.
Qed.

Lemma contains_tag_stop x q a X :
  existsb (Ascii.eqb x) q = false ->
  contains ("<"%char :: q) a = false ->
  contains ("<"%char :: q) (a ++ x :: X) = contains ("<"%char :: q) (x :: X).
Proof.
  intros Hq. induction a as [|c a IH]; intros Ha; [reflexivity|].
  change (contains ("<"%char :: q) (c :: a))
    with (starts_with ("<"%char :: q) (c :: a) || contains ("<"%char :: q) a)
    in Ha.
  apply orb_false_iff in Ha. destruct Ha as [H1 H2].
  change (contains ("<"%char :: q) ((c :: a) ++ x :: X))
    with (starts_with ("<"%char :: q) ((c :: a) ++ x :: X) ||
          contains ("<"%char :: q) (a ++ x :: X)).
  rewrite starts_with_tag_stop, H1 by exact Hq. apply IH, H2.
Qed.

Lemma contains_tag_skip q a X :
  no_lt a = true ->
  contains ("<"%char :: q) (a ++ X) = contains ("<"%char :: q) X.
Proof.
  induction a as [|c a IH]; intros Ha; [reflexivity|].
  rewrite no_lt_cons in Ha. apply andb_true_iff in Ha. destruct Ha as [Hc Ha].
  apply negb_true_iff in Hc.
  change (contains ("<"%char :: q) ((c :: a) ++ X))
    with (starts_with ("<"%char :: q) (c :: a ++ X) ||
          contains ("<"%char :: q) (a ++ X)).
  cbn [starts_with]. rewrite (Ascii.eqb_sym "<" c), Hc. cbn [andb orb].
  apply IH, Ha.
Qed.

Lemma count_tag_stop x q a X :
  existsb (Ascii.eqb x) q = false ->
  contains ("<"%char :: q) a = false ->
  count_from ("<"%char :: q) 0 (a ++ x :: X) =
  count_from ("<"%char :: q) 0 (x :: X).
Proof.
  intros Hq. induction a as [|c a IH]; intros Ha; [reflexivity|].
  change (contains ("<"%char :: q) (c :: a))
    with (starts_with ("<"%char :: q) (c :: a) || contains ("<"%char :: q) a)
    in Ha.
  apply orb_false_iff in Ha. destruct Ha as [H1 H2].
  change ((c :: a) ++ x :: X) with (c :: (a ++ x :: X)).
  rewrite count_from_miss.
  - apply IH, H2.
  - change (c :: a ++ x :: X) with ((c :: a) ++ x :: X).
    rewrite starts_with_tag_stop by exact Hq. exact H1.
Qed.

(** A text without [<object] is copied by every substitution when the
    character after it cannot continue a tag name. *)
Lemma sub_tag_stop x n frag a X :
  existsb (Ascii.eqb x) (lit "object") = false ->
  contains open_tag a = false ->
  sub_from (object_regex n) frag 0 (a ++ x :: X) =
  a ++ sub_from (object_regex n) frag 0 (x :: X).
Proof.
  intros Hq. induction a as [|c a IH]; intros Ha; [reflexivity|].
  change (contains open_tag (c :: a))
    with (starts_with open_tag (c :: a) || contains open_tag a) in Ha.
  apply orb_false_iff in Ha. destruct Ha as [H1 H2].
  change ((c :: a) ++ x :: X) with (c :: (a ++ x :: X)).
  rewrite sub_from_miss.
  - rewrite IH by exact H2. reflexivity.
  - apply match_needs_open_tag.
    change (c :: a ++ x :: X) with ((c :: a) ++ x :: X).
    change open_tag with ("<"%char :: lit "object").
    rewrite starts_with_tag_stop by exact Hq. exact H1.
Qed.

(** The photo replacement creates no tag: what it inserts holds no [<]
    and starts with an [s]. *)
Lemma replace_photo_no_tag q pf photo s :
  existsb (Ascii.eqb "s") ("<"%char :: q) = false ->
  contains ("<"%char :: q) s = false ->
  contains ("<"%char :: q)
    (replace_photo pf (Base64.b64encode photo) s) = false.
Proof.
  intros Hq. rewrite replace_photo_eq. pattern s.
  apply (scan_ind (photo_src pf)); [discriminate | | |].
  - reflexivity.
  - intros t IH H. rewrite replace_from_hit by discriminate.
    rewrite contains_tag_skip by apply photo_data_uri_no_lt.
    apply IH. destruct (contains ("<"%char :: q) t) eqn:E; [|reflexivity].
    rewrite contains_app_r in H by exact E. discriminate.
  - intros c u Hc IH H.
    change (contains ("<"%char :: q) (c :: u))
      with (starts_with ("<"%char :: q) (c :: u) ||
            contains ("<"%char :: q) u) in H.
    apply orb_false_iff in H. destruct H as [H1 H2].
    rewrite replace_from_miss by exact Hc.
    match goal with
    | |- contains ?p (c :: ?r) = false =>
        change (starts_with p (c :: r) || contains p r = false)
    end.
    rewrite IH by exact H2. rewrite orb_false_r.
    match goal with
    | |- ?e = false => destruct e eqn:E; [|reflexivity]
    end.
    rewrite <- replace_from_miss in E by exact Hc.
    apply (replace_reflects_start (photo_src pf) "s"
             (tl (photo_data_uri (Base64.b64encode photo)))
             ("<"%char :: q)) in E;
      [congruence | discriminate | exact Hq].
Qed.

(** *** The first occurrence of a text is replaced *)



(** *** Texts that an edit cannot create *)




(** *** No photo reference in a fragment *)




Section FragmentClean.

Variable pf : str.
Hypothesis Hdq : no_dq pf = true.
Hypothesis Hlt : no_lt pf = true.
Hypothesis Hgt : no_gt pf = true.
Hypothesis Hdata : starts_with (lit "data:") pf = false.
Hypothesis Halt : pf <> lit " alt=".







End FragmentClean.



(** *** The substitutions on a flat text followed by more text *)



End FrameFacts.

(** * The claims of the specification *)

Import Base64Facts StrFacts ReFacts AssemblyFacts SilentFacts GlobalFacts.
Import PhotoFacts ScenarioFacts OrderFacts FrameFacts.

(** ** The model on small inputs *)

Example re_escape_T1 : re_escape (lit "T1.pdf") = lit "T1\.pdf".
Proof. reflexivity. Qed.

Example compile_T1 :
  compile (object_pattern (lit "T1.pdf")) = Some (object_regex (lit "T1.pdf")).
Proof. reflexivity. Qed.

Example str_replace_overlap :
  str_replace (lit "aa") (lit "b") (lit "aaaaa") = lit "bba" /\
  str_replace (lit "") (lit "-") (lit "abc") = lit "-a-b-c-" /\
  str_count (lit "aa") (lit "aaaaa") = 2.
Proof. repeat split; reflexivity. Qed.

Example re_sub_lazy_and_greedy :
  re_sub (lit "a[^c]*c") (lit "X") (lit "abcabcc") = Some (lit "XXc") /\
  re_sub (lit "a.*c") (lit "X") (lit "abcabcc") = Some (lit "X") /\
  re_sub (lit "a.*?c") (lit "X") (lit "abcabcc") = Some (lit "XXc").
Proof. repeat split; reflexivity. Qed.

Example re_sub_placeholder :
  re_sub (object_pattern (lit "T1.pdf")) (lit "[T1]")
    (lit "<p><object type=x data=" ++ quoted (lit "T1.pdf") ++
     lit " width=9>" ++ [nl] ++ lit "alt</object></p><object data=" ++
     quoted (lit "T1xpdf") ++ lit "></object>") =
  Some (lit "<p>[T1]</p><object data=" ++ quoted (lit "T1xpdf") ++
        lit "></object>").
Proof. reflexivity. Qed.

Example universal_newlines_crlf :
  universal_newlines ["a"; "013"; "010"; "b"; "013"; "c"; "010"]%char =
  ["a"; "010"; "b"; "010"; "c"; "010"]%char.
Proof. reflexivity. Qed.

Example utf8_valid_examples :
  utf8_valid [x63; xc3; xb3] = true /\
  utf8_valid [xc3] = false /\
  utf8_valid [xed; xa0; x80] = false /\
  utf8_valid [xf0; x9f; x98; x80] = true.
Proof. repeat split; reflexivity. Qed.

Example img_tag_page_12 :
  img_tag 11 (lit "QUJD") =
  lit "<img src=" ++ quoted (lit "data:image/png;base64,QUJD") ++
  lit " alt=" ++ quoted (lit "Pagina 12") ++ lit " style=" ++
  quoted (lit "width:100%;display:block;margin:0;padding:0;") ++ lit ">".
Proof. reflexivity. Qed.

(** ** The file encoder *)

Example b64encode_Man :
  Base64.b64encode [x4d; x61; x6e] = lit "TWFu" /\
  Base64.b64encode [x4d; x61] = lit "TWE=" /\
  Base64.b64encode [x4d] = lit "TQ==".
Proof. repeat split; reflexivity. Qed.

(** C1.  For every readable file, [encode_file_b64] returns a string whose
    base64 decoding is exactly the content of the file; the call changes
    nothing in the world. *)
Lemma reads_files os w path data :
  reads os w path = Some data ->
  hidden os path = None /\ files w path = Some data.
Proof.
  unfold reads. destruct (hidden os path); [discriminate|]. auto.
Qed.

Lemma read_bytes_reads os w path data :
  reads os w path = Some data -> read_bytes os path w = (inr data, w).
Proof.
  intros H. destruct (reads_files _ _ _ _ H) as [Hh Hf].
  unfold read_bytes. rewrite Hh, Hf. reflexivity.
Qed.

Theorem encode_file_b64_round_trip (os : platform) (w : world) (path : str)
  (data : bytes) :
  reads os w path = Some data ->
  exists s,
    encode_file_b64 os path w = (inr s, w) /\
    Base64.b64decode s = Some data.
Proof.
  intros Hfile. exists (Base64.b64encode data). split.
  - unfold encode_file_b64, bind, ret.
    rewrite (read_bytes_reads _ _ _ _ Hfile). reflexivity.
  - apply Base64Facts.b64decode_b64encode.
Qed.

Lemma encode_file_b64_round_trip_witness :
  let w := World (fun p => if str_eqb p (lit "foto.jpeg")
                            then Some [xff; xd8; xff; xe0; x00]
                            else None) [] in
  reads posix w (lit "foto.jpeg") = Some [xff; xd8; xff; xe0; x00] /\
  exists s,
    encode_file_b64 posix (lit "foto.jpeg") w = (inr s, w) /\
    Base64.b64decode s = Some [xff; xd8; xff; xe0; x00].
Proof.
  split.
  - reflexivity.
  - apply encode_file_b64_round_trip. reflexivity.
Defined.

(** ** The PDF rasteriser *)

Section FitzFacts.

Variable os : platform.
Variable page_content : Type.
Variable parse_pdf : bytes -> option (document page_content).
Variable get_pixmap_png : Z -> page page_content -> bytes.

Lemma set_page_length (doc : document page_content) i p :
  length (set_page doc i p) = length doc.
Proof.
  revert i. induction doc as [|q rest IH]; intros [|i]; cbn; auto.
Qed.

Lemma set_page_other (doc : document page_content) i j p :
  i <> j -> nth_error (set_page doc i p) j = nth_error doc j.
Proof.
  revert i j. induction doc as [|q rest IH]; intros [|i] [|j] Hij; cbn; auto.
  congruence.
Qed.

Lemma skipn_nth_error {A} (l : list A) k x :
  nth_error l k = Some x -> skipn k l = x :: skipn (S k) l.
Proof.
  revert k. induction l as [|a l IH]; intros [|k] H; cbn in *; try discriminate.
  - congruence.
  - apply IH. assumption.
Qed.

(** The loop, started at index [k] with [n] pages to go on a document
    that still agrees with the original from [k] on, appends the images
    of those [n] pages in order. *)
Lemma page_loop_spec (doc : document page_content) dpi rotate_cw total :
  forall n k (cur : document page_content) images w,
    (forall i, k <= i -> nth_error cur i = nth_error doc i) ->
    k + n <= length doc ->
    exists cur' w',
      page_loop get_pixmap_png dpi rotate_cw total (seq k n) cur images w =
        (inr (cur', images ++
                    map (page_image get_pixmap_png dpi rotate_cw) (firstn n (skipn k doc))),
         w') /\
      files w' = files w.
Proof.
  induction n as [|n IH]; intros k cur images w Hcur Hlen.
  - exists cur, w. cbn. rewrite app_nil_r. split; reflexivity.
  - destruct (nth_error doc k) as [p|] eqn:Hp.
    2:{ apply nth_error_None in Hp. lia. }
    cbn [seq page_loop]. rewrite (Hcur k (le_n k)), Hp.
    rewrite (skipn_nth_error doc k p Hp). cbn [firstn map].
    unfold bind at 1. unfold say at 1.
    cbv beta iota.
    match goal with
    | |- context [page_loop _ _ _ _ _ ?c ?im ?w0] =>
        destruct (IH (S k) c im w0) as (cur' & w' & Hrun & Hfiles)
    end.
    + intros i Hi. destruct rotate_cw.
      * rewrite set_page_other by lia. apply Hcur. lia.
      * apply Hcur. lia.
    + lia.
    + exists cur', w'. rewrite Hrun. split.
      * rewrite <- app_assoc. reflexivity.
      * rewrite Hfiles. reflexivity.
Qed.

Lemma pdf_to_images_b64_spec w path data (doc : document page_content)
  dpi rotate_cw :
  reads os w path = Some data ->
  parse_pdf data = Some doc ->
  exists w',
    pdf_to_images_b64 os parse_pdf get_pixmap_png path dpi rotate_cw w =
      (inr (map (page_image get_pixmap_png dpi rotate_cw) doc), w') /\
    files w' = files w.
Proof.
  intros Hfile Hparse.
  destruct (reads_files _ _ _ _ Hfile) as [Hh Hf].
  unfold pdf_to_images_b64, bind at 1. unfold fitz_open.
  rewrite Hh, Hf, Hparse. unfold bind.
  destruct (page_loop_spec doc dpi rotate_cw (length doc)
              (length doc) 0 doc [] w) as (cur' & w' & Hrun & Hfiles).
  - reflexivity.
  - lia.
  - rewrite Hrun. cbn. rewrite firstn_all. exists w'. split; auto.
Qed.

(** C2.  For a file that holds a valid PDF of N pages, the rasteriser
    returns N strings, and the i-th one is the base64 text of the PNG
    rendering of the i-th page (once rotated, when the flag is set). *)
Theorem pdf_to_images_b64_one_per_page
  w path data (doc : document page_content) dpi rotate_cw :
  reads os w path = Some data ->
  parse_pdf data = Some doc ->
  exists images w',
    pdf_to_images_b64 os parse_pdf get_pixmap_png path dpi rotate_cw w =
      (inr images, w') /\
    length images = length doc /\
    forall i p,
      nth_error doc i = Some p ->
      nth_error images i =
        Some (Base64.b64encode
                (get_pixmap_png dpi
                   (if rotate_cw then rotate_cw_page p else p))).
Proof.
  intros Hfile Hparse.
  destruct (pdf_to_images_b64_spec w path data doc dpi rotate_cw Hfile Hparse)
    as (w' & Hrun & _).
  exists (map (page_image get_pixmap_png dpi rotate_cw) doc), w'.
  split; [exact Hrun|]. split.
  - apply length_map.
  - intros i p Hp. rewrite nth_error_map, Hp. reflexivity.
Qed.

(** C3.  With the rotation flag, the image of a page whose rotation is R
    is the rendering of that page with rotation (R + 90) mod 360; the
    rotation step applied twice gives (R + 180) mod 360. *)
Theorem rotate_flag_adds_quarter_turn
  w path data (doc : document page_content) dpi i (p : page page_content) :
  reads os w path = Some data ->
  parse_pdf data = Some doc ->
  nth_error doc i = Some p ->
  (exists images w',
     pdf_to_images_b64 os parse_pdf get_pixmap_png path dpi true w =
       (inr images, w') /\
     nth_error images i =
       Some (Base64.b64encode
               (get_pixmap_png dpi
                  (Page ((rotation p + 90) mod 360) (content p))))) /\
  rotate_cw_page (rotate_cw_page p) =
    Page ((rotation p + 180) mod 360) (content p).
Proof.
  intros Hfile Hparse Hp. split.
  - destruct (pdf_to_images_b64_spec w path data doc dpi true Hfile Hparse)
      as (w' & Hrun & _).
    exists (map (page_image get_pixmap_png dpi true) doc), w'.
    split; [exact Hrun|].
    rewrite nth_error_map, Hp. reflexivity.
  - unfold rotate_cw_page, set_rotation. cbn [rotation content].
    f_equal. rewrite Zplus_mod_idemp_l. f_equal. lia.
Qed.

End FitzFacts.

(** ** Missing input files *)

Section MainFacts.

Variable os : platform.
Variable page_content : Type.
Variable parse_pdf : bytes -> option (document page_content).
Variable get_pixmap_png : Z -> page page_content -> bytes.

Lemma print_missing_spec (l : list str) (w : world) :
  print_missing l w =
    (inr tt,
     World (files w)
           (stdout w ++ map (fun f => Text (lit "    - " ++ f)) l)).
Proof.
  revert w. induction l as [|f l IH]; intros w.
  - cbn. rewrite app_nil_r. destruct w; reflexivity.
  - cbn [print_missing map]. unfold bind, say. rewrite IH.
    unfold print. cbn [files stdout]. rewrite <- app_assoc. reflexivity.
Qed.

Lemma main_with_missing (cfg : config) (w : world) :
  missing os cfg w <> [] ->
  main_with os parse_pdf get_pixmap_png cfg w =
    (inl (SystemExit 1),
     World (files w)
           (stdout w ++
            Text (lit "ERROR: No se encontraron los siguientes archivos:") ::
            map (fun f => Text (lit "    - " ++ f)) (missing os cfg w))).
Proof.
  intros Hmiss. unfold main_with.
  destruct (missing os cfg w) as [|f l] eqn:E; [congruence|].
  unfold bind, say. rewrite print_missing_spec.
  unfold print. cbn [files stdout snd]. rewrite <- app_assoc. reflexivity.
Qed.

(** C5.  When one of the six required files is absent, [main] prints the
    error line followed by the absent files, stops with [sys.exit(1)], so
    the exit status is not zero, and leaves every file as it was: the
    output file is neither created nor overwritten. *)
Theorem main_stops_on_missing_input (w : world) (f : str) :
  In f [lit "26.jpg.jpeg"; lit "credenciales.html";
        lit "T1.pdf"; lit "tp1.pdf"; lit "T2.pdf"; lit "tp2.pdf"] ->
  path_exists os w f = false ->
  let (r, w') := main os parse_pdf get_pixmap_png w in
  r = inl (SystemExit 1) /\
  exit_status r <> 0 /\
  In f (missing os script_config w) /\
  stdout w' =
    stdout w ++
    Text (lit "ERROR: No se encontraron los siguientes archivos:") ::
    map (fun f => Text (lit "    - " ++ f)) (missing os script_config w) /\
  files w' = files w /\
  files w' (lit "index.html") = files w (lit "index.html").
Proof.
  intros Hin Hnone.
  assert (Hmem : In f (missing os script_config w)).
  { unfold missing. apply filter_In. split.
    - exact Hin.
    - rewrite Hnone. reflexivity. }
  unfold main. rewrite main_with_missing.
  - cbn [files stdout exit_status]. repeat split; auto.
  - intros E. rewrite E in Hmem. destruct Hmem.
Qed.

End MainFacts.

Lemma main_stops_on_missing_input_witness :
  let w := World (fun p => if str_eqb p (lit "T2.pdf") then None
                            else Some [x25; x50; x44; x46]) [] in
  In (lit "T2.pdf")
     [lit "26.jpg.jpeg"; lit "credenciales.html";
      lit "T1.pdf"; lit "tp1.pdf"; lit "T2.pdf"; lit "tp2.pdf"] /\
  path_exists posix w (lit "T2.pdf") = false /\
  let (r, w') := main posix (fun _ : bytes => Some [Page 0 tt])
                      (fun _ _ => [x89; x50; x4e; x47]) w in
  r = inl (SystemExit 1) /\
  exit_status r <> 0 /\
  In (lit "T2.pdf") (missing posix script_config w) /\
  stdout w' =
    stdout w ++
    Text (lit "ERROR: No se encontraron los siguientes archivos:") ::
    map (fun f => Text (lit "    - " ++ f)) (missing posix script_config w) /\
  files w' = files w /\
  files w' (lit "index.html") = files w (lit "index.html").
Proof.
  intros w.
  assert (Hin : In (lit "T2.pdf")
     [lit "26.jpg.jpeg"; lit "credenciales.html";
      lit "T1.pdf"; lit "tp1.pdf"; lit "T2.pdf"; lit "tp2.pdf"])
    by (cbn; tauto).
  assert (Hnone : path_exists posix w (lit "T2.pdf") = false) by reflexivity.
  split; [exact Hin|]. split; [exact Hnone|].
  exact (main_stops_on_missing_input posix unit
           (fun _ : bytes => Some [Page 0 tt])
           (fun _ _ => [x89; x50; x4e; x47]) w (lit "T2.pdf") Hin Hnone).
Defined.

(** ** Text outside the placeholders *)




(** ** Absent patterns *)

(** C8.  A substitution whose pattern does not occur in the template
    raises nothing and returns the template as it is: the photo
    replacement when the photo reference is absent, the substitution of a
    PDF when its compiled pattern matches nowhere, and the whole assembly
    when nothing occurs. *)
Theorem absent_pattern_is_silent
  (photo_file : str) (names : list str) (photo : bytes)
  (pages : str -> list bytes) (html : str) :
  (contains (photo_src photo_file) html = false ->
   replace_photo photo_file (Base64.b64encode photo) html = html) /\
  (forall n r,
     In n names ->
     compile (object_pattern n) = Some r ->
     search r html = false ->
     substitute_object (sections_for pages names) n html = inr html) /\
  (contains (photo_src photo_file) html = false ->
   (forall n r, In n names -> compile (object_pattern n) = Some r ->
                search r html = false) ->
   assemble photo_file names (Base64.b64encode photo)
     (sections_for pages names) html = inr html).
Proof.
  assert (Hphoto : contains (photo_src photo_file) html = false ->
            replace_photo photo_file (Base64.b64encode photo) html = html).
  { intros H. rewrite replace_photo_eq. apply replace_from_absent. exact H. }
  assert (Hpdf : forall n r, In n names ->
            compile (object_pattern n) = Some r ->
            search r html = false ->
            substitute_object (sections_for pages names) n html = inr html).
  { intros n r Hin Hr Hs. rewrite substitute_object_eq by exact Hin.
    rewrite compile_object_pattern in Hr. injection Hr as <-.
    rewrite sub_from_absent by exact Hs. reflexivity. }
  split; [exact Hphoto|]. split; [exact Hpdf|].
  intros Hp Hall. unfold assemble. rewrite Hphoto by exact Hp.
  assert (H : forall todo, incl todo names ->
            substitute_objects (sections_for pages names) todo html = inr html).
  { induction todo as [|n todo IH]; intros Hincl; [reflexivity|].
    cbn [substitute_objects].
    rewrite (Hpdf n (object_regex n)).
    - apply IH. intros x Hx. apply Hincl. right. exact Hx.
    - apply Hincl. left. reflexivity.
    - apply compile_object_pattern.
    - apply (Hall n).
      + apply Hincl. left. reflexivity.
      + apply compile_object_pattern. }
  apply H. apply incl_refl.
Qed.

Lemma absent_pattern_is_silent_witness :
  let names := pdf_files script_config in
  let pages := fun _ : str => [[x89; x50; x4e; x47]] in
  let html := lit "<h1>CV</h1><object data=" ++ quoted (lit "otro.pdf") ++
              lit ">x</object>" in
  contains (photo_src (photo_file script_config)) html = false /\
  (forall n r, In n names -> compile (object_pattern n) = Some r ->
               search r html = false) /\
  replace_photo (photo_file script_config) (Base64.b64encode [xff; xd8]) html
    = html /\
  substitute_object (sections_for pages names) (lit "T2.pdf") html = inr html /\
  assemble (photo_file script_config) names (Base64.b64encode [xff; xd8])
    (sections_for pages names) html = inr html.
Proof.
  intros names pages html.
  assert (Hp : contains (photo_src (photo_file script_config)) html = false)
    by reflexivity.
  assert (Hall : forall n r, In n names -> compile (object_pattern n) = Some r ->
                             search r html = false).
  { intros n r [<-|[<-|[<-|[<-|[]]]]] Hr;
      vm_compute in Hr; injection Hr as <-; vm_compute; reflexivity. }
  destruct (absent_pattern_is_silent (photo_file script_config) names
              [xff; xd8] pages html) as (H1 & H2 & H3).
  split; [exact Hp|]. split; [exact Hall|]. split; [exact (H1 Hp)|].
  split.
  - apply (H2 (lit "T2.pdf") (object_regex (lit "T2.pdf"))).
    + cbn; tauto.
    + apply compile_object_pattern.
    + vm_compute. reflexivity.
  - exact (H3 Hp Hall).
Defined.

Lemma pdf_to_images_b64_one_per_page_witness :
  let parse_pdf := fun _ : bytes => Some [Page 0 tt; Page 90 tt] in
  let get_pixmap_png :=
    fun (dpi : Z) (p : page unit) =>
      if Z.eqb (rotation p) 90 then [x89; x50] else [x89; x50; x4e] in
  let w := World (fun p => if str_eqb p (lit "T1.pdf")
                            then Some [x25; x50; x44; x46] else None) [] in
  reads posix w (lit "T1.pdf") = Some [x25; x50; x44; x46] /\
  parse_pdf [x25; x50; x44; x46] = Some [Page 0 tt; Page 90 tt] /\
  exists images w',
    pdf_to_images_b64 posix parse_pdf get_pixmap_png (lit "T1.pdf") 200%Z
      false w =
      (inr images, w') /\
    length images = length [Page 0 tt; Page 90 tt] /\
    forall i p,
      nth_error [Page 0 tt; Page 90 tt] i = Some p ->
      nth_error images i =
        Some (Base64.b64encode
                (get_pixmap_png 200%Z (if false then rotate_cw_page p else p))).
Proof.
  intros parse_pdf get_pixmap_png w.
  split; [reflexivity|]. split; [reflexivity|].
  apply (pdf_to_images_b64_one_per_page posix unit parse_pdf get_pixmap_png
           w (lit "T1.pdf") [x25; x50; x44; x46]); reflexivity.
Defined.

Lemma rotate_flag_adds_quarter_turn_witness :
  let parse_pdf := fun _ : bytes => Some [Page 0 tt; Page 270 tt] in
  let get_pixmap_png :=
    fun (dpi : Z) (p : page unit) =>
      if Z.eqb (rotation p) 0 then [x89; x50] else [x89; x50; x4e] in
  let w := World (fun p => if str_eqb p (lit "T2.pdf")
                            then Some [x25; x50; x44; x46] else None) [] in
  reads posix w (lit "T2.pdf") = Some [x25; x50; x44; x46] /\
  parse_pdf [x25; x50; x44; x46] = Some [Page 0 tt; Page 270 tt] /\
  nth_error [Page 0 tt; Page 270 tt] 1 = Some (Page 270 tt) /\
  (exists images w',
     pdf_to_images_b64 posix parse_pdf get_pixmap_png (lit "T2.pdf") 200%Z
       true w =
       (inr images, w') /\
     nth_error images 1 =
       Some (Base64.b64encode
               (get_pixmap_png 200%Z
                  (Page ((rotation (Page 270 tt) + 90) mod 360)
                        (content (Page 270 tt)))))) /\
  rotate_cw_page (rotate_cw_page (Page 270 tt)) =
    Page ((rotation (Page 270 tt) + 180) mod 360) (content (Page 270 tt)).
Proof.
  intros parse_pdf get_pixmap_png w.
  split; [reflexivity|]. split; [reflexivity|]. split; [reflexivity|].
  apply (rotate_flag_adds_quarter_turn posix unit parse_pdf get_pixmap_png
           w (lit "T2.pdf") [x25; x50; x44; x46] [Page 0 tt; Page 270 tt]
           200%Z 1 (Page 270 tt)); reflexivity.
Defined.

(** ** Every occurrence is replaced *)

(** C9, as the code has it.  Each substitution replaces every occurrence
    the scan finds: the template is the kept parts joined by the k
    occurrences, the output is the same kept parts joined by k copies of
    the inlined data.  No occurrence is left after the photo replacement
    unless the base64 text of the photo ends in [src=] (for a file name
    without double quote that neither ends in [src=] nor starts with
    [data:]), and none after the substitution of a PDF that has at least
    one page (for a file name without [<], [>], double quote or space). *)
Theorem substitutions_replace_every_occurrence
  (pf : str) (photo : bytes) (names : list str)
  (pages : str -> list bytes) (n : str) (html : str) :
  In n names ->
  plain_name n = true ->
  (exists gaps,
     length gaps = S (str_count (photo_src pf) html) /\
     html = join (photo_src pf) gaps /\
     replace_photo pf (Base64.b64encode photo) html =
       join (photo_data_uri (Base64.b64encode photo)) gaps /\
     Forall (fun g => contains (photo_src pf) g = false) gaps) /\
  (no_dq pf = true ->
   ends_with (lit "src=") pf = false ->
   starts_with (lit "data:") pf = false ->
   ends_with (lit "src=") (Base64.b64encode photo) = false ->
   str_count (photo_src pf)
     (replace_photo pf (Base64.b64encode photo) html) = 0) /\
  (exists gaps ms,
     length ms = count_matches (object_regex n) 0 html /\
     length gaps = S (length ms) /\
     html = weave gaps ms /\
     Forall (is_placeholder n) ms /\
     substitute_object (sections_for pages names) n html =
       inr (join (fragment_for pages n) gaps)) /\
  (pages n <> [] ->
   exists out,
     substitute_object (sections_for pages names) n html = inr out /\
     count_matches (object_regex n) 0 out = 0).
Proof.
  intros Hin Hn. destruct (plain_name_spec n Hn) as (Hgt & _).
  split; [|split; [|split]].
  - rewrite replace_photo_eq. apply replace_from_join. discriminate.
  - intros H1 H2 H3 H4. apply count_from_absent.
    apply replace_photo_clean; assumption.
  - destruct (sub_from_weave n (fragment_for pages n) html Hgt)
      as (gaps & ms & H1 & H2 & H3 & H4 & H5).
    exists gaps, ms. rewrite substitute_object_eq by exact Hin.
    rewrite H5. auto.
  - intros Hp. eexists. split.
    + apply substitute_object_eq. exact Hin.
    + apply count_matches_absent. apply sub_leaves_no_placeholder; assumption.
Qed.

Lemma substitutions_replace_every_occurrence_witness :
  let pf := photo_file script_config in
  let names := pdf_files script_config in
  let pages := fun _ : str => [[x89; x50; x4e; x47]] in
  let n := lit "T1.pdf" in
  let html := lit "<img src=" ++ quoted pf ++ lit "><object data=" ++
              quoted n ++ lit ">a</object><object data=" ++ quoted n ++
              lit ">b</object>" in
  In n names /\ plain_name n = true /\
  (exists gaps,
     length gaps = S (str_count (photo_src pf) html) /\
     html = join (photo_src pf) gaps /\
     replace_photo pf (Base64.b64encode [xff; xd8]) html =
       join (photo_data_uri (Base64.b64encode [xff; xd8])) gaps /\
     Forall (fun g => contains (photo_src pf) g = false) gaps) /\
  str_count (photo_src pf)
    (replace_photo pf (Base64.b64encode [xff; xd8]) html) = 0 /\
  (exists gaps ms,
     length ms = count_matches (object_regex n) 0 html /\
     length gaps = S (length ms) /\
     html = weave gaps ms /\
     Forall (is_placeholder n) ms /\
     substitute_object (sections_for pages names) n html =
       inr (join (fragment_for pages n) gaps)) /\
  (exists out,
     substitute_object (sections_for pages names) n html = inr out /\
     count_matches (object_regex n) 0 out = 0).
Proof.
  intros pf names pages n html.
  assert (Hin : In n names) by (cbn; tauto).
  assert (Hn : plain_name n = true) by reflexivity.
  destruct (substitutions_replace_every_occurrence pf [xff; xd8] names pages
              n html Hin Hn) as (H1 & H2 & H3 & H4).
  split; [exact Hin|]. split; [exact Hn|]. split; [exact H1|].
  split; [apply H2; reflexivity|]. split; [exact H3|].
  apply H4. discriminate.
Defined.

(** C9 fails as stated: with a photo whose bytes are B2 B7 the base64 text
    is [src=], and the end of the data URI together with the text that
    follows it in the template (the file name and a double quote) forms a
    new occurrence of the photo reference. *)
Lemma an_occurrence_remains_after_replace :
  let pf := photo_file script_config in
  let html := photo_src pf ++ lit "26.jpg.jpeg" ++ [dq] in
  Base64.b64encode [xb2; xb7] = lit "src=" /\
  str_count (photo_src pf) html = 1 /\
  replace_photo pf (Base64.b64encode [xb2; xb7]) html =
    lit "src=" ++ quoted (lit "data:image/jpeg;base64,src=") ++
    lit "26.jpg.jpeg" ++ [dq] /\
  str_count (photo_src pf)
    (replace_photo pf (Base64.b64encode [xb2; xb7]) html) <> 0.
Proof.
  repeat split; try reflexivity. vm_compute. discriminate.
Qed.

(** The condition on the number of pages in C9 is needed: the fragment of
    a PDF without pages is empty, and the text around a replaced
    placeholder can then close up into a new one. *)
Example empty_fragment_closes_up :
  let names := pdf_files script_config in
  let pages := fun _ : str => @nil bytes in
  let n := lit "T1.pdf" in
  let html := lit "<obj<object data=" ++ quoted n ++
              lit ">x</object>ect data=" ++ quoted n ++ lit ">y</object>" in
  substitute_object (sections_for pages names) n html =
    inr (lit "<object data=" ++ quoted n ++ lit ">y</object>") /\
  count_matches (object_regex n) 0
    (lit "<object data=" ++ quoted n ++ lit ">y</object>") = 1.
Proof. split; vm_compute; reflexivity. Qed.

(** ** The photo scenario *)




(** ** The one-page PDF scenario *)

Lemma scenario_substitution frag a z :
  contains open_tag a = false -> contains open_tag z = false ->
  sub_from (object_regex (lit "A.pdf")) frag 0
    (a ++ (lit "<object data=" ++ quoted (lit "A.pdf") ++ lit ">x</object>")
       ++ z) =
  a ++ frag ++ z.
Proof.
  intros Ha Hz.
  change ((lit "<object data=" ++ quoted (lit "A.pdf") ++ lit ">x</object>")
          ++ z)
    with ("<"%char ::
          (lit "object data=" ++ quoted (lit "A.pdf") ++ lit ">x</object>")
          ++ z).
  rewrite (sub_tag_stop "<") by (reflexivity || exact Ha).
  change ("<"%char ::
          (lit "object data=" ++ quoted (lit "A.pdf") ++ lit ">x</object>")
          ++ z)
    with ((lit "<object data=" ++ quoted (lit "A.pdf") ++ lit ">x</object>")
          ++ z).
  rewrite sub_from_hit with (rest := z).
  - rewrite sub_from_absent by (apply search_needs_open_tag; exact Hz).
    reflexivity.
  - discriminate.
  - rewrite match_object by reflexivity.
    change (lit "<object data=" ++ quoted (lit "A.pdf") ++ lit ">x</object>")
      with (open_tag ++ (" "%char :: data_attr (lit "A.pdf")) ++ ">"%char ::
            lit "x" ++ close_tag).
    rewrite <- !app_assoc. cbn [app].
    rewrite <- !app_assoc.
    change (open_tag ++ " "%char :: data_attr (lit "A.pdf") ++ ">"%char ::
            lit "x" ++ close_tag ++ z)
      with (open_tag ++ (" "%char :: data_attr (lit "A.pdf")) ++ ">"%char ::
            (lit "x" ++ close_tag ++ z)).
    rewrite object_match_block by reflexivity.
    reflexivity.
Qed.

Lemma one_tag_between a R z :
  contains (lit "<img") a = false -> contains open_tag a = false ->
  no_lt R = true ->
  contains (lit "<img") z = false -> contains open_tag z = false ->
  str_count (lit "<img") (a ++ (lit "<img" ++ R) ++ z) = 1 /\
  contains (lit "<object") (a ++ (lit "<img" ++ R) ++ z) = false.
Proof.
  intros Hai Hao HR Hzi Hzo. split.
  - unfold str_count.
    change (count_from ("<"%char :: lit "img") 0
              (a ++ "<"%char :: (lit "img" ++ R) ++ z) = 1).
    rewrite (count_tag_stop "<") by (reflexivity || exact Hai).
    change (count_from (lit "<img") 0 (lit "<img" ++ R ++ z) = 1).
    rewrite count_from_hit by discriminate.
    change (lit "<img") with ("<"%char :: lit "img").
    rewrite count_skip_no_lt by exact HR.
    rewrite count_from_absent by exact Hzi. reflexivity.
  - change (contains ("<"%char :: lit "object")
              (a ++ "<"%char :: (lit "img" ++ R) ++ z) = false).
    rewrite (contains_tag_stop "<") by (reflexivity || exact Hao).
    change (contains ("<"%char :: lit "object")
              (("<"%char :: lit "img") ++ R ++ z) = false).
    change (contains ("<"%char :: lit "object")
              (("<"%char :: lit "img") ++ R ++ z))
      with (contains ("<"%char :: lit "object") (lit "img" ++ R ++ z)).
    rewrite (contains_tag_skip (lit "object") (lit "img")) by reflexivity.
    rewrite contains_tag_skip by exact HR. exact Hzo.
Qed.

(** C6, as the code has it.  With the one-page PDF A.pdf and a template
    made of the placeholder of the scenario (an object element whose data
    attribute is A.pdf and whose content is x) between two texts that
    contain no other [<img] and no other [<object] (and a photo file name
    without [<]), the assembled output is the two texts (with the photo
    replaced in them) around one [<img>] tag: it contains exactly one
    [<img], the source of that tag starts with [data:image/png;base64,],
    and the output does not contain [<object]. *)
Theorem one_page_pdf_scenario
  (pf : str) (photo page : bytes) (pre post : str) :
  no_lt pf = true ->
  contains (lit "<img") pre = false -> contains (lit "<object") pre = false ->
  contains (lit "<img") post = false ->
  contains (lit "<object") post = false ->
  let names := [lit "A.pdf"] in
  let pages := fun _ : str => [page] in
  let html := pre ++ lit "<object data=" ++ quoted (lit "A.pdf") ++
              lit ">x</object>" ++ post in
  let tag := img_tag 0 (Base64.b64encode page) in
  exists out,
    assemble pf names (Base64.b64encode photo) (sections_for pages names) html
      = inr out /\
    out = replace_photo pf (Base64.b64encode photo) pre ++ tag ++
          replace_photo pf (Base64.b64encode photo) post /\
    str_count (lit "<img") out = 1 /\
    starts_with (lit "<img src=" ++ dq :: lit "data:image/png;base64,") tag
      = true /\
    contains (lit "<object") out = false.
Proof.
  intros Hpf Hpi Hpo Hqi Hqo names pages html tag.
  set (b := Base64.b64encode photo).
  assert (Hold : existsb (Ascii.eqb "<") (photo_src pf) = false).
  { unfold photo_src, quoted, no_lt in *. apply negb_true_iff in Hpf.
    cbn [lit list_ascii_of_string app existsb]. rewrite existsb_app, Hpf.
    reflexivity. }
  assert (Hpi' : contains (lit "<img") (replace_photo pf b pre) = false)
    by (apply (replace_photo_no_tag (lit "img"));
        [reflexivity | exact Hpi]).
  assert (Hpo' : contains open_tag (replace_photo pf b pre) = false)
    by (apply (replace_photo_no_tag (lit "object"));
        [reflexivity | exact Hpo]).
  assert (Hqi' : contains (lit "<img") (replace_photo pf b post) = false)
    by (apply (replace_photo_no_tag (lit "img"));
        [reflexivity | exact Hqi]).
  assert (Hqo' : contains open_tag (replace_photo pf b post) = false)
    by (apply (replace_photo_no_tag (lit "object"));
        [reflexivity | exact Hqo]).
  (* the photo replacement leaves the placeholder as it is *)
  assert (H1 : replace_photo pf b html =
               replace_photo pf b pre ++
               (lit "<object data=" ++ quoted (lit "A.pdf") ++ lit ">x</object>") ++
               replace_photo pf b post).
  { unfold html. rewrite !replace_photo_eq.
    change (pre ++ lit "<object data=" ++ quoted (lit "A.pdf") ++
            lit ">x</object>" ++ post)
      with (pre ++ "<"%char ::
            (lit "object data=" ++ quoted (lit "A.pdf") ++ lit ">x") ++
            "<"%char :: lit "/object>" ++ post).
    rewrite !replace_split_at by (discriminate || exact Hold).
    change (photo_src pf) with ("s"%char :: tl (photo_src pf)).
    rewrite (replace_skip_prefix "s" _ _ (lit "/object>") post) by reflexivity.
    rewrite <- (app_nil_r (lit "object data=" ++ quoted (lit "A.pdf") ++ lit ">x"))
      at 1.
    rewrite replace_skip_prefix by reflexivity.
    cbn [replace_from]. rewrite <- !app_assoc. reflexivity. }
  exists (replace_photo pf b pre ++ tag ++ replace_photo pf b post).
  assert (Hfrag : fragment_for pages (lit "A.pdf") = tag) by reflexivity.
  destruct (one_tag_between (replace_photo pf b pre) (skipn 4 tag)
              (replace_photo pf b post) Hpi' Hpo'
              (img_tag_rest_no_lt 0 page) Hqi' Hqo') as [Hone Hnone].
  split; [|split; [reflexivity|split; [|split]]].
  - unfold assemble. rewrite H1. cbn [names substitute_objects].
    rewrite substitute_object_eq by (left; reflexivity).
    rewrite Hfrag.
    rewrite scenario_substitution by assumption. reflexivity.
  - exact Hone.
  - reflexivity.
  - exact Hnone.
Qed.

Lemma one_page_pdf_scenario_witness :
  let pf := photo_file script_config in
  let pre := lit "<h1>Certificado</h1><p>" in
  let post := lit "</p><p>fin</p>" in
  let names := [lit "A.pdf"] in
  let pages := fun _ : str => [[x89; x50; x4e; x47]] in
  let html := pre ++ lit "<object data=" ++ quoted (lit "A.pdf") ++
              lit ">x</object>" ++ post in
  let tag := img_tag 0 (Base64.b64encode [x89; x50; x4e; x47]) in
  no_lt pf = true /\
  contains (lit "<img") pre = false /\ contains (lit "<object") pre = false /\
  contains (lit "<img") post = false /\
  contains (lit "<object") post = false /\
  exists out,
    assemble pf names (Base64.b64encode [xff; xd8])
      (sections_for pages names) html = inr out /\
    out = replace_photo pf (Base64.b64encode [xff; xd8]) pre ++ tag ++
          replace_photo pf (Base64.b64encode [xff; xd8]) post /\
    str_count (lit "<img") out = 1 /\
    starts_with (lit "<img src=" ++ dq :: lit "data:image/png;base64,") tag
      = true /\
    contains (lit "<object") out = false.
Proof.
  intros pf pre post names pages html tag.
  split; [reflexivity|]. split; [reflexivity|]. split; [reflexivity|].
  split; [reflexivity|]. split; [reflexivity|].
  exact (one_page_pdf_scenario pf [xff; xd8] [x89; x50; x4e; x47] pre post
           eq_refl eq_refl eq_refl eq_refl eq_refl).
Defined.

(** The condition on the name of the photo is needed: a reference to a
    photo whose name holds markup can span the placeholder. *)
Example photo_name_with_markup_spans_the_placeholder :
  let pf := lit "a><object data=" ++ quoted (lit "A.pdf") ++
            lit ">x</object><p title=" ++ [dq] ++ lit "b" in
  let pre := lit "<p src=" ++ [dq] ++ lit "a>" in
  let post := lit "<p title=" ++ [dq] ++ lit "b" ++ [dq] ++ lit ">" in
  let html := pre ++ lit "<object data=" ++ quoted (lit "A.pdf") ++
              lit ">x</object>" ++ post in
  contains (lit "<img") (pre ++ post) = false /\
  contains (lit "<object") (pre ++ post) = false /\
  exists out,
    assemble pf [lit "A.pdf"] (Base64.b64encode [xff; xd8])
      (sections_for (fun _ => [[x89; x50; x4e; x47]]) [lit "A.pdf"]) html
      = inr out /\
    str_count (lit "<img") out = 0.
Proof.
  split; [reflexivity|]. split; [reflexivity|].
  eexists. split; vm_compute; reflexivity.
Qed.

(** C6 fails as stated for a template that merely contains the
    placeholder: any other [<img>] tag of the template is kept, so the
    output has more than one. *)
Lemma other_tags_are_kept :
  let pf := photo_file script_config in
  let names := [lit "A.pdf"] in
  let pages := fun _ : str => [[x89; x50; x4e; x47]] in
  let placeholder := lit "<object data=" ++ quoted (lit "A.pdf") ++
                     lit ">x</object>" in
  let html := lit "<img src=" ++ quoted (lit "logo.png") ++ lit ">" ++
              placeholder in
  contains placeholder html = true /\
  exists out,
    assemble pf names (Base64.b64encode [xff; xd8])
      (sections_for pages names) html = inr out /\
    str_count (lit "<img") out = 2.
Proof.
  split; [reflexivity|]. eexists. split; [vm_compute; reflexivity|].
  vm_compute. reflexivity.
Qed.

(** ** The order of the substitutions *)




(** ** The steps of [main] *)

Lemma substitute_objects_total pages names html :
  forall todo, incl todo names ->
    exists out,
      substitute_objects (sections_for pages names) todo html = inr out.
Proof.
  intros todo. revert html. induction todo as [|n todo IH]; intros html Hincl.
  - exists html. reflexivity.
  - cbn [substitute_objects].
    rewrite substitute_object_eq by (apply Hincl; left; reflexivity).
    apply IH. intros x Hx. apply Hincl. right. exact Hx.
Qed.

Lemma say_bind {A} (l : line) (k : M A) (w : world) :
  (say l ;;; k) w = k (print l w).
Proof. reflexivity. Qed.

(** * Further properties of the code *)

(** ** The file encoder *)

Lemma encode_N_length (bs : list N) :
  length (Base64.encode_N bs) = 4 * ((length bs + 2) / 3).
Proof.
  induction bs as [|a|a b|a b c rest IH] using list_ind3;
    try reflexivity.
  cbn [Base64.encode_N length]. rewrite IH.
  replace (S (S (S (length rest))) + 2) with ((length rest + 2) + 1 * 3)
    by lia.
  rewrite Nat.div_add by discriminate. lia.
Qed.

Lemma forallb_rules_out {A} (P Q : A -> bool) l :
  (forall x, P x = true -> Q x = false) ->
  forallb P l = true -> existsb Q l = false.
Proof.
  intros HPQ. induction l as [|x l IH]; [reflexivity|].
  cbn [forallb existsb]. intros H. apply andb_true_iff in H.
  rewrite (HPQ x (proj1 H)), (IH (proj2 H)). reflexivity.
Qed.

Lemma is_b64_harmless c :
  is_b64 c = true ->
  existsb (Ascii.eqb c) [dq; "<"; ">"; "\"]%char = false.
Proof.
  destruct c as [[] [] [] [] [] [] [] []]; vm_compute; congruence.
Qed.

(** X1.  The text [encode_file_b64] returns for a file of n bytes has
    4 * ceil(n / 3) characters, all of them letters, digits, [+], [/] or
    [=]; so it holds no double quote, angle bracket or backslash, and is
    empty exactly when the file is. *)
Theorem encode_file_b64_text_shape (os : platform) (w : world) (path : str)
  (data : bytes) :
  reads os w path = Some data ->
  exists s,
    encode_file_b64 os path w = (inr s, w) /\
    length s = 4 * ((length data + 2) / 3) /\
    forallb is_b64 s = true /\
    existsb (fun c => existsb (Ascii.eqb c) [dq; "<"; ">"; "\"]%char) s
      = false /\
    (s = [] <-> data = []).
Proof.
  intros Hfile. exists (Base64.b64encode data).
  split; [|split; [|split; [|split]]].
  - unfold encode_file_b64, bind.
    rewrite (read_bytes_reads _ _ _ _ Hfile). reflexivity.
  - unfold Base64.b64encode. rewrite encode_N_length, length_map.
    reflexivity.
  - apply b64encode_chars.
  - apply (forallb_rules_out is_b64); [apply is_b64_harmless|].
    apply b64encode_chars.
  - split.
    + intros H. apply (f_equal (@length ascii)) in H.
      unfold Base64.b64encode in H.
      rewrite encode_N_length, length_map in H. cbn [length] in H.
      destruct data as [|x data]; [reflexivity|]. exfalso.
      cbn [length] in H.
      assert (1 <= (S (length data) + 2) / 3).
      { apply Nat.div_le_lower_bound; lia. }
      lia.
    + intros ->. reflexivity.
Qed.

Lemma encode_file_b64_text_shape_witness :
  let w := World (fun p => if str_eqb p (lit "foto.jpeg")
                           then Some [xff; xd8; xff; xe0]
                           else None) [] in
  reads posix w (lit "foto.jpeg") = Some [xff; xd8; xff; xe0] /\
  exists s,
    encode_file_b64 posix (lit "foto.jpeg") w = (inr s, w) /\
    length s = 4 * ((length [xff; xd8; xff; xe0] + 2) / 3) /\
    forallb is_b64 s = true /\
    existsb (fun c => existsb (Ascii.eqb c) [dq; "<"; ">"; "\"]%char) s
      = false /\
    (s = [] <-> [xff; xd8; xff; xe0] = []).
Proof.
  intros w. split; [reflexivity|].
  apply (encode_file_b64_text_shape posix w (lit "foto.jpeg")
           [xff; xd8; xff; xe0]).
  reflexivity.
Defined.

(** ** The rasteriser, and the steps of a run of [main] *)

Lemma sections_for_from pages1 pages2 names :
  (forall n, In n names -> pages1 n = pages2 n) ->
  forall d,
    fold_left (fun d n => dict_set d n (fragment_for pages1 n)) names d =
    fold_left (fun d n => dict_set d n (fragment_for pages2 n)) names d.
Proof.
  induction names as [|n names IH]; intros H d; [reflexivity|].
  cbn [fold_left]. unfold fragment_for at 2 4.
  rewrite (H n (or_introl eq_refl)).
  apply IH. intros x Hx. apply H. right. exact Hx.
Qed.

Section RunFacts.

Variable os : platform.
Variable page_content : Type.
Variable parse_pdf : bytes -> option (document page_content).
Variable get_pixmap_png : Z -> page page_content -> bytes.

Lemma page_loop_run (doc : document page_content) dpi rotate_cw total :
  forall n k (cur : document page_content) images w,
    (forall i, k <= i -> nth_error cur i = nth_error doc i) ->
    k + n <= length doc ->
    exists cur',
      page_loop get_pixmap_png dpi rotate_cw total (seq k n) cur images w =
        (inr (cur',
              images ++ map (page_image get_pixmap_png dpi rotate_cw)
                            (firstn n (skipn k doc))),
         World (files w) (stdout w ++ map (page_line total) (seq k n))).
Proof.
  induction n as [|n IH]; intros k cur images w Hcur Hlen.
  - exists cur. cbn. rewrite !app_nil_r. destruct w; reflexivity.
  - destruct (nth_error doc k) as [p|] eqn:Hp.
    2:{ apply nth_error_None in Hp. lia. }
    cbn [seq page_loop]. rewrite (Hcur k (le_n k)), Hp.
    rewrite (skipn_nth_error doc k p Hp). cbn [firstn map].
    unfold bind at 1. unfold say at 1.
    cbv beta iota.
    match goal with
    | |- context [page_loop _ _ _ _ _ ?c ?im ?w0] =>
        destruct (IH (S k) c im w0) as (cur' & Hrun)
    end.
    + intros i Hi. destruct rotate_cw.
      * rewrite set_page_other by lia. apply Hcur. lia.
      * apply Hcur. lia.
    + lia.
    + exists cur'. rewrite Hrun. unfold print. cbn [files stdout].
      rewrite <- !app_assoc. reflexivity.
Qed.

Lemma pdf_to_images_b64_run w path data (doc : document page_content)
  dpi rotate_cw :
  reads os w path = Some data ->
  parse_pdf data = Some doc ->
  pdf_to_images_b64 os parse_pdf get_pixmap_png path dpi rotate_cw w =
    (inr (map (page_image get_pixmap_png dpi rotate_cw) doc),
     World (files w) (stdout w ++ page_lines (length doc))).
Proof.
  intros Hfile Hparse.
  destruct (reads_files _ _ _ _ Hfile) as [Hh Hf].
  unfold pdf_to_images_b64, bind at 1. unfold fitz_open.
  rewrite Hh, Hf, Hparse. unfold bind.
  destruct (page_loop_run doc dpi rotate_cw (length doc)
              (length doc) 0 doc [] w) as (cur' & Hrun).
  - reflexivity.
  - lia.
  - rewrite Hrun. cbn. rewrite firstn_all. reflexivity.
Qed.

Lemma pdf_to_images_b64_fails w path e dpi rotate_cw :
  open_error os parse_pdf w path = Some e ->
  pdf_to_images_b64 os parse_pdf get_pixmap_png path dpi rotate_cw w =
    (inl e, w).
Proof.
  unfold open_error, pdf_to_images_b64, bind, fitz_open.
  destruct (hidden os path); [intros [= <-]; reflexivity|].
  destruct (files w path) as [data|].
  - destruct (parse_pdf data); [discriminate|]. intros [= <-]. reflexivity.
  - intros [= <-]. reflexivity.
Qed.

(** X2.  The rasteriser in closed form.  On a missing file, or on one
    that does not open as a document (a directory or an unreadable file
    among them), it raises before anything is printed and the world is as
    before.  On a document it returns the images of the pages in order
    and prints one progress line per page, numbered from 1 and showing the
    number of pages; on a document without pages it returns the empty list
    and prints nothing.  No file is changed, and the rotations it sets on
    the pages do not outlive the call. *)
Theorem pdf_to_images_b64_closed_form (w : world) (path : str) (dpi : Z)
  (rotate_cw : bool) :
  pdf_to_images_b64 os parse_pdf get_pixmap_png path dpi rotate_cw w =
  match hidden os path, files w path with
  | Some _, _ => (inl (FileDataError path), w)
  | None, None => (inl (FileNotFoundError path), w)
  | None, Some data =>
      match parse_pdf data with
      | None => (inl (FileDataError path), w)
      | Some doc =>
          (inr (map (fun p =>
                       Base64.b64encode
                         (get_pixmap_png dpi
                            (if rotate_cw then rotate_cw_page p else p)))
                    doc),
           World (files w)
                 (stdout w ++
                  map (fun i =>
                         Text (lit "    Pagina " ++ str_of_nat (i + 1) ++
                               lit "/" ++ str_of_nat (length doc) ++
                               lit " convertida"))
                      (seq 0 (length doc))))
      end
  end.
Proof.
  destruct (hidden os path) as [size|] eqn:Hh.
  { apply pdf_to_images_b64_fails. unfold open_error. rewrite Hh.
    reflexivity. }
  destruct (files w path) as [data|] eqn:Hfile.
  - destruct (parse_pdf data) as [doc|] eqn:Hparse.
    + apply (pdf_to_images_b64_run w path data doc dpi rotate_cw);
        [|exact Hparse].
      unfold reads. rewrite Hh. exact Hfile.
    + apply pdf_to_images_b64_fails. unfold open_error.
      rewrite Hh, Hfile, Hparse. reflexivity.
  - apply pdf_to_images_b64_fails. unfold open_error.
    rewrite Hh, Hfile. reflexivity.
Qed.

(** The loop of [main] over the PDFs, and the runs of [main]. *)
Variable cfg : config.

Lemma open_error_none w n :
  open_error os parse_pdf w n = None ->
  exists data doc, reads os w n = Some data /\ parse_pdf data = Some doc.
Proof.
  unfold open_error, reads. destruct (hidden os n); [discriminate|].
  destruct (files w n) as [data|]; [|discriminate].
  destruct (parse_pdf data) as [doc|] eqn:E; [|discriminate].
  intros _. exists data, doc. split; [reflexivity | exact E].
Qed.

Lemma first_error_none w names :
  first_error os parse_pdf w names = None <->
  forall n, In n names ->
    exists data doc, reads os w n = Some data /\ parse_pdf data = Some doc.
Proof.
  induction names as [|n names IH]; cbn [first_error].
  - split; [intros _ x [] | reflexivity].
  - destruct (open_error os parse_pdf w n) as [e|] eqn:E.
    + split; [discriminate|]. intros H.
      destruct (H n (or_introl eq_refl)) as (data & doc & Hf & Hp).
      destruct (reads_files _ _ _ _ Hf) as [Hh Hf'].
      unfold open_error in E. rewrite Hh, Hf', Hp in E. discriminate.
    + rewrite IH. split.
      * intros H x [<-|Hx]; [apply open_error_none, E | apply H, Hx].
      * intros H x Hx. apply H. right. exact Hx.
Qed.

Lemma reads_same_files w w0 n :
  files w = files w0 -> reads os w n = reads os w0 n.
Proof. intros H. unfold reads. rewrite H. reflexivity. Qed.

(** The loop of [main] over the PDFs, when every one of them opens. *)
Lemma convert_pdfs_run w0 :
  forall names d w,
    files w = files w0 ->
    first_error os parse_pdf w0 names = None ->
    convert_pdfs os parse_pdf get_pixmap_png cfg names d w =
      (inr (fold_left
              (fun d n =>
                 dict_set d n
                   (fragment_for
                      (rendered_pages os parse_pdf get_pixmap_png cfg w0) n))
              names d),
       World (files w0)
             (stdout w ++ flat_map (pdf_lines os parse_pdf w0) names)).
Proof.
  induction names as [|n names IH]; intros d w Hw Hall.
  - cbn. rewrite app_nil_r, <- Hw. destruct w; reflexivity.
  - cbn [first_error] in Hall.
    destruct (open_error os parse_pdf w0 n) as [e|] eqn:E; [discriminate|].
    destruct (open_error_none w0 n E) as (data & doc & Hfile & Hparse).
    cbn [convert_pdfs fold_left flat_map]. unfold bind at 1. unfold say at 1.
    unfold bind at 1.
    rewrite (pdf_to_images_b64_run
               (print (Text (lit "  Procesando " ++ n ++ lit "...")) w)
               n data doc 200%Z (rotate_get (rotate_map cfg) n false)).
    2:{ rewrite <- Hfile. apply reads_same_files. cbn [print files].
        exact Hw. }
    2:{ exact Hparse. }
    rewrite IH.
    + f_equal.
      * f_equal. f_equal. f_equal.
        unfold fragment_for, rendered_pages. rewrite Hfile, Hparse.
        rewrite map_map. reflexivity.
      * cbn [print files stdout]. f_equal.
        unfold pdf_lines, page_count. rewrite Hfile, Hparse.
        rewrite <- !app_assoc. reflexivity.
    + cbn [print files]. exact Hw.
    + exact Hall.
Qed.

(** The same loop, when one of the PDFs does not open: the exception of
    the first such PDF, and no file is touched. *)
Lemma convert_pdfs_fails w0 e :
  forall names d w,
    files w = files w0 ->
    first_error os parse_pdf w0 names = Some e ->
    exists w',
      convert_pdfs os parse_pdf get_pixmap_png cfg names d w = (inl e, w') /\
      files w' = files w0.
Proof.
  induction names as [|n names IH]; intros d w Hw Herr.
  - discriminate.
  - cbn [first_error] in Herr.
    cbn [convert_pdfs]. unfold bind at 1. unfold say at 1. unfold bind at 1.
    destruct (open_error os parse_pdf w0 n) as [e'|] eqn:E.
    + injection Herr as ->.
      rewrite (pdf_to_images_b64_fails _ n e).
      * eexists. split; [reflexivity|]. cbn [print files]. exact Hw.
      * rewrite <- E. unfold open_error. cbn [print files]. rewrite Hw.
        reflexivity.
    + destruct (open_error_none w0 n E) as (data & doc & Hfile & Hparse).
      rewrite (pdf_to_images_b64_run
                 (print (Text (lit "  Procesando " ++ n ++ lit "...")) w)
                 n data doc 200%Z (rotate_get (rotate_map cfg) n false)).
      2:{ rewrite <- Hfile. apply reads_same_files. cbn [print files].
          exact Hw. }
      2:{ exact Hparse. }
      apply IH; [cbn [print files]; exact Hw | exact Herr].
Qed.

Lemma missing_nil_exists w f :
  missing os cfg w = [] -> In f (required cfg) -> path_exists os w f = true.
Proof.
  unfold missing. induction (required cfg) as [|x l IH]; intros H Hin.
  - destruct Hin.
  - cbn [filter] in H.
    destruct (path_exists os w x) eqn:E; cbn [negb] in H; [|discriminate].
    destruct Hin as [<-|Hin]; [exact E | apply IH; assumption].
Qed.

Lemma read_bytes_hidden w f :
  path_exists os w f = true -> reads os w f = None ->
  read_bytes os f w = (inl (OSError f), w).
Proof.
  unfold path_exists, reads, read_bytes.
  destruct (hidden os f); [reflexivity|].
  destruct (files w f); discriminate.
Qed.

Lemma getsize_reads w f data :
  reads os w f = Some data -> getsize os f w = (inr (length data), w).
Proof.
  intros H. destruct (reads_files _ _ _ _ H) as [_ Hf].
  unfold getsize. rewrite Hf. reflexivity.
Qed.

(** A run that stops before the write: it ends as [prepare] says and
    touches no file. *)
Lemma main_with_stops w s :
  prepare os parse_pdf get_pixmap_png cfg w = inl s ->
  exists w',
    main_with os parse_pdf get_pixmap_png cfg w = (inl s, w') /\
    files w' = files w.
Proof.
  unfold prepare.
  destruct (missing os cfg w) as [|f l] eqn:Hmiss.
  2:{ intros [= <-].
      rewrite (main_with_missing os page_content parse_pdf get_pixmap_png
                 cfg w) by (rewrite Hmiss; discriminate).
      eexists. split; reflexivity. }
  assert (Hex : forall f, In f (required cfg) -> path_exists os w f = true)
    by (intros f Hf; apply missing_nil_exists; assumption).
  unfold main_with. rewrite Hmiss. rewrite say_bind.
  unfold bind at 1. unfold encode_file_b64, bind at 1.
  destruct (reads os w (photo_file cfg)) as [photo|] eqn:Hphoto.
  2:{ intros [= <-].
      rewrite (read_bytes_hidden _ (photo_file cfg)).
      - eexists. split; reflexivity.
      - cbn [print files]. apply Hex. left. reflexivity.
      - exact Hphoto. }
  rewrite (read_bytes_reads _ _ _ photo) by exact Hphoto.
  unfold ret at 1.
  unfold bind at 1. rewrite (getsize_reads _ _ photo) by exact Hphoto.
  rewrite !say_bind.
  unfold bind at 1.
  destruct (first_error os parse_pdf w (pdf_files cfg)) as [e|] eqn:Herr.
  { intros [= <-].
    match goal with
    | |- context [convert_pdfs _ _ _ _ _ _ ?w0] =>
        destruct (convert_pdfs_fails w e (pdf_files cfg) [] w0 eq_refl Herr)
          as (w1 & Hrun & Hfiles1)
    end.
    rewrite Hrun. exists w1. split; [reflexivity | exact Hfiles1]. }
  rewrite (convert_pdfs_run w) by (try reflexivity; exact Herr).
  rewrite say_bind.
  unfold bind at 1. unfold read_text, bind at 1.
  destruct (reads os w (html_template cfg)) as [tdata|] eqn:Htpl.
  2:{ intros [= <-].
      rewrite (read_bytes_hidden _ (html_template cfg)).
      - eexists. split; reflexivity.
      - cbn [print files]. apply Hex. right. left. reflexivity.
      - exact Htpl. }
  rewrite (read_bytes_reads _ _ _ tdata) by exact Htpl.
  destruct (utf8_valid tdata) eqn:Hvalid.
  2:{ intros [= <-]. unfold raise at 1. eexists. split; reflexivity. }
  unfold ret at 1. unfold bind at 1.
  fold (sections_for (rendered_pages os parse_pdf get_pixmap_png cfg w)
          (pdf_files cfg)).
  match goal with
  | |- context [assemble ?a ?b ?c ?d ?h] => destruct (assemble a b c d h)
  end; [|discriminate].
  intros [= <-]. unfold lift, raise at 1. eexists. split; reflexivity.
Qed.

(** A run that gets to the write. *)
Lemma main_with_writes w size out :
  prepare os parse_pdf get_pixmap_png cfg w = inr (size, out) ->
  main_with os parse_pdf get_pixmap_png cfg w =
    if read_only os (output_file cfg) then
      (inl (Raised (OSError (output_file cfg))),
       World (files w)
             (stdout w ++ progress_lines os parse_pdf cfg w size))
    else
      let data := encode_text os out in
      if fits os (length data) then
        (inr tt,
         World (fun p => if str_eqb p (output_file cfg)
                         then Some data else files w p)
               (stdout w ++
                success_lines os parse_pdf cfg w size (length data)))
      else
        (inl (Raised (OSError (output_file cfg))),
         World (fun p => if str_eqb p (output_file cfg)
                         then Some (written os data) else files w p)
               (stdout w ++ progress_lines os parse_pdf cfg w size)).
Proof.
  unfold prepare.
  destruct (missing os cfg w) as [|f l] eqn:Hmiss; [|discriminate].
  destruct (reads os w (photo_file cfg)) as [photo|] eqn:Hphoto;
    [|discriminate].
  destruct (first_error os parse_pdf w (pdf_files cfg)) as [e|] eqn:Herr;
    [discriminate|].
  destruct (reads os w (html_template cfg)) as [tdata|] eqn:Htpl;
    [|discriminate].
  destruct (utf8_valid tdata) eqn:Hvalid; [|discriminate].
  destruct (assemble (photo_file cfg) (pdf_files cfg)
              (Base64.b64encode photo)
              (sections_for (rendered_pages os parse_pdf get_pixmap_png cfg w)
                 (pdf_files cfg))
              (universal_newlines (map ascii_of_byte tdata)))
    as [e|out'] eqn:Hout; [discriminate|].
  intros [= <- <-].
  unfold main_with. rewrite Hmiss. rewrite say_bind.
  unfold bind at 1. unfold encode_file_b64, bind at 1.
  rewrite (read_bytes_reads _ _ _ photo) by exact Hphoto.
  unfold ret at 1.
  unfold bind at 1. rewrite (getsize_reads _ _ photo) by exact Hphoto.
  rewrite !say_bind.
  unfold bind at 1.
  rewrite (convert_pdfs_run w) by (try reflexivity; exact Herr).
  rewrite say_bind.
  unfold bind at 1. unfold read_text, bind at 1.
  rewrite (read_bytes_reads _ _ _ tdata) by exact Htpl.
  rewrite Hvalid. unfold ret at 1. unfold bind at 1.
  fold (sections_for (rendered_pages os parse_pdf get_pixmap_png cfg w)
          (pdf_files cfg)).
  rewrite Hout. unfold lift, ret at 1.
  unfold bind at 1. unfold write_text at 1.
  destruct (read_only os (output_file cfg)).
  { unfold print, progress_lines. cbn [files stdout].
    rewrite <- !app_assoc. reflexivity. }
  cbv zeta.
  destruct (fits os (length (encode_text os out'))) eqn:Hfits.
  - assert (Hw : written os (encode_text os out') = encode_text os out').
    { unfold written, fits in *. destruct (room os) as [k|]; [|reflexivity].
      apply Nat.leb_le in Hfits. apply firstn_all2. exact Hfits. }
    rewrite Hw.
    unfold bind at 1. unfold getsize.
    cbn [write_file files]. rewrite str_eqb_refl.
    rewrite !say_bind. unfold say.
    unfold print, write_file. cbn [files stdout].
    unfold success_lines. rewrite <- !app_assoc. reflexivity.
  - unfold print, write_file, progress_lines. cbn [files stdout].
    rewrite <- !app_assoc. reflexivity.
Qed.

Lemma main_with_bad_template w photo tdata :
  missing os cfg w = [] ->
  reads os w (photo_file cfg) = Some photo ->
  first_error os parse_pdf w (pdf_files cfg) = None ->
  reads os w (html_template cfg) = Some tdata ->
  utf8_valid tdata = false ->
  main_with os parse_pdf get_pixmap_png cfg w =
    (inl (Raised (UnicodeDecodeError (html_template cfg))),
     World (files w)
           (stdout w ++ progress_lines os parse_pdf cfg w (length photo))).
Proof.
  intros Hmiss Hphoto Hok Htpl Hbad.
  unfold main_with. rewrite Hmiss. rewrite say_bind.
  unfold bind at 1. unfold encode_file_b64, bind at 1.
  rewrite (read_bytes_reads _ _ _ photo) by exact Hphoto.
  unfold ret at 1.
  unfold bind at 1. rewrite (getsize_reads _ _ photo) by exact Hphoto.
  rewrite !say_bind.
  unfold bind at 1.
  rewrite (convert_pdfs_run w) by (try reflexivity; exact Hok).
  rewrite say_bind.
  unfold bind at 1. unfold read_text, bind at 1.
  rewrite (read_bytes_reads _ _ _ tdata) by exact Htpl.
  rewrite Hbad. unfold raise at 1.
  unfold print, progress_lines. cbn [files stdout].
  rewrite <- !app_assoc. reflexivity.
Qed.

Lemma first_error_kind w names e :
  first_error os parse_pdf w names = Some e ->
  exists n, e = FileDataError n \/ e = FileNotFoundError n.
Proof.
  induction names as [|n names IH]; [discriminate|].
  cbn [first_error]. unfold open_error.
  destruct (hidden os n); [intros [= <-]; eauto|].
  destruct (files w n) as [data|]; [|intros [= <-]; eauto].
  destruct (parse_pdf data); [exact IH | intros [= <-]; eauto].
Qed.

Lemma first_error_agree w w1 names :
  (forall n, In n names -> files w1 n = files w n) ->
  first_error os parse_pdf w1 names = first_error os parse_pdf w names.
Proof.
  induction names as [|n names IH]; intros H; [reflexivity|].
  cbn [first_error]. unfold open_error at 1 2.
  rewrite (H n (or_introl eq_refl)).
  rewrite IH by (intros x Hx; apply H; right; exact Hx). reflexivity.
Qed.

Lemma rendered_pages_agree w w1 n :
  files w1 n = files w n ->
  rendered_pages os parse_pdf get_pixmap_png cfg w1 n =
  rendered_pages os parse_pdf get_pixmap_png cfg w n.
Proof.
  intros H. unfold rendered_pages, reads. rewrite H. reflexivity.
Qed.

(** [prepare] looks at the required files only. *)
Lemma prepare_agrees w w1 :
  (forall f, In f (required cfg) -> files w1 f = files w f) ->
  prepare os parse_pdf get_pixmap_png cfg w1 =
  prepare os parse_pdf get_pixmap_png cfg w.
Proof.
  intros H.
  assert (Hreads : forall f, In f (required cfg) ->
                     reads os w1 f = reads os w f).
  { intros f Hf. unfold reads. rewrite (H f Hf). reflexivity. }
  assert (Hpdf : forall n, In n (pdf_files cfg) -> files w1 n = files w n).
  { intros n Hn. apply H. unfold required. right. right. exact Hn. }
  unfold prepare.
  assert (Hmiss : missing os cfg w1 = missing os cfg w).
  { unfold missing. apply filter_ext_in. intros f Hf.
    unfold path_exists. rewrite (H f Hf). reflexivity. }
  assert (Herr : first_error os parse_pdf w1 (pdf_files cfg) =
                 first_error os parse_pdf w (pdf_files cfg))
    by (apply first_error_agree; exact Hpdf).
  assert (Hsec : sections_for
                   (rendered_pages os parse_pdf get_pixmap_png cfg w1)
                   (pdf_files cfg) =
                 sections_for
                   (rendered_pages os parse_pdf get_pixmap_png cfg w)
                   (pdf_files cfg)).
  { unfold sections_for. apply sections_for_from. intros n Hn.
    apply rendered_pages_agree, Hpdf, Hn. }
  rewrite Hmiss, Herr, Hsec.
  rewrite (Hreads (photo_file cfg)) by (left; reflexivity).
  rewrite (Hreads (html_template cfg)) by (right; left; reflexivity).
  reflexivity.
Qed.

(** On inputs that read, [prepare] gets to the write. *)
Lemma prepare_complete w photo tdata :
  reads os w (photo_file cfg) = Some photo ->
  reads os w (html_template cfg) = Some tdata ->
  utf8_valid tdata = true ->
  first_error os parse_pdf w (pdf_files cfg) = None ->
  exists out,
    assemble (photo_file cfg) (pdf_files cfg) (Base64.b64encode photo)
      (sections_for (rendered_pages os parse_pdf get_pixmap_png cfg w)
                    (pdf_files cfg))
      (universal_newlines (map ascii_of_byte tdata)) = inr out /\
    prepare os parse_pdf get_pixmap_png cfg w = inr (length photo, out).
Proof.
  intros Hphoto Htpl Hvalid Hok.
  destruct (substitute_objects_total
              (rendered_pages os parse_pdf get_pixmap_png cfg w)
              (pdf_files cfg)
              (replace_photo (photo_file cfg) (Base64.b64encode photo)
                 (universal_newlines (map ascii_of_byte tdata)))
              (pdf_files cfg) (incl_refl _)) as (out & Hout).
  exists out. split; [exact Hout|].
  assert (Hmiss : missing os cfg w = []).
  { unfold missing.
    assert (Hall : forall f, In f (required cfg) ->
                     path_exists os w f = true).
    { intros f Hf.
      assert (Hr : exists d, reads os w f = Some d).
      { destruct Hf as [<-|[<-|Hf]]; eauto.
        destruct (proj1 (first_error_none w (pdf_files cfg)) Hok f Hf)
          as (d & _ & Hd & _). eauto. }
      destruct Hr as [d Hd]. destruct (reads_files _ _ _ _ Hd) as [_ Hf'].
      unfold path_exists. rewrite Hf'. reflexivity. }
    induction (required cfg) as [|x l IH]; [reflexivity|].
    cbn [filter]. rewrite (Hall x (or_introl eq_refl)). cbn [negb].
    apply IH. intros f Hf. apply Hall. right. exact Hf. }
  unfold prepare. rewrite Hmiss, Hphoto, Hok, Htpl, Hvalid.
  unfold assemble in *. rewrite Hout. reflexivity.
Qed.

(** When [prepare] gets to the write, the inputs read. *)
Lemma prepare_sound w size out :
  prepare os parse_pdf get_pixmap_png cfg w = inr (size, out) ->
  exists photo tdata,
    reads os w (photo_file cfg) = Some photo /\
    reads os w (html_template cfg) = Some tdata /\
    utf8_valid tdata = true /\
    first_error os parse_pdf w (pdf_files cfg) = None /\
    size = length photo /\
    assemble (photo_file cfg) (pdf_files cfg) (Base64.b64encode photo)
      (sections_for (rendered_pages os parse_pdf get_pixmap_png cfg w)
                    (pdf_files cfg))
      (universal_newlines (map ascii_of_byte tdata)) = inr out.
Proof.
  unfold prepare.
  destruct (missing os cfg w) as [|f l]; [|discriminate].
  destruct (reads os w (photo_file cfg)) as [photo|]; [|discriminate].
  destruct (first_error os parse_pdf w (pdf_files cfg)) as [e|];
    [discriminate|].
  destruct (reads os w (html_template cfg)) as [tdata|]; [|discriminate].
  destruct (utf8_valid tdata) eqn:Hvalid; [|discriminate].
  destruct (assemble (photo_file cfg) (pdf_files cfg)
              (Base64.b64encode photo)
              (sections_for (rendered_pages os parse_pdf get_pixmap_png cfg w)
                 (pdf_files cfg))
              (universal_newlines (map ascii_of_byte tdata)))
    as [e|out'] eqn:Hout; [discriminate|].
  intros [= <- <-]. exists photo, tdata. repeat split; auto.
Qed.

End RunFacts.

(** X3.  The rotation step keeps the rotation of a page valid: from a
    multiple of 90 it gives one of 0, 90, 180 and 270, the angles
    [set_rotation] accepts; and four steps bring a page back to its
    rotation, reduced modulo 360. *)
Theorem quarter_turn_keeps_rotation_valid (page_content : Type)
  (p : page page_content) :
  (rotation p mod 90 = 0)%Z ->
  In (rotation (rotate_cw_page p)) [0; 90; 180; 270]%Z /\
  rotate_cw_page (rotate_cw_page (rotate_cw_page (rotate_cw_page p))) =
    Page ((rotation p) mod 360) (content p).
Proof.
  intros H90. split.
  - unfold rotate_cw_page, set_rotation. cbn [rotation].
    pose proof (Z.mod_pos_bound (rotation p + 90) 360 eq_refl) as Hm.
    pose proof (Z.div_mod (rotation p + 90) 360) as Hdm.
    apply Z.div_exact in H90; [|lia].
    cbn [In]. lia.
  - unfold rotate_cw_page, set_rotation. cbn [rotation content].
    f_equal. Z.to_euclidean_division_equations. lia.
Qed.


Lemma quarter_turn_keeps_rotation_valid_witness :
  (rotation (Page 270 tt) mod 90 = 0)%Z /\
  In (rotation (rotate_cw_page (Page 270 tt))) [0; 90; 180; 270]%Z /\
  rotate_cw_page
    (rotate_cw_page (rotate_cw_page (rotate_cw_page (Page 270 tt)))) =
    Page ((rotation (Page 270 tt)) mod 360) (content (Page 270 tt)).
Proof.
  split; [reflexivity|].
  apply (quarter_turn_keeps_rotation_valid unit (Page 270 tt)).
  reflexivity.
Defined.

(** ** The fragments and the placeholder pattern *)




(** X5.  What the pattern of a PDF matches.  For every file name without
    [>], whatever characters special to regular expressions it holds, the
    pattern compiles; and it matches at the start of a text, leaving the
    text [rest], exactly when the text is [<object], an opening tag
    without [>] that holds the attribute data="name" literally, a [>], a
    content in which [</object>] does not occur, [</object>], and then
    [rest].  So the file name is matched literally, the opening tag cannot
    run past its [>], and the match ends at the first [</object>]. *)
Theorem placeholder_pattern_matches_exactly (name s rest : str) :
  no_gt name = true ->
  exists r,
    compile (object_pattern name) = Some r /\
    (match_here r s = Some rest <->
     exists h b,
       s = open_tag ++ h ++ ">"%char :: b ++ close_tag ++ rest /\
       no_gt h = true /\
       contains (data_attr name) h = true /\
       contains close_tag b = false).
Proof.
  intros Hn. exists (object_regex name).
  split; [apply compile_object_pattern|].
  rewrite match_object by exact Hn. split.
  - unfold object_match.
    destruct (starts_with open_tag s) eqn:Eo; [|discriminate].
    cbv zeta. pose proof (starts_with_split _ _ Eo) as Hs.
    set (s1 := skipn (length open_tag) s) in *.
    destruct (attr_before_gt (data_attr name) s1) eqn:Ea; [|discriminate].
    destruct (after_gt s1) as [t|] eqn:Eg; [|discriminate].
    intros Hf.
    destruct (after_gt_split _ _ Eg) as (h & Hs1 & Hh).
    destruct (after_first_first _ _ _ Hf) as (b & Hb & Hfirst).
    rewrite Hs1 in Ea. rewrite attr_before_gt_app in Ea
      by (auto using no_gt_data_attr).
    exists h, b. split; [|split; [|split]].
    + rewrite Hs, Hs1, Hb. reflexivity.
    + exact Hh.
    + exact Ea.
    + apply Hfirst. discriminate.
  - intros (h & b & -> & Hh & Hattr & Hb).
    rewrite object_match_block by assumption.
    rewrite Hattr. apply after_first_close. exact Hb.
Qed.

Lemma placeholder_pattern_matches_exactly_witness :
  let name := lit "T1.pdf" in
  let s := lit "<object type=x data=" ++ quoted (lit "T1.pdf") ++
           lit " width=9>alt</object><p></object>" in
  no_gt name = true /\
  exists r,
    compile (object_pattern name) = Some r /\
    (match_here r s = Some (lit "<p></object>") <->
     exists h b,
       s = open_tag ++ h ++ ">"%char :: b ++ close_tag ++ lit "<p></object>" /\
       no_gt h = true /\
       contains (data_attr name) h = true /\
       contains close_tag b = false).
Proof.
  intros name s. split; [reflexivity|].
  apply (placeholder_pattern_matches_exactly name s (lit "<p></object>")).
  reflexivity.
Defined.



(** X7.  Assembly never raises, whatever the template, the file names
    and the pages: every name of [pdf_files] has its entry in
    [pdf_sections], so the lookup does not fail; the pattern of every name
    compiles, since the name is escaped; and the fragments hold no
    backslash, so they are inserted as they are. *)
Theorem assembly_never_raises
  (photo_file : str) (names : list str) (photo : bytes)
  (pages : str -> list bytes) (html : str) :
  (forall n, In n names ->
     dict_get (sections_for pages names) n = Some (fragment_for pages n) /\
     compile (object_pattern n) = Some (object_regex n) /\
     existsb (Ascii.eqb "\") (fragment_for pages n) = false) /\
  exists out,
    assemble photo_file names (Base64.b64encode photo)
      (sections_for pages names) html = inr out.
Proof.
  split.
  - intros n Hn. split; [|split].
    + apply sections_for_get, Hn.
    + apply compile_object_pattern.
    + apply fragment_no_backslash.
  - unfold assemble. apply substitute_objects_total. apply incl_refl.
Qed.

(** ** Characters a substitution can introduce *)

Lemma replace_from_forallb (P : ascii -> bool) old new s :
  old <> [] -> forallb P new = true -> forallb P s = true ->
  forallb P (replace_from old new 0 s) = true.
Proof.
  intros Hold Hnew. pattern s. apply (scan_ind old); [exact Hold | | |].
  - reflexivity.
  - intros t IH H. rewrite forallb_app in H. apply andb_true_iff in H.
    rewrite replace_from_hit by exact Hold.
    rewrite forallb_app, Hnew, IH by apply H. reflexivity.
  - intros c t Hmiss IH H. cbn [forallb] in H. apply andb_true_iff in H.
    rewrite replace_from_miss by exact Hmiss.
    cbn [forallb]. rewrite (proj1 H), IH by apply H. reflexivity.
Qed.

Lemma sub_from_forallb (P : ascii -> bool) n frag s :
  forallb P frag = true -> forallb P s = true ->
  forallb P (sub_from (object_regex n) frag 0 s) = true.
Proof.
  intros Hfrag. rewrite object_regex_cons. pattern s.
  apply (sub_ind (CChar "<") (tl (object_regex n))).
  - reflexivity.
  - intros m rest Hm Hmatch IH H. rewrite forallb_app in H.
    apply andb_true_iff in H.
    rewrite (sub_from_hit _ _ m rest Hm Hmatch).
    rewrite forallb_app, Hfrag, IH by apply H. reflexivity.
  - intros c t Hmiss IH H. cbn [forallb] in H. apply andb_true_iff in H.
    rewrite sub_from_miss by exact Hmiss.
    cbn [forallb]. rewrite (proj1 H), IH by apply H. reflexivity.
Qed.

Lemma substitute_objects_forallb (P : ascii -> bool) pages names :
  (forall n, forallb P (fragment_for pages n) = true) ->
  forall todo html out,
    incl todo names ->
    forallb P html = true ->
    substitute_objects (sections_for pages names) todo html = inr out ->
    forallb P out = true.
Proof.
  intros Hfrag. induction todo as [|n todo IH]; intros html out Hincl Hhtml.
  - cbn. intros [= <-]. exact Hhtml.
  - cbn [substitute_objects].
    rewrite substitute_object_eq by (apply Hincl; left; reflexivity).
    apply IH.
    + intros x Hx. apply Hincl. right. exact Hx.
    + apply sub_from_forallb; [apply Hfrag | exact Hhtml].
Qed.

Lemma universal_newlines_no_cr s :
  existsb (Ascii.eqb "013") (universal_newlines s) = false.
Proof.
  assert (H : forall n s, length s <= n ->
                existsb (Ascii.eqb "013") (universal_newlines s) = false).
  { clear s. induction n as [|n IH]; intros s Hlen.
    - destruct s; [reflexivity | cbn in Hlen; lia].
    - destruct s as [|c s]; [reflexivity|].
      cbn [universal_newlines]. cbn [length] in Hlen.
      destruct (Ascii.eqb c "013") eqn:Ec.
      + destruct s as [|d s]; [reflexivity|].
        cbn [length] in Hlen.
        destruct (Ascii.eqb d nl); cbn [existsb]; apply IH; cbn [length]; lia.
      + cbn [existsb]. rewrite Ascii.eqb_sym, Ec. apply IH. lia. }
  apply (H (length s)). apply le_n.
Qed.

Lemma universal_newlines_id s :
  existsb (Ascii.eqb "013") s = false -> universal_newlines s = s.
Proof.
  induction s as [|c s IH]; [reflexivity|].
  cbn [existsb universal_newlines]. intros H. apply orb_false_iff in H.
  destruct H as [Hc Hs]. rewrite Ascii.eqb_sym, Hc. f_equal. apply IH, Hs.
Qed.

Lemma fragment_char_not_cr c :
  fragment_char c = true -> Ascii.eqb "013" c = false.
Proof.
  destruct c as [[] [] [] [] [] [] [] []]; vm_compute; congruence.
Qed.

Lemma is_b64_not_cr c : is_b64 c = true -> Ascii.eqb "013" c = false.
Proof.
  destruct c as [[] [] [] [] [] [] [] []]; vm_compute; congruence.
Qed.

Lemma existsb_false_forallb {A} (f : A -> bool) l :
  existsb f l = false <-> forallb (fun x => negb (f x)) l = true.
Proof.
  induction l as [|x l IH]; [split; reflexivity|].
  cbn [existsb forallb]. rewrite orb_false_iff, andb_true_iff, IH.
  rewrite negb_true_iff. reflexivity.
Qed.

Lemma assemble_no_cr pf names photo pages html out :
  existsb (Ascii.eqb "013") html = false ->
  assemble pf names (Base64.b64encode photo) (sections_for pages names) html
    = inr out ->
  existsb (Ascii.eqb "013") out = false.
Proof.
  intros Hhtml Hout. apply existsb_false_forallb.
  apply existsb_false_forallb in Hhtml.
  unfold assemble in Hout.
  apply (substitute_objects_forallb _ pages names) with (4 := Hout).
  - intros n. apply existsb_false_forallb.
    apply (forallb_excludes fragment_char); [apply fragment_char_not_cr|].
    apply fragment_chars.
  - apply incl_refl.
  - rewrite replace_photo_eq. apply replace_from_forallb.
    + apply photo_src_nonempty.
    + apply existsb_false_forallb. unfold photo_data_uri, quoted.
      cbn [lit list_ascii_of_string app existsb].
      rewrite existsb_app.
      rewrite (forallb_excludes is_b64 _ _ is_b64_not_cr
                 (b64encode_chars photo)).
      reflexivity.
    + exact Hhtml.
Qed.

Lemma existsb_through {A B} (f : B -> bool) (g : A -> B) (h : A -> bool) l :
  (forall x, f (g x) = h x) -> existsb f (map g l) = existsb h l.
Proof.
  intros H. induction l as [|x l IH]; [reflexivity|].
  cbn [map existsb]. rewrite H, IH. reflexivity.
Qed.

Lemma byte_of_ascii_cr c :
  Byte.eqb x0d (byte_of_ascii c) = Ascii.eqb "013" c.
Proof. destruct c as [[] [] [] [] [] [] [] []]; reflexivity. Qed.

Lemma ascii_of_byte_cr b :
  Ascii.eqb "013" (ascii_of_byte b) = Byte.eqb x0d b.
Proof. destruct b; reflexivity. Qed.

Lemma replace_from_same p s : p <> [] -> replace_from p p 0 s = s.
Proof.
  intros Hp. pattern s. apply (scan_ind p); [exact Hp | | |].
  - reflexivity.
  - intros t IH. rewrite replace_from_hit by exact Hp. rewrite IH.
    reflexivity.
  - intros c t Hmiss IH. rewrite replace_from_miss by exact Hmiss.
    rewrite IH. reflexivity.
Qed.

Lemma encode_text_lf os text :
  linesep os = [nl] -> encode_text os text = map byte_of_ascii text.
Proof.
  intros H. unfold encode_text. rewrite H. cbn [str_replace].
  rewrite replace_from_same by discriminate. reflexivity.
Qed.

(** ** Runs of [main] *)

Section RunProperties.

Variable os : platform.
Variable page_content : Type.
Variable parse_pdf : bytes -> option (document page_content).
Variable get_pixmap_png : Z -> page page_content -> bytes.

(** X8.  When the photo and the template read, the template is valid
    UTF-8, every PDF opens, the output file opens for writing and the
    device has room for it, [main] returns normally.  It writes to the
    output file the assembly of the template (read with universal
    newlines) with the base64 text of the photo and the fragments of the
    pages rendered at 200 DPI, rotated where [rotate_map] says so, with
    every line feed written as the line separator of the system; it
    changes no other file; and it prints, in this order, the header of
    the photo and its size, the header of the conversion, for each PDF its
    own line followed by one line per page, the header of the third step
    and the closing summary with the size of the output. *)
Theorem complete_run_writes_and_reports (cfg : config) (w : world)
  (photo tdata : bytes) :
  reads os w (photo_file cfg) = Some photo ->
  reads os w (html_template cfg) = Some tdata ->
  utf8_valid tdata = true ->
  first_error os parse_pdf w (pdf_files cfg) = None ->
  read_only os (output_file cfg) = false ->
  exists out,
    assemble (photo_file cfg) (pdf_files cfg) (Base64.b64encode photo)
      (sections_for (rendered_pages os parse_pdf get_pixmap_png cfg w)
                    (pdf_files cfg))
      (universal_newlines (map ascii_of_byte tdata)) = inr out /\
    (fits os (length (encode_text os out)) = true ->
     main_with os parse_pdf get_pixmap_png cfg w =
       (inr tt,
        World (fun p => if str_eqb p (output_file cfg)
                        then Some (encode_text os out) else files w p)
              (stdout w ++
               success_lines os parse_pdf cfg w (length photo)
                 (length (encode_text os out))))).
Proof.
  intros Hphoto Htpl Hvalid Hok Hrw.
  destruct (prepare_complete os page_content parse_pdf get_pixmap_png cfg w
              photo tdata Hphoto Htpl Hvalid Hok) as (out & Hout & Hprep).
  exists out. split; [exact Hout|]. intros Hfits.
  rewrite (main_with_writes os page_content parse_pdf get_pixmap_png cfg w
             _ _ Hprep).
  rewrite Hrw. cbv zeta. rewrite Hfits. reflexivity.
Qed.

(** X9.  An exit status of 0 can be relied on: when [main] ends with it,
    the photo and the template were read, the template was valid UTF-8,
    every PDF opened, and the output file holds the whole assembled text,
    as encoded for the system. *)
Theorem zero_exit_status_means_complete_output (cfg : config) (w : world) :
  exit_status (fst (main_with os parse_pdf get_pixmap_png cfg w)) = 0 ->
  exists photo tdata out,
    reads os w (photo_file cfg) = Some photo /\
    reads os w (html_template cfg) = Some tdata /\
    utf8_valid tdata = true /\
    first_error os parse_pdf w (pdf_files cfg) = None /\
    assemble (photo_file cfg) (pdf_files cfg) (Base64.b64encode photo)
      (sections_for (rendered_pages os parse_pdf get_pixmap_png cfg w)
                    (pdf_files cfg))
      (universal_newlines (map ascii_of_byte tdata)) = inr out /\
    files (snd (main_with os parse_pdf get_pixmap_png cfg w))
      (output_file cfg) = Some (encode_text os out).
Proof.
  destruct (prepare os parse_pdf get_pixmap_png cfg w) as [s|[size out]]
    eqn:Hprep.
  - destruct (main_with_stops os page_content parse_pdf get_pixmap_png cfg w
                s Hprep) as (w' & Hrun & _).
    rewrite Hrun. cbn [fst exit_status].
    assert (Hs : s = SystemExit 1 \/ exists e, s = Raised e).
    { unfold prepare in Hprep.
      destruct (missing os cfg w); [|left; congruence].
      right.
      repeat match type of Hprep with
             | match ?x with _ => _ end = _ => destruct x
             | (if ?x then _ else _) = _ => destruct x
             end;
        first [discriminate Hprep | injection Hprep as <-; eauto]. }
    destruct Hs as [->|[e ->]]; discriminate.
  - rewrite (main_with_writes os page_content parse_pdf get_pixmap_png cfg w
               _ _ Hprep).
    destruct (prepare_sound os page_content parse_pdf get_pixmap_png cfg w
                _ _ Hprep)
      as (photo & tdata & Hphoto & Htpl & Hvalid & Hok & _ & Hout).
    destruct (read_only os (output_file cfg)); [discriminate|].
    cbv zeta.
    destruct (fits os (length (encode_text os out))); [|discriminate].
    intros _. exists photo, tdata, out. repeat split; try assumption.
    cbn [snd files]. rewrite str_eqb_refl. reflexivity.
Qed.


(** X12.  When the photo and the template read and every PDF opens, but
    the template is not valid UTF-8, [main] stops with a decoding error of
    the template.  This happens only after the photo has been encoded and
    every PDF converted, as the lines printed so far show, and no file is
    written. *)
Theorem undecodable_template_stops_main (cfg : config) (w : world)
  (photo tdata : bytes) :
  reads os w (photo_file cfg) = Some photo ->
  reads os w (html_template cfg) = Some tdata ->
  first_error os parse_pdf w (pdf_files cfg) = None ->
  utf8_valid tdata = false ->
  main_with os parse_pdf get_pixmap_png cfg w =
    (inl (Raised (UnicodeDecodeError (html_template cfg))),
     World (files w)
           (stdout w ++
            [Text (lit "[1/3] Procesando foto de perfil...");
             PhotoEncodedKB (length photo);
             Text (lit "[2/3] Convirtiendo PDFs a imagenes...")] ++
            flat_map (pdf_lines os parse_pdf w) (pdf_files cfg) ++
            [Text (lit "[3/3] Generando HTML autocontenido...")])).
Proof.
  intros Hphoto Htpl Hok Hbad.
  apply (main_with_bad_template os page_content parse_pdf get_pixmap_png
           cfg w photo tdata); try assumption.
  assert (Hall : forall f, In f (required cfg) -> path_exists os w f = true).
  { intros f Hf.
    assert (Hr : exists d, reads os w f = Some d).
    { destruct Hf as [<-|[<-|Hf]]; eauto.
      destruct (proj1 (first_error_none os page_content parse_pdf w
                         (pdf_files cfg)) Hok f Hf)
        as (d & _ & Hd & _). eauto. }
    destruct Hr as [d Hd]. destruct (reads_files _ _ _ _ Hd) as [_ Hf'].
    unfold path_exists. rewrite Hf'. reflexivity. }
  unfold missing. induction (required cfg) as [|x l IH]; [reflexivity|].
  cbn [filter]. rewrite (Hall x (or_introl eq_refl)). cbn [negb].
  apply IH. intros f Hf. apply Hall. right. exact Hf.
Qed.

(** X13.  A run of the script that stops with [sys.exit(1)] or with the
    error of a file it reads leaves every file as it was.  A run that
    stops with the error of the output file leaves every file as it was
    when the output file does not open for writing; when the device has
    no room for the output, the run stops while it writes, after the
    output file has been emptied, and leaves it with the part of the
    assembled text that was written.  The script does not remove it. *)
Theorem failed_run_leaves_at_most_a_partial_output (fitz_installed : bool)
  (w : world) (s : stop) :
  fst (run_script os parse_pdf get_pixmap_png fitz_installed w) = inl s ->
  (s <> Raised (OSError (lit "index.html")) ->
   files (snd (run_script os parse_pdf get_pixmap_png fitz_installed w)) =
     files w) /\
  (s = Raised (OSError (lit "index.html")) ->
   (read_only os (lit "index.html") = true /\
    files (snd (run_script os parse_pdf get_pixmap_png fitz_installed w)) =
      files w) \/
   (read_only os (lit "index.html") = false /\
    exists photo tdata out,
      reads os w (lit "26.jpg.jpeg") = Some photo /\
      reads os w (lit "credenciales.html") = Some tdata /\
      assemble (lit "26.jpg.jpeg") (pdf_files script_config)
        (Base64.b64encode photo)
        (sections_for
           (rendered_pages os parse_pdf get_pixmap_png script_config w)
           (pdf_files script_config))
        (universal_newlines (map ascii_of_byte tdata)) = inr out /\
      fits os (length (encode_text os out)) = false /\
      forall p,
        files (snd (run_script os parse_pdf get_pixmap_png fitz_installed w))
          p
        = if str_eqb p (lit "index.html")
          then Some (written os (encode_text os out)) else files w p)).
Proof.
  unfold run_script. destruct fitz_installed.
  2:{ intros [= <-]. split; [reflexivity | discriminate]. }
  unfold main.
  destruct (prepare os parse_pdf get_pixmap_png script_config w)
    as [s'|[size out]] eqn:Hprep.
  - destruct (main_with_stops os page_content parse_pdf get_pixmap_png
                script_config w s' Hprep) as (w' & Hrun & Hfiles).
    rewrite Hrun. cbn [fst snd]. intros [= <-].
    split; [intros _; exact Hfiles|].
    intros ->. exfalso. unfold prepare in Hprep.
    destruct (missing os script_config w); [|discriminate].
    destruct (reads os w (photo_file script_config)); [|discriminate].
    destruct (first_error os parse_pdf w (pdf_files script_config))
      as [e|] eqn:Herr.
    { injection Hprep as ->.
      destruct (first_error_kind os page_content parse_pdf w _ _ Herr)
        as [n [E|E]]; discriminate. }
    destruct (reads os w (html_template script_config)); [|discriminate].
    destruct (utf8_valid _); [|discriminate].
    unfold assemble in Hprep.
    match type of Hprep with
    | context [substitute_objects (sections_for ?pg ?ns) ?todo ?h] =>
        destruct (substitute_objects_total pg ns h todo (incl_refl _))
          as [out E]; rewrite E in Hprep
    end.
    discriminate.
  - rewrite (main_with_writes os page_content parse_pdf get_pixmap_png
               script_config w _ _ Hprep).
    destruct (prepare_sound os page_content parse_pdf get_pixmap_png
                script_config w _ _ Hprep)
      as (photo & tdata & Hphoto & Htpl & Hvalid & Hok & _ & Hout).
    change (output_file script_config) with (lit "index.html").
    destruct (read_only os (lit "index.html")).
    { cbn [fst snd files]. intros [= <-].
      split; [intros H; exfalso; apply H; reflexivity|].
      intros _. left. split; reflexivity. }
    cbv zeta.
    destruct (fits os (length (encode_text os out))) eqn:Hfits;
      [discriminate|].
    cbn [fst snd]. intros [= <-].
    split; [intros H; exfalso; apply H; reflexivity|].
    intros _. right. split; [reflexivity|].
    exists photo, tdata, out. repeat split; try assumption.
Qed.

(** X14.  Whatever happens, a run of the script changes no file other than
    [index.html]; in particular the photo, the template and the PDFs are
    never modified. *)
Theorem script_writes_only_the_output_file (fitz_installed : bool)
  (w : world) (p : str) :
  p <> lit "index.html" ->
  files (snd (run_script os parse_pdf get_pixmap_png fitz_installed w)) p =
  files w p.
Proof.
  intros Hp. unfold run_script. destruct fitz_installed; [|reflexivity].
  unfold main.
  destruct (prepare os parse_pdf get_pixmap_png script_config w)
    as [s'|[size out]] eqn:Hprep.
  - destruct (main_with_stops os page_content parse_pdf get_pixmap_png
                script_config w s' Hprep) as (w' & Hrun & Hfiles).
    rewrite Hrun. cbn [snd]. rewrite Hfiles. reflexivity.
  - rewrite (main_with_writes os page_content parse_pdf get_pixmap_png
               script_config w _ _ Hprep).
    destruct (read_only os (output_file script_config)); [reflexivity|].
    cbv zeta.
    destruct (fits os (length (encode_text os out)));
      cbn [snd files output_file script_config];
      rewrite (str_eqb_neq _ _ Hp); reflexivity.
Qed.

(** X15.  Running [main] again right after a run changes nothing: the
    second run ends as the first one did and leaves every file, the output
    file included, as the first run left it.  This holds because the
    output file is not one of the files [main] reads. *)
Theorem second_run_changes_nothing (cfg : config) (w : world) :
  ~ In (output_file cfg) (required cfg) ->
  let w1 := snd (main_with os parse_pdf get_pixmap_png cfg w) in
  fst (main_with os parse_pdf get_pixmap_png cfg w1) =
    fst (main_with os parse_pdf get_pixmap_png cfg w) /\
  forall p,
    files (snd (main_with os parse_pdf get_pixmap_png cfg w1)) p =
    files w1 p.
Proof.
  intros Hout w1. subst w1.
  destruct (prepare os parse_pdf get_pixmap_png cfg w) as [s|[size out]]
    eqn:Hprep.
  - destruct (main_with_stops os page_content parse_pdf get_pixmap_png cfg w
                s Hprep) as (w' & Hrun & Hfiles).
    rewrite Hrun. cbn [fst snd].
    assert (Hprep' : prepare os parse_pdf get_pixmap_png cfg w' = inl s).
    { rewrite <- Hprep. apply prepare_agrees. intros f _.
      rewrite Hfiles. reflexivity. }
    destruct (main_with_stops os page_content parse_pdf get_pixmap_png cfg
                w' s Hprep') as (w2 & Hrun2 & Hfiles2).
    rewrite Hrun2. cbn [fst snd]. split; [reflexivity|].
    intros p. rewrite Hfiles2. reflexivity.
  - rewrite (main_with_writes os page_content parse_pdf get_pixmap_png cfg w
               _ _ Hprep).
    assert (Hagain : forall w',
              (forall p, p <> output_file cfg -> files w' p = files w p) ->
              prepare os parse_pdf get_pixmap_png cfg w' = inr (size, out)).
    { intros w' Hsame. rewrite <- Hprep. apply prepare_agrees.
      intros f Hf. apply Hsame. intros ->. exact (Hout Hf). }
    destruct (read_only os (output_file cfg)) eqn:Hro.
    + cbn [fst snd].
      match goal with
      | |- context [main_with _ _ _ _ ?w'] =>
          rewrite (main_with_writes os page_content parse_pdf
                     get_pixmap_png cfg w' size out)
            by (apply Hagain; intros p _; reflexivity)
      end.
      rewrite Hro. cbn [fst snd files]. split; reflexivity.
    + cbv zeta.
      destruct (fits os (length (encode_text os out))) eqn:Hfits;
        cbn [fst snd];
        match goal with
        | |- context [main_with _ _ _ _ ?w'] =>
            rewrite (main_with_writes os page_content parse_pdf
                       get_pixmap_png cfg w' size out)
        end;
        try (apply Hagain; intros p Hp; cbn [files];
             rewrite (str_eqb_neq _ _ Hp); reflexivity);
        rewrite Hro; cbv zeta; rewrite Hfits; cbn [fst snd files];
        (split; [reflexivity|]);
        intros p; destruct (str_eqb p (output_file cfg)); reflexivity.
Qed.

(** X16.  The line endings of the output are those of the system,
    whatever line endings the template has: the template is read with
    universal newlines, nothing that is inserted holds a carriage return,
    and every line feed of the assembled text is written as the line
    separator.  Where the line separator is the line feed, the output
    holds no carriage return at all, so a template with CRLF line endings
    is changed also outside the placeholders. *)
Theorem output_line_endings_follow_the_system (cfg : config) (w : world) :
  fst (main_with os parse_pdf get_pixmap_png cfg w) = inr tt ->
  exists out,
    existsb (Ascii.eqb "013") out = false /\
    files (snd (main_with os parse_pdf get_pixmap_png cfg w))
      (output_file cfg) =
      Some (map byte_of_ascii (str_replace [nl] (linesep os) out)) /\
    (linesep os = [nl] ->
     existsb (Byte.eqb x0d)
       (map byte_of_ascii (str_replace [nl] (linesep os) out)) = false).
Proof.
  destruct (prepare os parse_pdf get_pixmap_png cfg w) as [s|[size out]]
    eqn:Hprep.
  - destruct (main_with_stops os page_content parse_pdf get_pixmap_png cfg w
                s Hprep) as (w' & Hrun & _).
    rewrite Hrun. discriminate.
  - rewrite (main_with_writes os page_content parse_pdf get_pixmap_png cfg w
               _ _ Hprep).
    destruct (prepare_sound os page_content parse_pdf get_pixmap_png cfg w
                _ _ Hprep)
      as (photo & tdata & Hphoto & Htpl & Hvalid & Hok & _ & Hout).
    destruct (read_only os (output_file cfg)); [discriminate|].
    cbv zeta.
    destruct (fits os (length (encode_text os out))); [|discriminate].
    intros _. exists out.
    assert (Hcr : existsb (Ascii.eqb "013") out = false)
      by apply (assemble_no_cr _ _ _ _ _ _ (universal_newlines_no_cr _) Hout).
    split; [exact Hcr|]. split.
    + cbn [snd files]. rewrite str_eqb_refl. reflexivity.
    + intros Hlf. fold (encode_text os out).
      rewrite (encode_text_lf os out Hlf).
      rewrite (existsb_through _ _ _ _ byte_of_ascii_cr). exact Hcr.
Qed.

(** X17.  On a system whose line separator is the line feed, a template
    that holds no carriage return, no photo reference and no [<object]
    goes through a complete run unchanged: when the output file opens for
    writing and the device has room for it, the output file is a
    byte-for-byte copy of the template. *)
Theorem plain_template_is_copied (cfg : config) (w : world)
  (photo tdata : bytes) :
  reads os w (photo_file cfg) = Some photo ->
  reads os w (html_template cfg) = Some tdata ->
  utf8_valid tdata = true ->
  first_error os parse_pdf w (pdf_files cfg) = None ->
  linesep os = [nl] ->
  read_only os (output_file cfg) = false ->
  fits os (length tdata) = true ->
  existsb (Byte.eqb x0d) tdata = false ->
  contains (photo_src (photo_file cfg)) (map ascii_of_byte tdata) = false ->
  contains open_tag (map ascii_of_byte tdata) = false ->
  fst (main_with os parse_pdf get_pixmap_png cfg w) = inr tt /\
  files (snd (main_with os parse_pdf get_pixmap_png cfg w))
    (output_file cfg) = Some tdata.
Proof.
  intros Hphoto Htpl Hvalid Hok Hlf Hrw Hfits Hcr Hsrc Hobj.
  assert (Hnl : universal_newlines (map ascii_of_byte tdata) =
                map ascii_of_byte tdata).
  { apply universal_newlines_id.
    rewrite (existsb_through _ _ _ _ ascii_of_byte_cr). exact Hcr. }
  destruct (prepare_complete os page_content parse_pdf get_pixmap_png cfg w
              photo tdata Hphoto Htpl Hvalid Hok) as (out & Hout & Hprep).
  assert (Hid : out = map ascii_of_byte tdata).
  { rewrite Hnl in Hout. unfold assemble in Hout.
    rewrite replace_photo_eq, replace_from_absent in Hout by exact Hsrc.
    rewrite substitute_objects_absent in Hout.
    - congruence.
    - apply incl_refl.
    - intros n _. apply search_needs_open_tag. exact Hobj. }
  assert (Hdata : encode_text os out = tdata).
  { rewrite (encode_text_lf os out Hlf), Hid, map_map.
    rewrite <- (map_id tdata) at 2.
    apply map_ext. intros b. apply byte_of_ascii_of_byte. }
  rewrite (main_with_writes os page_content parse_pdf get_pixmap_png cfg w
             _ _ Hprep).
  rewrite Hrw. cbv zeta. rewrite Hdata, Hfits.
  cbn [fst snd files]. rewrite str_eqb_refl. split; reflexivity.
Qed.

End RunProperties.

Example crlf_on_a_system_with_crlf :
  let os := Platform (fun _ => None) (fun _ => false) None ["013"; "010"]%char in
  encode_text os (lit "a" ++ [nl] ++ lit "b") = [x61; x0d; x0a; x62].
Proof. reflexivity. Qed.

Lemma complete_run_writes_and_reports_witness :
  let parse_pdf := fun _ : bytes => Some [Page 0 tt; Page 90 tt] in
  let png := fun (_ : Z) (p : page unit) =>
    if Z.eqb (rotation p) 0 then [x89; x50] else [x89; x50; x4e] in
  let cfg := script_config in
  let photo := [xff; xd8; xff] in
  let tdata := map byte_of_ascii
                 (lit "<p><img src=" ++ quoted (lit "26.jpg.jpeg") ++
                  lit "></p>" ++ ["013"; "010"]%char ++
                  lit "<object data=" ++ quoted (lit "T2.pdf") ++
                  lit ">T2</object>") in
  let w := World (fun p => if str_eqb p (lit "credenciales.html")
                           then Some tdata
                           else if str_eqb p (lit "26.jpg.jpeg")
                           then Some photo
                           else Some [x25; x50; x44; x46]) [] in
  reads posix w (photo_file cfg) = Some photo /\
  reads posix w (html_template cfg) = Some tdata /\
  utf8_valid tdata = true /\
  first_error posix parse_pdf w (pdf_files cfg) = None /\
  read_only posix (output_file cfg) = false /\
  exists out,
    assemble (photo_file cfg) (pdf_files cfg) (Base64.b64encode photo)
      (sections_for (rendered_pages posix parse_pdf png cfg w)
                    (pdf_files cfg))
      (universal_newlines (map ascii_of_byte tdata)) = inr out /\
    (fits posix (length (encode_text posix out)) = true ->
     main_with posix parse_pdf png cfg w =
       (inr tt,
        World (fun p => if str_eqb p (output_file cfg)
                        then Some (encode_text posix out) else files w p)
              (stdout w ++
               success_lines posix parse_pdf cfg w (length photo)
                 (length (encode_text posix out))))).
Proof.
  intros parse_pdf png cfg photo tdata w.
  split; [reflexivity|]. split; [reflexivity|].
  split; [vm_compute; reflexivity|]. split; [reflexivity|].
  split; [reflexivity|].
  apply (complete_run_writes_and_reports posix unit parse_pdf png cfg w
           photo tdata).
  - reflexivity.
  - reflexivity.
  - vm_compute. reflexivity.
  - reflexivity.
  - reflexivity.
Defined.

Lemma zero_exit_status_means_complete_output_witness :
  let parse_pdf := fun _ : bytes => Some [Page 0 tt] in
  let png := fun (_ : Z) (_ : page unit) => [x89; x50; x4e; x47] in
  let cfg := script_config in
  let w := World (fun p => if str_eqb p (lit "index.html") then None
                           else Some [x25; x50; x44; x46]) [] in
  exit_status (fst (main_with posix parse_pdf png cfg w)) = 0 /\
  exists photo tdata out,
    reads posix w (photo_file cfg) = Some photo /\
    reads posix w (html_template cfg) = Some tdata /\
    utf8_valid tdata = true /\
    first_error posix parse_pdf w (pdf_files cfg) = None /\
    assemble (photo_file cfg) (pdf_files cfg) (Base64.b64encode photo)
      (sections_for (rendered_pages posix parse_pdf png cfg w)
                    (pdf_files cfg))
      (universal_newlines (map ascii_of_byte tdata)) = inr out /\
    files (snd (main_with posix parse_pdf png cfg w)) (output_file cfg) =
      Some (encode_text posix out).
Proof.
  intros parse_pdf png cfg w.
  split; [vm_compute; reflexivity|].
  apply (zero_exit_status_means_complete_output posix unit parse_pdf png
           cfg w).
  vm_compute. reflexivity.
Defined.


Lemma undecodable_template_stops_main_witness :
  let parse_pdf := fun _ : bytes => Some [Page 0 tt] in
  let png := fun (_ : Z) (_ : page unit) => [x89; x50; x4e; x47] in
  let cfg := script_config in
  let photo := [x25; x50; x44; x46] in
  let tdata := [x3c; x70; x3e; xe1] in
  let w := World (fun p => if str_eqb p (lit "credenciales.html")
                           then Some tdata else Some photo) [] in
  reads posix w (photo_file cfg) = Some photo /\
  reads posix w (html_template cfg) = Some tdata /\
  first_error posix parse_pdf w (pdf_files cfg) = None /\
  utf8_valid tdata = false /\
  main_with posix parse_pdf png cfg w =
    (inl (Raised (UnicodeDecodeError (html_template cfg))),
     World (files w)
           (stdout w ++
            [Text (lit "[1/3] Procesando foto de perfil...");
             PhotoEncodedKB (length photo);
             Text (lit "[2/3] Convirtiendo PDFs a imagenes...")] ++
            flat_map (pdf_lines posix parse_pdf w) (pdf_files cfg) ++
            [Text (lit "[3/3] Generando HTML autocontenido...")])).
Proof.
  intros parse_pdf png cfg photo tdata w.
  split; [reflexivity|]. split; [reflexivity|]. split; [reflexivity|].
  split; [reflexivity|].
  apply (undecodable_template_stops_main posix unit parse_pdf png cfg w
           photo tdata);
    reflexivity.
Defined.

Lemma failed_run_leaves_at_most_a_partial_output_witness :
  let os := Platform (fun _ => None) (fun _ => false) (Some 6) [nl] in
  let parse_pdf := fun _ : bytes => Some (@nil (page unit)) in
  let png := fun (_ : Z) (_ : page unit) => [x89; x50; x4e; x47] in
  let tdata := map byte_of_ascii (lit "<p>hola, mundo</p>") in
  let w := World (fun p => if str_eqb p (lit "credenciales.html")
                           then Some tdata
                           else if str_eqb p (lit "index.html")
                           then Some [x76; x69; x65; x6a; x6f]
                           else Some [x25; x50; x44; x46]) [] in
  let s := Raised (OSError (lit "index.html")) in
  fst (run_script os parse_pdf png true w) = inl s /\
  files (snd (run_script os parse_pdf png true w)) (lit "index.html") =
    Some (map byte_of_ascii (lit "<p>hol")) /\
  (s <> Raised (OSError (lit "index.html")) ->
   files (snd (run_script os parse_pdf png true w)) = files w) /\
  (s = Raised (OSError (lit "index.html")) ->
   (read_only os (lit "index.html") = true /\
    files (snd (run_script os parse_pdf png true w)) = files w) \/
   (read_only os (lit "index.html") = false /\
    exists photo tdata out,
      reads os w (lit "26.jpg.jpeg") = Some photo /\
      reads os w (lit "credenciales.html") = Some tdata /\
      assemble (lit "26.jpg.jpeg") (pdf_files script_config)
        (Base64.b64encode photo)
        (sections_for (rendered_pages os parse_pdf png script_config w)
           (pdf_files script_config))
        (universal_newlines (map ascii_of_byte tdata)) = inr out /\
      fits os (length (encode_text os out)) = false /\
      forall p,
        files (snd (run_script os parse_pdf png true w)) p
        = if str_eqb p (lit "index.html")
          then Some (written os (encode_text os out)) else files w p)).
Proof.
  intros os parse_pdf png tdata w s.
  split; [vm_compute; reflexivity|]. split; [vm_compute; reflexivity|].
  apply (failed_run_leaves_at_most_a_partial_output os unit parse_pdf png
           true w s).
  vm_compute. reflexivity.
Defined.

Lemma script_writes_only_the_output_file_witness :
  let parse_pdf := fun _ : bytes => Some [Page 0 tt] in
  let png := fun (_ : Z) (_ : page unit) => [x89; x50; x4e; x47] in
  let w := World (fun _ => Some [x25; x50; x44; x46]) [] in
  lit "credenciales.html" <> lit "index.html" /\
  files (snd (run_script posix parse_pdf png true w))
    (lit "credenciales.html") =
  files w (lit "credenciales.html").
Proof.
  intros parse_pdf png w.
  split; [discriminate|].
  apply (script_writes_only_the_output_file posix unit parse_pdf png true w
           (lit "credenciales.html")).
  discriminate.
Defined.

Lemma second_run_changes_nothing_witness :
  let parse_pdf := fun _ : bytes => Some [Page 0 tt] in
  let png := fun (_ : Z) (_ : page unit) => [x89; x50; x4e; x47] in
  let cfg := script_config in
  let w := World (fun p => if str_eqb p (lit "index.html") then None
                           else Some [x25; x50; x44; x46]) [] in
  ~ In (output_file cfg) (required cfg) /\
  let w1 := snd (main_with posix parse_pdf png cfg w) in
  fst (main_with posix parse_pdf png cfg w1) =
    fst (main_with posix parse_pdf png cfg w) /\
  forall p,
    files (snd (main_with posix parse_pdf png cfg w1)) p = files w1 p.
Proof.
  intros parse_pdf png cfg w.
  assert (H : ~ In (output_file cfg) (required cfg)).
  { intros H. cbn in H. repeat destruct H as [H|H]; try discriminate H.
    exact H. }
  split; [exact H|].
  apply (second_run_changes_nothing posix unit parse_pdf png cfg w H).
Defined.

Lemma output_line_endings_follow_the_system_witness :
  let parse_pdf := fun _ : bytes => Some [Page 0 tt] in
  let png := fun (_ : Z) (_ : page unit) => [x89; x50; x4e; x47] in
  let cfg := script_config in
  let w := World (fun p => if str_eqb p (lit "credenciales.html")
                           then Some [x3c; x70; x3e; x0d; x0a; x61; x0d]
                           else Some [x25; x50; x44; x46]) [] in
  fst (main_with posix parse_pdf png cfg w) = inr tt /\
  exists out,
    existsb (Ascii.eqb "013") out = false /\
    files (snd (main_with posix parse_pdf png cfg w)) (output_file cfg) =
      Some (map byte_of_ascii (str_replace [nl] (linesep posix) out)) /\
    (linesep posix = [nl] ->
     existsb (Byte.eqb x0d)
       (map byte_of_ascii (str_replace [nl] (linesep posix) out)) = false).
Proof.
  intros parse_pdf png cfg w.
  split; [vm_compute; reflexivity|].
  apply (output_line_endings_follow_the_system posix unit parse_pdf png
           cfg w).
  vm_compute. reflexivity.
Defined.

Lemma plain_template_is_copied_witness :
  let parse_pdf := fun _ : bytes => Some [Page 0 tt] in
  let png := fun (_ : Z) (_ : page unit) => [x89; x50; x4e; x47] in
  let cfg := script_config in
  let photo := [xff; xd8; xff] in
  let tdata := [x3c; x70; x3e; xc3; xb1; x0a; x3c; x2f; x70; x3e] in
  let w := World (fun p => if str_eqb p (lit "credenciales.html")
                           then Some tdata
                           else if str_eqb p (lit "26.jpg.jpeg")
                           then Some photo
                           else Some [x25; x50; x44; x46]) [] in
  reads posix w (photo_file cfg) = Some photo /\
  reads posix w (html_template cfg) = Some tdata /\
  utf8_valid tdata = true /\
  first_error posix parse_pdf w (pdf_files cfg) = None /\
  linesep posix = [nl] /\
  read_only posix (output_file cfg) = false /\
  fits posix (length tdata) = true /\
  existsb (Byte.eqb x0d) tdata = false /\
  contains (photo_src (photo_file cfg)) (map ascii_of_byte tdata) = false /\
  contains open_tag (map ascii_of_byte tdata) = false /\
  fst (main_with posix parse_pdf png cfg w) = inr tt /\
  files (snd (main_with posix parse_pdf png cfg w)) (output_file cfg) =
    Some tdata.
Proof.
  intros parse_pdf png cfg photo tdata w.
  split; [reflexivity|]. split; [reflexivity|]. split; [reflexivity|].
  split; [reflexivity|]. split; [reflexivity|]. split; [reflexivity|].
  split; [reflexivity|]. split; [reflexivity|]. split; [reflexivity|].
  split; [reflexivity|].
  apply (plain_template_is_copied posix unit parse_pdf png cfg w photo tdata);
    reflexivity.
Defined.
